(** * Spending tracker: ledger state and aggregation

    A shallow embedding of the three variants of [App.tsx] that live in the
    repository, and the properties of the ledger that hold of them.

    - [Flat]    : [src/App.tsx], one global list of entries, each entry
                  carrying its own [month] field, with inline editing;
    - [ByMonth] : the variant keeping a [Record<string, Expense[]>] keyed by
                  month, without editing;
    - [Tracker] : [spend-tracker/src/App.tsx], with user categories, budgets
                  and one [localStorage] record per month.

    Modelling conventions.  A finite JavaScript [number] is a rational
    ([Qc]), as every double is one.  The handlers are written with exact
    addition, and so are the properties that hold whatever the rounding of
    a sum is; where the rounding matters, the sums are taken from [Rounded],
    in which every [+] is the exact sum rounded by the rounding of the
    platform, a parameter, with [round53] for rounding to the nearest double.
    The result of parsing user text is a [jsnum], which adds [NaN] and the
    two infinities.  A [string] holds the UTF-8 bytes of the text.  An object
    filled by computed names is the list of its own properties, read and
    written through [Object.prototype] as the language does.  React state is
    an explicit record that every handler maps to the next record; effects
    ([useEffect]) are run by the handler that changes their dependencies.
    [crypto.randomUUID()], [confirm], the string-to-number conversion and
    the lower-casing of a string are inputs of the handlers.  Rendering and
    money formatting are left out. *)

From Stdlib Require Import String Ascii QArith Qcanon Qround.
From Stdlib Require OrderedTypeEx.
From Stdlib Require Import Sorted.
From stdpp Require Import gmap strings list numbers.
From stdpp Require Import pretty.

Local Open Scope string_scope.
Local Open Scope Qc_scope.

(** ** JavaScript values used by the handlers *)

Module JS.

(** A [number]: a finite value, [NaN], [Infinity] or [-Infinity]. *)
Inductive jsnum :=
  | JFin (q : Qc)
  | JNaN
  | JPosInf
  | JNegInf.

(** A form or draft value before conversion: the edit draft of [Flat] holds a
    number until the user types, and a string afterwards. *)
Inductive jsval :=
  | VNum (n : jsnum)
  | VStr (s : string).

(** [Number.isFinite] and the global [isFinite] agree on numbers. *)
Definition isFinite (n : jsnum) : bool :=
  match n with JFin _ => true | _ => false end.

(** [n <= 0]; every comparison with [NaN] is false. *)
Definition le0 (n : jsnum) : bool :=
  match n with
  | JFin q => bool_decide (q ≤ 0)
  | JNegInf => true
  | JNaN | JPosInf => false
  end.

(** White space removed by [String.prototype.trim]: the WhiteSpace and
    LineTerminator code points of ECMAScript.  A [string] holds the UTF-8
    bytes of the text, so a code point above U+007F is a sequence of two or
    three bytes.

    One byte: TAB, LF, VT, FF, CR and SPACE. *)
Definition is_space (c : ascii) : bool :=
  let n := nat_of_ascii c in
  (Nat.eqb n 9 || Nat.eqb n 10 || Nat.eqb n 11 || Nat.eqb n 12
   || Nat.eqb n 13 || Nat.eqb n 32)%bool.

Definition byte_is (c : ascii) (n : nat) : bool := Nat.eqb (nat_of_ascii c) n.

(** Two bytes: U+00A0 (C2 A0). *)
Definition is_space2 (c1 c2 : ascii) : bool :=
  (byte_is c1 194 && byte_is c2 160)%bool.

(** Three bytes: U+1680 (E1 9A 80), U+2000 to U+200A (E2 80 80 to E2 80 8A),
    U+2028, U+2029 and U+202F (E2 80 A8, A9, AF), U+205F (E2 81 9F),
    U+3000 (E3 80 80) and U+FEFF (EF BB BF). *)
Definition is_space3 (c1 c2 c3 : ascii) : bool :=
  let n3 := nat_of_ascii c3 in
  ((byte_is c1 225 && byte_is c2 154 && byte_is c3 128)
   || (byte_is c1 226 && byte_is c2 128
       && ((Nat.leb 128 n3 && Nat.leb n3 138)
           || Nat.eqb n3 168 || Nat.eqb n3 169 || Nat.eqb n3 175))
   || (byte_is c1 226 && byte_is c2 129 && byte_is c3 159)
   || (byte_is c1 227 && byte_is c2 128 && byte_is c3 128)
   || (byte_is c1 239 && byte_is c2 187 && byte_is c3 191))%bool.

(** The text after one leading white space character, if there is one. *)
Definition dropSpace (s : string) : option string :=
  match s with
  | String c1 r1 =>
      if is_space c1 then Some r1
      else match r1 with
           | String c2 r2 =>
               if is_space2 c1 c2 then Some r2
               else match r2 with
                    | String c3 r3 =>
                        if is_space3 c1 c2 c3 then Some r3 else None
                    | EmptyString => None
                    end
           | EmptyString => None
           end
  | EmptyString => None
  end.

Fixpoint trimStart (s : string) : string :=
  match s with
  | String c1 r1 =>
      if is_space c1 then trimStart r1
      else match r1 with
           | String c2 r2 =>
               if is_space2 c1 c2 then trimStart r2
               else match r2 with
                    | String c3 r3 =>
                        if is_space3 c1 c2 c3 then trimStart r3 else s
                    | EmptyString => s
                    end
           | EmptyString => s
           end
  | EmptyString => EmptyString
  end.

(** The text is exactly one white space character. *)
Definition whole_space (s : string) : bool :=
  match dropSpace s with
  | Some EmptyString => true
  | _ => false
  end.

(** From the right: once the rest has lost its trailing white space, what
    is left is dropped too if it is a single white space character. *)
Fixpoint trimEnd (s : string) : string :=
  match s with
  | String c r =>
      let t := String c (trimEnd r) in
      if whole_space t then EmptyString else t
  | EmptyString => EmptyString
  end.

Definition trim (s : string) : string := trimEnd (trimStart s).

(** [Math.max] and [Math.min] of two finite numbers. *)
Definition Math_max (a b : Qc) : Qc := if bool_decide (a < b) then b else a.
Definition Math_min (a b : Qc) : Qc := if bool_decide (b < a) then b else a.

(** [!s] for a string: only the empty string is falsy. *)
Definition falsy (s : string) : bool :=
  match s with EmptyString => true | _ => false end.

(** [s.slice(0, n)] for [0 <= n]. *)
Definition slice0 (n : nat) (s : string) : string := substring 0 n s.

(** [a < b] on strings, by code units; on the UTF-8 bytes this is the order
    of the code points, the same order but between a character above U+FFFF
    and one from U+E000 to U+FFFF. *)
Definition str_lt (a b : string) : bool := String.ltb a b.

(** [a <= b] on strings, as a proposition. *)
Definition str_le (a b : string) : Prop := String.compare a b ≠ Gt.

(** [a.localeCompare(b)] as a sign; on the fixed-width digit strings it is
    applied to, collation order is code-unit order. *)
Definition localeCompare (a b : string) : Z :=
  match String.compare a b with Lt => (-1)%Z | Eq => 0%Z | Gt => 1%Z end.

(** [Array.prototype.sort] with a comparator: a stable sort; [x] goes before
    [y] when [cmp x y <= 0]. *)
Section Sort.
Context {A : Type} (cmp : A → A → Z).

Fixpoint insert_sorted (x : A) (l : list A) : list A :=
    match l with
    | [] => [x]
    | y :: r => if (cmp x y <=? 0)%Z then x :: l else y :: insert_sorted x r
    end.

Definition sort (l : list A) : list A := foldr insert_sorted [] l.

  (** [x] may stand before [y] in the result. *)
Definition before (x y : A) : Prop := (cmp x y ≤ 0)%Z.
End Sort.

Section Number.
  (** The platform's conversion of a string to a number. *)
Variable StringToNumber : string → jsnum.

Definition Number (v : jsval) : jsnum :=
    match v with
    | VNum n => n
    | VStr s => StringToNumber s
    end.
End Number.

(** A stand-in for the platform's conversion on the few literals used by the
    examples below. *)
Definition sampleToNumber (s : string) : jsnum :=
  if String.eqb s "0" then JFin 0
  else if String.eqb s "-5" then JFin (Q2Qc (-5))
  else if String.eqb s "30" then JFin (Q2Qc 30)
  else if String.eqb s "12.50" then JFin (Q2Qc (25 # 2))
  else if String.eqb s "Infinity" then JPosInf
  else if String.eqb s "-Infinity" then JNegInf
  else JNaN.

(** [String.prototype.toLowerCase] on the ASCII letters; [addCategory] takes
    the lower-casing of the platform as an input. *)
Definition lower (c : ascii) : ascii :=
  let n := nat_of_ascii c in
  if (Nat.leb 65 n && Nat.leb n 90)%bool then ascii_of_nat (n + 32) else c.

Fixpoint toLowerCase (s : string) : string :=
  match s with
  | String c r => String (lower c) (toLowerCase r)
  | EmptyString => EmptyString
  end.

(** The value found under a name of an object that maps names to numbers:
    a number, or something that is not one (a function, an object, or the
    text that [+] makes of these). *)
Inductive jsprop :=
  | PNum (q : Qc)
  | PJunk.

(** The members that every object inherits from [Object.prototype], which
    are functions, and ["__proto__"], an accessor that gives the prototype
    and whose setter ignores a value that is neither an object nor [null]. *)
Definition protoMembers : list string :=
  ["constructor"; "hasOwnProperty"; "isPrototypeOf"; "propertyIsEnumerable";
   "toLocaleString"; "toString"; "valueOf"; "__defineGetter__";
   "__defineSetter__"; "__lookupGetter__"; "__lookupSetter__"].

Definition inherited (k : string) : bool :=
  bool_decide (k = "__proto__" ∨ k ∈ protoMembers).

(** An array index: the decimal numeral, without leading zero, of an integer
    from 0 to 2^32 - 2. *)
Definition digitVal (c : ascii) : option N :=
  let n := N_of_ascii c in
  if ((48 <=? n) && (n <=? 57))%N then Some (n - 48)%N else None.

Fixpoint digitsVal (s : string) (acc : N) : option N :=
  match s with
  | EmptyString => Some acc
  | String c r =>
      match digitVal c with
      | Some d => digitsVal r (acc * 10 + d)%N
      | None => None
      end
  end.

Definition arrayIndex (k : string) : option N :=
  match k with
  | EmptyString => None
  | String c r =>
      if (byte_is c 48 && negb (falsy r))%bool then None
      else match digitsVal k 0 with
           | Some n => if (n <=? 4294967294)%N then Some n else None
           | None => None
           end
  end.

(** [Object.entries(o)] for an object given by its own properties in the
    order of their creation: the array indices first, in ascending order,
    then the other names as created. *)
Definition indexOrder {V : Type} (p q : string * V) : Z :=
  (Z.of_N (default 0%N (arrayIndex p.1))
   - Z.of_N (default 0%N (arrayIndex q.1)))%Z.

Definition Object_entries {V : Type} (o : list (string * V))
    : list (string * V) :=
  (sort indexOrder (filter (λ p, arrayIndex p.1 ≠ None) o)
   ++ filter (λ p, arrayIndex p.1 = None) o)%list.

(** The entries whose value is a number. *)
Fixpoint numbers (o : list (string * jsprop)) : list (string * Qc) :=
  match o with
  | [] => []
  | (k, PNum q) :: r => (k, q) :: numbers r
  | (_, PJunk) :: r => numbers r
  end.

(** [x + y] on doubles: the exact sum, rounded by [rnd] to a double. *)
Definition fadd (rnd : Qc → Qc) (x y : Qc) : Qc := rnd (x + y).

End JS.

Import JS.

(** [YYYY-MM] of a [YYYY-MM-DD] date: [dateISO.slice(0, 7)]. *)
Definition monthFromDate (dateISO : string) : string := slice0 7 dateISO.

(** [String(n).padStart(2, "0")] for a number that prints with at least one
    digit, and [String(n)] itself as the decimal numeral of [n]. *)
Definition pad2 (s : string) : string :=
  match String.length s with
  | 0%nat => "00"
  | 1%nat => "0" ++ s
  | _ => s
  end.

(** [todayISO()] and [thisMonthISO()], as functions of what the clock gives:
    [getFullYear()], [getMonth()] (from 0) and [getDate()]. *)
Definition todayISO (fullYear month0 day : N) : string :=
  pretty fullYear ++ "-" ++ pad2 (pretty (month0 + 1)%N) ++ "-"
  ++ pad2 (pretty day).

Definition thisMonthISO (fullYear month0 : N) : string :=
  pretty fullYear ++ "-" ++ pad2 (pretty (month0 + 1)%N).

(** The closed [Category] union and the [CATEGORIES] array, declared with the
    same text by [Flat] and [ByMonth]. *)
Inductive Category :=
  | Fun | Bill | Subscription | Hygiene | Gas | Car | Supplements | Beer
  | Food | Other.

Global Instance Category_eq_dec : EqDecision Category.
Proof. solve_decision. Defined.

Definition CATEGORIES : list Category :=
  [Fun; Bill; Subscription; Hygiene; Gas; Car; Supplements; Beer; Food; Other].

(** [Record<Category, number>] seeded with [0] for every category, and the
    loop [for (const e of entries) map[e.category] += e.amount]. *)
Definition zeroTotals : Category → Qc := λ _, 0.

Definition addTo (map : Category → Qc) (c : Category) (a : Qc) : Category → Qc :=
  λ c', if decide (c' = c) then map c' + a else map c'.

(** ** [Flat]: one list of entries with a stored month ([src/App.tsx]) *)

Module Flat.

Record Entry := mkEntry {
  id : string;
  month : string;
  date : string;
  amount : Qc;
  category : Category;
  location : string;
  what : string;
}.

(** The edit draft is typed as an [Entry], but its [amount] becomes the text
    of the input once the user types in it. *)
Record Draft := mkDraft {
  d_id : string;
  d_month : string;
  d_date : string;
  d_amount : jsval;
  d_category : Category;
  d_location : string;
  d_what : string;
}.

Definition draft_of (e : Entry) : Draft :=
  mkDraft (id e) (month e) (date e) (VNum (JFin (amount e))) (category e)
          (location e) (what e).

Record State := mkState {
  allEntries : list Entry;
  s_month : string;
  f_date : string;
  f_amount : string;
  f_category : Category;
  f_location : string;
  f_what : string;
  editingId : option string;
  editDraft : option Draft;
}.

Definition set_entries (l : list Entry) (st : State) : State :=
  mkState l (s_month st) (f_date st) (f_amount st) (f_category st)
          (f_location st) (f_what st) (editingId st) (editDraft st).

Definition set_edit (i : option string) (d : option Draft) (st : State) : State :=
  mkState (allEntries st) (s_month st) (f_date st) (f_amount st)
          (f_category st) (f_location st) (f_what st) i d.

Definition idle (st : State) : State := set_edit None None st.

(** [setMonth] followed by the effect on [month]: when the form date is not in
    the new month it becomes the first day of that month.  Nothing else is
    touched. *)
Definition setMonth (m : string) (st : State) : State :=
  if decide (m = s_month st) then st
  else
    let d := if decide (monthFromDate (f_date st) = m) then f_date st
             else m ++ "-01" in
    mkState (allEntries st) m d (f_amount st) (f_category st)
            (f_location st) (f_what st) (editingId st) (editDraft st).

Definition monthEntriesOf (m : string) (l : list Entry) : list Entry :=
  JS.sort (λ a b, localeCompare (date b) (date a))
          (filter (λ e, month e = m) l).

Definition monthEntries (st : State) : list Entry :=
  monthEntriesOf (s_month st) (allEntries st).

Definition monthTotal (st : State) : Qc :=
  foldl (λ sum e, sum + amount e) 0 (monthEntries st).

Definition categoryTotalsOf (l : list Entry) : Category → Qc :=
  foldl (λ map e, addTo map (category e) (amount e)) zeroTotals l.

Definition categoryTotals (st : State) : Category → Qc :=
  categoryTotalsOf (monthEntries st).

(** The loop of [biggestCategory]; the result is the pair that the source
    formats as ["best (amount)"], or [None] for the dash. *)
Definition biggest_step (totals : Category → Qc)
    (acc : option Category * Qc) (c : Category) : option Category * Qc :=
  let v := totals c in
  if bool_decide (acc.2 < v) then (Some c, v) else acc.

Definition biggestOf (totals : Category → Qc) : option (Category * Qc) :=
  let '(best, bestVal) := foldl (biggest_step totals) (None, 0) CATEGORIES in
  match best with
  | Some c => Some (c, bestVal)
  | None => None
  end.

Definition biggestCategory (st : State) : option (Category * Qc) :=
  biggestOf (categoryTotals st).

Section Handlers.
Variable StringToNumber : string → jsnum.

Definition addExpense (uuid : string) (st : State) : State :=
    let amt := Number StringToNumber (VStr (f_amount st)) in
    if (negb (isFinite amt) || le0 amt)%bool then st
    else if falsy (trim (f_what st)) then st
    else
      match amt with
      | JFin a =>
          let entry := mkEntry uuid (s_month st) (f_date st) a (f_category st)
                               (trim (f_location st)) (trim (f_what st)) in
          mkState (entry :: allEntries st) (s_month st) (f_date st) ""
                  Fun "" "" (editingId st) (editDraft st)
      | _ => st
      end.

Definition deleteEntry (i : string) (st : State) : State :=
    let st' := set_entries (filter (λ e, id e ≠ i) (allEntries st)) st in
    if decide (editingId st = Some i) then idle st' else st'.

Definition startEdit (e : Entry) (st : State) : State :=
    set_edit (Some (id e)) (Some (draft_of e)) st.

Definition cancelEdit (st : State) : State := idle st.

(** The date input of the row being edited:
    [setEditDraft((d) => (d ? { ...d, date: v } : d))]. *)
Definition changeDraftDate (v : string) (st : State) : State :=
  set_edit (editingId st)
    (match editDraft st with
     | Some d => Some (mkDraft (d_id d) (d_month d) v (d_amount d)
                               (d_category d) (d_location d) (d_what d))
     | None => None
     end) st.

  (** The entry written by [saveEdit]: the draft, with the month of the view,
      the date cut to ten characters and the text fields trimmed. *)
Definition updated (st : State) (d : Draft) (amt : Qc) : Entry :=
    mkEntry (d_id d) (s_month st) (slice0 10 (d_date d)) amt (d_category d)
            (trim (d_location d)) (trim (d_what d)).

Definition saveEdit (st : State) : State :=
    match editDraft st, editingId st with
    | Some d, Some eid =>
        if falsy eid then st
        else
          let amt := Number StringToNumber (d_amount d) in
          if (negb (isFinite amt) || le0 amt)%bool then st
          else if falsy (trim (d_what d)) then st
          else
            match amt with
            | JFin a =>
                idle (set_entries
                        (map (λ x, if decide (id x = eid) then updated st d a
                                   else x) (allEntries st)) st)
            | _ => st
            end
    | _, _ => st
    end.

Definition clearMonth (st : State) : State :=
    idle (set_entries (filter (λ e, month e ≠ s_month st) (allEntries st)) st).

Definition clearAll (st : State) : State := idle (set_entries [] st).
End Handlers.

(** The inputs of the add form. *)
Definition setDate (v : string) (st : State) : State :=
  mkState (allEntries st) (s_month st) v (f_amount st) (f_category st)
          (f_location st) (f_what st) (editingId st) (editDraft st).

Definition setAmount (v : string) (st : State) : State :=
  mkState (allEntries st) (s_month st) (f_date st) v (f_category st)
          (f_location st) (f_what st) (editingId st) (editDraft st).

Definition setCategory (v : Category) (st : State) : State :=
  mkState (allEntries st) (s_month st) (f_date st) (f_amount st) v
          (f_location st) (f_what st) (editingId st) (editDraft st).

Definition setLocation (v : string) (st : State) : State :=
  mkState (allEntries st) (s_month st) (f_date st) (f_amount st)
          (f_category st) v (f_what st) (editingId st) (editDraft st).

Definition setWhat (v : string) (st : State) : State :=
  mkState (allEntries st) (s_month st) (f_date st) (f_amount st)
          (f_category st) (f_location st) v (editingId st) (editDraft st).

(** The other inputs of the row being edited; each one is
    [setEditDraft((d) => (d ? { ...d, field: v } : d))]. *)
Definition changeDraft (f : Draft → Draft) (st : State) : State :=
  set_edit (editingId st)
    (match editDraft st with Some d => Some (f d) | None => None end) st.

Definition changeDraftWhat (v : string) : State → State :=
  changeDraft (λ d, mkDraft (d_id d) (d_month d) (d_date d) (d_amount d)
                            (d_category d) (d_location d) v).

Definition changeDraftLocation (v : string) : State → State :=
  changeDraft (λ d, mkDraft (d_id d) (d_month d) (d_date d) (d_amount d)
                            (d_category d) v (d_what d)).

Definition changeDraftCategory (v : Category) : State → State :=
  changeDraft (λ d, mkDraft (d_id d) (d_month d) (d_date d) (d_amount d)
                            v (d_location d) (d_what d)).

Definition changeDraftAmount (v : string) : State → State :=
  changeDraft (λ d, mkDraft (d_id d) (d_month d) (d_date d) (VStr v)
                            (d_category d) (d_location d) (d_what d)).

End Flat.

(** ** [ByMonth]: a record of expense arrays keyed by month *)

Module ByMonth.

Record Expense := mkExpense {
  id : string;
  date : string;
  amount : Qc;
  location : string;
  what : string;
  category : Category;
}.

Record State := mkState {
  s_month : string;
  data : gmap string (list Expense);
  f_date : string;
  f_amount : string;
  f_location : string;
  f_what : string;
  f_category : Category;
}.

Definition monthKeyFromDate (dateISO : string) : string := slice0 7 dateISO.

Definition set_data (d : gmap string (list Expense)) (st : State) : State :=
  mkState (s_month st) d (f_date st) (f_amount st) (f_location st)
          (f_what st) (f_category st).

(** [data[month] ?? []] *)
Definition expensesOf (m : string) (d : gmap string (list Expense)) : list Expense :=
  default [] (d !! m).

Definition expensesThisMonth (st : State) : list Expense :=
  expensesOf (s_month st) (data st).

(** [setMonth] and the effect on [month]. *)
Definition setMonth (m : string) (st : State) : State :=
  if decide (m = s_month st) then st
  else
    let d := if (negb (falsy m) && bool_decide (slice0 7 (f_date st) ≠ m))%bool
             then m ++ "-01" else f_date st in
    mkState m (data st) d (f_amount st) (f_location st) (f_what st)
            (f_category st).

Definition totalsOf (l : list Expense) : Category → Qc :=
  foldl (λ totals e, addTo totals (category e) (amount e)) zeroTotals l.

Definition totalsByCategory (st : State) : Category → Qc :=
  totalsOf (expensesThisMonth st).

Definition monthTotal (st : State) : Qc :=
  foldl (λ sum e, sum + amount e) 0 (expensesThisMonth st).

(** The comparator of [sortedExpenses]: newest first, then larger id first. *)
Definition newestFirst (a b : Expense) : Z :=
  if decide (date a ≠ date b) then (if str_lt (date a) (date b) then 1 else -1)%Z
  else (if str_lt (id a) (id b) then 1 else -1)%Z.

Definition sortedOf (l : list Expense) : list Expense := JS.sort newestFirst l.

Definition sortedExpenses (st : State) : list Expense :=
  sortedOf (expensesThisMonth st).

Section Handlers.
Variable StringToNumber : string → jsnum.

Definition addExpense (uuid : string) (st : State) : State :=
    let trimmedLocation := trim (f_location st) in
    let trimmedWhat := trim (f_what st) in
    let num := Number StringToNumber (VStr (f_amount st)) in
    if falsy (f_date st) then st
    else if (negb (isFinite num) || le0 num)%bool then st
    else if falsy trimmedWhat then st
    else
      match num with
      | JFin a =>
          let expense := mkExpense uuid (f_date st) a trimmedLocation
                                   trimmedWhat (f_category st) in
          let key := monthKeyFromDate (f_date st) in
          let arr := (expensesOf key (data st) ++ [expense])%list in
          mkState (s_month st) (<[key := arr]> (data st)) (f_date st) "" ""
                  "" Fun
      | _ => st
      end.

Definition removeExpense (i : string) (st : State) : State :=
    let kept := filter (λ e, id e ≠ i) (expensesThisMonth st) in
    match kept with
    | [] => set_data (delete (s_month st) (data st)) st
    | _ => set_data (<[s_month st := kept]> (data st)) st
    end.

  (** [ok] is the answer to the [confirm] prompt. *)
Definition clearMonth (ok : bool) (st : State) : State :=
    if ok then set_data (delete (s_month st) (data st)) st else st.

Definition clearAll (ok : bool) (st : State) : State :=
    if ok then set_data ∅ st else st.
End Handlers.

(** The inputs of the add form. *)
Definition setDate (v : string) (st : State) : State :=
  mkState (s_month st) (data st) v (f_amount st) (f_location st) (f_what st)
          (f_category st).

Definition setAmount (v : string) (st : State) : State :=
  mkState (s_month st) (data st) (f_date st) v (f_location st) (f_what st)
          (f_category st).

Definition setLocation (v : string) (st : State) : State :=
  mkState (s_month st) (data st) (f_date st) (f_amount st) v (f_what st)
          (f_category st).

Definition setWhat (v : string) (st : State) : State :=
  mkState (s_month st) (data st) (f_date st) (f_amount st) (f_location st) v
          (f_category st).

Definition setCategory (v : Category) (st : State) : State :=
  mkState (s_month st) (data st) (f_date st) (f_amount st) (f_location st)
          (f_what st) v.

End ByMonth.

(** ** [Tracker]: categories, budgets and one stored record per month *)

Module Tracker.

Record Entry := mkEntry {
  id : string;
  date : string;
  amount : Qc;
  category : string;
  what : string;
}.

Definition DEFAULT_CATEGORIES : list string :=
  ["Fun"; "Bills"; "Subscriptions"; "Hygiene"; "Gas"; "Car"; "Supplements";
   "Food"; "Other"].

(** [localStorage], by logical record: [spendTracker:categories],
    [spendTracker:entries:<monthKey>] and [spendTracker:budgets:<monthKey>].
    A record holds the value that [JSON.parse] and the shape filter of the
    loader give back for what the application wrote. *)
Record Storage := mkStorage {
  st_categories : option (list string);
  st_entries : gmap string (list Entry);
  st_budgets : gmap string (gmap string Qc);
}.

(** The component state (the two panel toggles, which no handler below reads,
    are left out) together with the storage it writes through to. *)
Record State := mkState {
  monthValue : string;
  categories : list string;
  budgets : gmap string Qc;
  entries : list Entry;
  newCategory : string;
  formDate : string;
  formAmount : string;
  formCategory : string;
  formWhat : string;
  editingId : option string;
  storage : Storage;
}.

Definition monthKeyFromMonthInput (monthValue : string) : string := monthValue.

Definition monthKey (st : State) : string :=
  monthKeyFromMonthInput (monthValue st).

Definition clamp (n min max : Qc) : Qc := Math_max min (Math_min max n).

(** *** Effects *)

(** Effect on [categories]: store the list; a form category that is no longer
    listed falls back to the first category, or to ["Other"]. *)
Definition effCategories (st : State) : State :=
  mkState (monthValue st) (categories st) (budgets st) (entries st)
    (newCategory st) (formDate st) (formAmount st)
    (if bool_decide (formCategory st ∈ categories st) then formCategory st
     else default "Other" (head (categories st)))
    (formWhat st) (editingId st)
    (mkStorage (Some (categories st)) (st_entries (storage st))
               (st_budgets (storage st))).

(** Effect on [entries, monthKey]. *)
Definition effEntries (st : State) : State :=
  mkState (monthValue st) (categories st) (budgets st) (entries st)
    (newCategory st) (formDate st) (formAmount st) (formCategory st)
    (formWhat st) (editingId st)
    (mkStorage (st_categories (storage st))
               (<[monthKey st := entries st]> (st_entries (storage st)))
               (st_budgets (storage st))).

(** Effect on [budgets, monthKey]. *)
Definition effBudgets (st : State) : State :=
  mkState (monthValue st) (categories st) (budgets st) (entries st)
    (newCategory st) (formDate st) (formAmount st) (formCategory st)
    (formWhat st) (editingId st)
    (mkStorage (st_categories (storage st)) (st_entries (storage st))
               (<[monthKey st := budgets st]> (st_budgets (storage st)))).

(** [setMonthValue] and the effects on [monthKey].  The load effect reads the
    records of the new month, resets the edit state and the form; the two
    persist effects of the same commit still see the entries and budgets of
    the month that was left, and run again once the loaded values are set.
    The loop [cleaned[k] = v] over the loaded budgets copies each of them
    into a fresh object, but for a budget stored under ["__proto__"], whose
    assignment stores nothing. *)
Definition cleanBudgets (loaded : gmap string Qc) : gmap string Qc :=
  delete "__proto__" loaded.

Definition setMonthValue (today : string) (v : string) (st : State) : State :=
  if decide (v = monthValue st) then st
  else
    let loadedEntries := default [] (st_entries (storage st) !! v) in
    let cleaned := cleanBudgets (default ∅ (st_budgets (storage st) !! v)) in
    let stale :=
      mkStorage (st_categories (storage st))
                (<[v := entries st]> (st_entries (storage st)))
                (<[v := budgets st]> (st_budgets (storage st))) in
    effBudgets (effEntries
      (mkState v (categories st) cleaned loadedEntries (newCategory st)
               today "" (formCategory st) "" None stale)).

(** *** Derived values *)

(** [categoryTotals]: an object filled key by key from [{}], given by its
    own properties in the order of their creation.  Reading a name that the
    object does not own finds what [Object.prototype] has under it; [??]
    keeps such a value and [+] makes text of it, which is then stored, but
    for ["__proto__"], where the assignment stores nothing.  [add] is the
    addition of numbers. *)
Section Totals.
Variable add : Qc → Qc → Qc.

Definition addNumber (v : jsprop) (a : Qc) : jsprop :=
  match v with
  | PNum q => PNum (add q a)
  | PJunk => PJunk
  end.

Fixpoint bump (k : string) (a : Qc) (totals : list (string * jsprop))
    : list (string * jsprop) :=
  match totals with
  | [] => []
  | (k', v) :: r =>
      if decide (k' = k) then (k', addNumber v a) :: r
      else (k', v) :: bump k a r
  end.

Definition accumulateWith (k : string) (a : Qc) (totals : list (string * jsprop))
    : list (string * jsprop) :=
  if bool_decide (k ∈ map fst totals) then bump k a totals
  else if decide (k = "__proto__") then totals
  else if bool_decide (k ∈ protoMembers) then (totals ++ [(k, PJunk)])%list
  else (totals ++ [(k, PNum (add 0 a))])%list.

Definition categoryTotalsOfWith (l : list Entry) : list (string * jsprop) :=
  foldl (λ totals e, accumulateWith (category e) (amount e) totals) [] l.

Definition monthTotalOfWith (l : list Entry) : Qc :=
  foldl (λ sum e, add sum (amount e)) 0 l.
End Totals.

Definition accumulate := accumulateWith Qcplus.

Definition categoryTotalsOf (l : list Entry) : list (string * jsprop) :=
  categoryTotalsOfWith Qcplus l.

Definition categoryTotals (st : State) : list (string * jsprop) :=
  categoryTotalsOf (entries st).

(** [totals[cat] ?? 0] *)
Fixpoint ownProp (cat : string) (totals : list (string * jsprop))
    : option jsprop :=
  match totals with
  | [] => None
  | (k, v) :: r => if decide (k = cat) then Some v else ownProp cat r
  end.

Definition totalOf (cat : string) (totals : list (string * jsprop)) : jsprop :=
  match ownProp cat totals with
  | Some v => v
  | None => if inherited cat then PJunk else PNum 0
  end.

Definition monthTotalOf (l : list Entry) : Qc :=
  foldl (λ sum e, sum + amount e) 0 l.

Definition monthTotal (st : State) : Qc := monthTotalOf (entries st).

Inductive Biggest :=
  | NoWinner
  | Winner (cat : string) (total : Qc).

Definition biggestOf (totals : list (string * Qc)) : Biggest :=
  let '(bestCat, bestVal) :=
    foldl (λ (acc : string * Qc) (p : string * Qc),
             if bool_decide (acc.2 < p.2) then (p.1, p.2) else acc)
          ("—", 0) totals in
  if bool_decide (bestVal ≤ 0) then NoWinner else Winner bestCat bestVal.

(** A value that is not a number never wins the comparison
    [total > bestVal], so the loop may skip it. *)
Definition biggestCategory (st : State) : Biggest :=
  biggestOf (numbers (Object_entries (categoryTotals st))).

(** The table sort [(a, b) => (a.date < b.date ? 1 : -1)]. *)
Definition byDateDesc (a b : Entry) : Z :=
  if str_lt (date a) (date b) then 1%Z else (-1)%Z.

(** The rows of the table: [entries.slice().sort(...)] with that comparator.
    It never answers 0, so the order in which an engine leaves two entries of
    one date is its own; the sort below keeps them as stored. *)
Definition tableRows (st : State) : list Entry :=
  JS.sort byDateDesc (entries st).

(** The comparator of [sort()] without argument. *)
Definition defaultCompare (a b : string) : Z :=
  if str_lt a b then (-1)%Z else if str_lt b a then 1%Z else 0%Z.

(** *** Budget progress of one category card *)

Inductive Label :=
  | Percent (n : Z)
  | NoBudget.

Record Progress := mkProgress {
  p_spent : Qc;
  p_budget : Qc;
  p_pct : Qc;
  p_remaining : Qc;
  p_over : bool;
  p_label : Label;
}.

(** [Math.round]: the nearest integer, halves going up. *)
Definition Math_round (x : Qc) : Z := Qfloor (x + Q2Qc (1 # 2)).

Definition progress (spent budget : Qc) : Progress :=
  let pct := if bool_decide (0 < budget)
             then clamp (spent / budget * Q2Qc 100) 0 (Q2Qc 999) else 0 in
  let remaining := budget - spent in
  let over := (bool_decide (0 < budget) && bool_decide (remaining < 0))%bool in
  mkProgress spent budget pct remaining over
    (if bool_decide (0 < budget)
     then Percent (Math_round (clamp pct 0 (Q2Qc 999))) else NoBudget).

(** *** Actions *)

(** [ok] is the answer to the [confirm] prompt. *)
Definition clearMonth (ok : bool) (st : State) : State :=
  if ok then
    effBudgets (effEntries
      (mkState (monthValue st) (categories st) ∅ [] (newCategory st)
         (formDate st) (formAmount st) (formCategory st) (formWhat st)
         (editingId st)
         (mkStorage (st_categories (storage st))
                    (delete (monthKey st) (st_entries (storage st)))
                    (delete (monthKey st) (st_budgets (storage st))))))
  else st.

(** [amountText] is [String(e.amount)]. *)
Definition startEdit (e : Entry) (amountText : string) (st : State) : State :=
  mkState (monthValue st) (categories st) (budgets st) (entries st)
    (newCategory st) (date e) amountText (category e) (what e)
    (Some (id e)) (storage st).

Definition cancelEdit (today : string) (st : State) : State :=
  mkState (monthValue st) (categories st) (budgets st) (entries st)
    (newCategory st) today "" (formCategory st) "" None (storage st).

(** The date input of the form: [setFormDate(v)]. *)
Definition setFormDate (v : string) (st : State) : State :=
  mkState (monthValue st) (categories st) (budgets st) (entries st)
    (newCategory st) v (formAmount st) (formCategory st) (formWhat st)
    (editingId st) (storage st).

Definition deleteEntry (ok : bool) (i : string) (st : State) : State :=
  if ok then
    effEntries
      (mkState (monthValue st) (categories st) (budgets st)
         (filter (λ e, id e ≠ i) (entries st)) (newCategory st) (formDate st)
         (formAmount st) (formCategory st) (formWhat st) (editingId st)
         (storage st))
  else st.

Definition removeCategory (ok : bool) (name : string) (st : State) : State :=
  if ok then
    effBudgets (effCategories
      (mkState (monthValue st)
         (filter (λ c, c ≠ name) (categories st))
         (delete name (budgets st))
         (entries st) (newCategory st) (formDate st) (formAmount st)
         (if decide (formCategory st = name)
          then default "Other" (head (filter (λ c, c ≠ name) (categories st)))
          else formCategory st)
         (formWhat st) (editingId st) (storage st)))
  else st.

Section Handlers.
Variable StringToNumber : string → jsnum.

Definition setBudget (cat value : string) (st : State) : State :=
    let n := Number StringToNumber (VStr value) in
    let b := match n with
             | JFin q => if bool_decide (0 ≤ q) then q else 0
             | _ => 0
             end in
    effBudgets
      (mkState (monthValue st) (categories st) (<[cat := b]> (budgets st))
         (entries st) (newCategory st) (formDate st) (formAmount st)
         (formCategory st) (formWhat st) (editingId st) (storage st)).

  (** [okAdd] answers the prompt shown when the form category is not listed;
      [uuid] is the identifier drawn for a new entry.  The comparator that
      sorts the new list never answers 0, so where an engine leaves entries
      of one date is its own; the stable sort used here is one such choice,
      and what is proved of the new list does not depend on it. *)
Definition addOrUpdateExpense (okAdd : bool) (uuid : string) (st : State)
      : State :=
    let amt := Number StringToNumber (VStr (formAmount st)) in
    if (negb (isFinite amt) || le0 amt)%bool then st
    else if falsy (trim (formWhat st)) then st
    else if falsy (trim (formCategory st)) then st
    else if falsy (formDate st) then st
    else if (negb (bool_decide (formCategory st ∈ categories st))
             && negb okAdd)%bool then st
    else
      match amt with
      | JFin a =>
          let cats :=
            if bool_decide (formCategory st ∈ categories st) then categories st
            else JS.sort defaultCompare
                   (categories st ++ [formCategory st])%list in
          let editing :=
            match editingId st with
            | Some eid => if falsy eid then None else Some eid
            | None => None
            end in
          let ents :=
            match editing with
            | Some eid =>
                map (λ e, if decide (id e = eid)
                          then mkEntry (id e) (formDate st) a (formCategory st)
                                       (trim (formWhat st))
                          else e) (entries st)
            | None =>
                JS.sort byDateDesc
                  (mkEntry uuid (formDate st) a (formCategory st)
                           (trim (formWhat st)) :: entries st)
            end in
          let eid' :=
            match editing with
            | Some _ => None
            | None => editingId st
            end in
          let st' :=
            mkState (monthValue st) cats (budgets st) ents (newCategory st)
              (formDate st) "" (formCategory st) "" eid' (storage st) in
          effEntries
            (if bool_decide (formCategory st ∈ categories st) then st'
             else effCategories st')
      | _ => st
      end.
End Handlers.

(** The other inputs of the forms. *)
Definition setNewCategory (v : string) (st : State) : State :=
  mkState (monthValue st) (categories st) (budgets st) (entries st) v
    (formDate st) (formAmount st) (formCategory st) (formWhat st)
    (editingId st) (storage st).

Definition setFormAmount (v : string) (st : State) : State :=
  mkState (monthValue st) (categories st) (budgets st) (entries st)
    (newCategory st) (formDate st) v (formCategory st) (formWhat st)
    (editingId st) (storage st).

Definition setFormCategory (v : string) (st : State) : State :=
  mkState (monthValue st) (categories st) (budgets st) (entries st)
    (newCategory st) (formDate st) (formAmount st) v (formWhat st)
    (editingId st) (storage st).

Definition setFormWhat (v : string) (st : State) : State :=
  mkState (monthValue st) (categories st) (budgets st) (entries st)
    (newCategory st) (formDate st) (formAmount st) (formCategory st) v
    (editingId st) (storage st).

(** [addCategory]: the trimmed name is refused when it is empty or when a
    listed category equals it once both are lower-cased; otherwise the list
    is extended and sorted, and the input is cleared.  [toLower] is the
    platform's [String.prototype.toLowerCase]. *)
Definition addCategory (toLower : string → string) (st : State) : State :=
  let name := trim (newCategory st) in
  if falsy name then st
  else if existsb (λ c, bool_decide (toLower c = toLower name))
                  (categories st) then st
  else
    effCategories
      (mkState (monthValue st)
         (JS.sort defaultCompare (categories st ++ [name])%list)
         (budgets st) (entries st) "" (formDate st) (formAmount st)
         (formCategory st) (formWhat st) (editingId st) (storage st)).

(** The initializer of [categories]: the stored names, trimmed, blanks
    dropped; the default list when nothing is left. *)
Definition loadCategories (saved : option (list string)) : list string :=
  let normalized := filter (λ s, s ≠ "") (map trim (default [] saved)) in
  match normalized with
  | [] => DEFAULT_CATEGORIES
  | _ => normalized
  end.

(** The first render over a given storage followed by the effects of the
    mount: [thisMonth] is [thisMonthISO()] and [today] is [todayISO()]. *)
Definition init (today thisMonth : string) (store : Storage) : State :=
  let st1 :=
    effCategories
      (mkState thisMonth (loadCategories (st_categories store)) ∅ [] ""
         today "" (default "" (head DEFAULT_CATEGORIES)) "" None store) in
  let loadedEntries := default [] (st_entries (storage st1) !! thisMonth) in
  let cleaned :=
    cleanBudgets (default ∅ (st_budgets (storage st1) !! thisMonth)) in
  let stale :=
    mkStorage (st_categories (storage st1))
              (<[thisMonth := entries st1]> (st_entries (storage st1)))
              (<[thisMonth := budgets st1]> (st_budgets (storage st1))) in
  effBudgets (effEntries
    (mkState thisMonth (categories st1) cleaned loadedEntries ""
             today "" (formCategory st1) "" None stale)).

(** [clearAll]: every record of the application is removed, then the state is
    reset.  [sameArray] tells that [categories] already is the
    [DEFAULT_CATEGORIES] array itself, in which case the effect on
    [categories] does not run again. *)
Definition clearAll (ok : bool) (today thisMonth : string) (sameArray : bool)
    (st : State) : State :=
  if ok then
    let st1 :=
      mkState thisMonth DEFAULT_CATEGORIES ∅ [] (newCategory st) today ""
        (formCategory st) "" None (mkStorage None ∅ ∅) in
    effBudgets (effEntries (if sameArray then st1 else effCategories st1))
  else st.

End Tracker.

(** ** The sums in double arithmetic

    Each [+] of the code gives the exact sum rounded to a double.  The sums
    of the three variants are given here once more with [fadd rnd] for [+],
    for the rounding [rnd] of the platform; the definitions above are these
    with nothing rounded. *)

Module Rounded.
Section Rounded.
Variable rnd : Qc → Qc.

Definition addTo (map : Category → Qc) (c : Category) (a : Qc) : Category → Qc :=
  λ c', if decide (c' = c) then fadd rnd (map c') a else map c'.

Definition flatMonthTotal (st : Flat.State) : Qc :=
  foldl (λ sum e, fadd rnd sum (Flat.amount e)) 0 (Flat.monthEntries st).

Definition flatCategoryTotals (st : Flat.State) : Category → Qc :=
  foldl (λ map e, addTo map (Flat.category e) (Flat.amount e)) zeroTotals
        (Flat.monthEntries st).

Definition byMonthTotal (st : ByMonth.State) : Qc :=
  foldl (λ sum e, fadd rnd sum (ByMonth.amount e)) 0
        (ByMonth.expensesThisMonth st).

Definition byMonthTotals (st : ByMonth.State) : Category → Qc :=
  foldl (λ totals e, addTo totals (ByMonth.category e) (ByMonth.amount e))
        zeroTotals (ByMonth.expensesThisMonth st).

Definition trackerMonthTotal (st : Tracker.State) : Qc :=
  Tracker.monthTotalOfWith (fadd rnd) (Tracker.entries st).

Definition trackerCategoryTotals (st : Tracker.State)
    : list (string * jsprop) :=
  Tracker.categoryTotalsOfWith (fadd rnd) (Tracker.entries st).

(** The sum of a list of numbers as a [reduce] from 0 computes it. *)
Definition sum (l : list Qc) : Qc := foldl (fadd rnd) 0 l.
End Rounded.
End Rounded.

(** The nearest double of a rational, ties going to the even significand:
    the value is scaled by a power of two to bring it between 2^52 and 2^53,
    rounded to an integer, and scaled back.  (The range of the exponent is
    not bounded: amounts are far from the subnormal doubles and from
    overflow.) *)
Definition scaled (a d e : Z) : Z * Z :=
  if (0 <=? e)%Z then (a, d * 2 ^ e)%Z else (a * 2 ^ (- e), d)%Z.

Definition round53 (q : Qc) : Qc :=
  let n := Qnum q in
  let d := Zpos (Qden q) in
  if (n =? 0)%Z then q
  else
    let a := Z.abs n in
    let e0 := (Z.log2 a - Z.log2 d - 52)%Z in
    let e := if (fst (scaled a d e0) / snd (scaled a d e0) <? 2 ^ 52)%Z
             then (e0 - 1)%Z else e0 in
    let '(num, den) := scaled a d e in
    let m0 := (num / den)%Z in
    let r := (num mod den)%Z in
    let m := if (2 * r <? den)%Z then m0
             else if (den <? 2 * r)%Z then (m0 + 1)%Z
             else if Z.even m0 then m0 else (m0 + 1)%Z in
    if (0 <=? e)%Z then Q2Qc (inject_Z (Z.sgn n * m * 2 ^ e))
    else Q2Qc (Qmake (Z.sgn n * m) (Z.to_pos (2 ^ (- e)))).

(** ** Vocabulary of the properties *)

(** The amount parses to a finite number strictly greater than 0. *)
Definition accepted (n : jsnum) : Prop := ∃ q, n = JFin q ∧ 0 < q.

Definition sumQc (l : list Qc) : Qc := foldr Qcplus 0 l.

(** No sum of some of the amounts is rounded. *)
Definition exactSums (rnd : Qc → Qc) (amounts : list Qc) : Prop :=
  ∀ l, sublist l amounts → rnd (sumQc l) = sumQc l.

Fixpoint sublists {A : Type} (l : list A) : list (list A) :=
  match l with
  | [] => [[]]
  | x :: r => (sublists r ++ map (cons x) (sublists r))%list
  end.

(** The value under a name that objects inherit is never a number; the
    value under any other name is one. *)
Definition wellSorted (p : string * jsprop) : Prop :=
  if inherited p.1 then p.2 = PJunk else ∃ q, p.2 = PNum q.

(** The sum of a totals record over a list of categories. *)
Definition sumOver (cats : list Category) (totals : Category → Qc) : Qc :=
  sumQc (map totals cats).

(** One step of a scan for the first maximum: the shape shared by the two
    [biggestCategory] loops. *)
Definition pick {A B : Type} (tag : A → B) (val : A → Qc)
    (acc : B * Qc) (x : A) : B * Qc :=
  if bool_decide (acc.2 < val x) then (tag x, val x) else acc.

(** The text of each member of the [Category] union. *)
Definition categoryName (c : Category) : string :=
  match c with
  | Fun => "Fun" | Bill => "Bill" | Subscription => "Subscription"
  | Hygiene => "Hygiene" | Gas => "Gas" | Car => "Car"
  | Supplements => "Supplements" | Beer => "Beer" | Food => "Food"
  | Other => "Other"
  end.

(** Ties resolved towards the category whose name comes first. *)
Definition lexTieBreak (st : Flat.State) : Prop :=
  ∀ c v, Flat.biggestCategory st = Some (c, v) →
    ∀ c', Flat.categoryTotals st c' = v →
      str_le (categoryName c) (categoryName c').

(** The view of an entry follows its date: the entry with identifier [eid]
    is listed in the month of its date. *)
Definition monthFollowsDate (st : Flat.State) (eid : string) : Prop :=
  ∀ x, x ∈ Flat.allEntries st → Flat.id x = eid →
    x ∈ Flat.monthEntriesOf (monthFromDate (Flat.date x)) (Flat.allEntries st).

(** Editing outlives a change of month in [Tracker]. *)
Definition editingSurvivesMonthSwitch (st : Tracker.State) : Prop :=
  ∀ today v i, Tracker.editingId st = Some i →
    Tracker.editingId (Tracker.setMonthValue today v st) = Some i.

(** No stored budget table, of any month, has an entry for [name]. *)
Definition budgetsPurged (name : string) (st : Tracker.State) : Prop :=
  ∀ m b, Tracker.st_budgets (Tracker.storage st) !! m = Some b →
    b !! name = None.

(** The amounts of the entries filed under [name], added from 0 in the order
    of the list. *)
Definition spentOn (name : string) (l : list Tracker.Entry) : Qc :=
  Tracker.monthTotalOf (filter (λ e, Tracker.category e = name) l).

(** Newest date first. *)
Definition dateDesc (a b : Flat.Entry) : Prop :=
  str_le (Flat.date b) (Flat.date a).

(** Newest date first, for the rows of [Tracker]. *)
Definition rowDateDesc (a b : Tracker.Entry) : Prop :=
  str_le (Tracker.date b) (Tracker.date a).

(** Newest date first, and on one date the larger identifier first. *)
Definition newestOrder (a b : ByMonth.Expense) : Prop :=
  String.compare (ByMonth.date b) (ByMonth.date a) = Lt
  ∨ (ByMonth.date a = ByMonth.date b
     ∧ str_le (ByMonth.id b) (ByMonth.id a)).

(** Entries listed on one date come with descending identifiers. *)
Definition idTieBreak (l : list Flat.Entry) : Prop :=
  ∀ i j x y, l !! i = Some x → l !! j = Some y → (i < j)%nat →
    Flat.date x = Flat.date y → str_le (Flat.id y) (Flat.id x).

(** ** Stored entries and the steps of each variant *)

(** What the validation of [Flat] lets into the list: a positive amount, a
    description that is not empty, description and location trimmed. *)
Definition flatStored (e : Flat.Entry) : Prop :=
  0 < Flat.amount e
  ∧ Flat.what e ≠ ""
  ∧ trim (Flat.what e) = Flat.what e
  ∧ trim (Flat.location e) = Flat.location e.

Definition FlatValid (st : Flat.State) : Prop :=
  Forall flatStored (Flat.allEntries st).

(** The editing identifier and the draft are set together, and the draft
    carries the identifier being edited. *)
Definition FlatEditConsistent (st : Flat.State) : Prop :=
  match Flat.editingId st, Flat.editDraft st with
  | None, None => True
  | Some i, Some d => Flat.d_id d = i
  | _, _ => False
  end.

(** The entry being edited is in the list. *)
Definition FlatEditTarget (st : Flat.State) : Prop :=
  ∀ i, Flat.editingId st = Some i →
    ∃ e, e ∈ Flat.allEntries st ∧ Flat.id e = i.

(** One user action on [Flat]: every handler wired to the page.  The Edit
    button exists for the rows of the month on screen. *)
Inductive FlatStep (toNum : string → jsnum) : Flat.State → Flat.State → Prop :=
  | FS_setMonth m st : FlatStep toNum st (Flat.setMonth m st)
  | FS_setDate v st : FlatStep toNum st (Flat.setDate v st)
  | FS_setAmount v st : FlatStep toNum st (Flat.setAmount v st)
  | FS_setCategory v st : FlatStep toNum st (Flat.setCategory v st)
  | FS_setLocation v st : FlatStep toNum st (Flat.setLocation v st)
  | FS_setWhat v st : FlatStep toNum st (Flat.setWhat v st)
  | FS_addExpense uuid st : FlatStep toNum st (Flat.addExpense toNum uuid st)
  | FS_deleteEntry i st : FlatStep toNum st (Flat.deleteEntry i st)
  | FS_startEdit e st :
      e ∈ Flat.monthEntries st → FlatStep toNum st (Flat.startEdit e st)
  | FS_cancelEdit st : FlatStep toNum st (Flat.cancelEdit st)
  | FS_draftDate v st : FlatStep toNum st (Flat.changeDraftDate v st)
  | FS_draftWhat v st : FlatStep toNum st (Flat.changeDraftWhat v st)
  | FS_draftLocation v st : FlatStep toNum st (Flat.changeDraftLocation v st)
  | FS_draftCategory v st : FlatStep toNum st (Flat.changeDraftCategory v st)
  | FS_draftAmount v st : FlatStep toNum st (Flat.changeDraftAmount v st)
  | FS_saveEdit st : FlatStep toNum st (Flat.saveEdit toNum st)
  | FS_clearMonth st : FlatStep toNum st (Flat.clearMonth st)
  | FS_clearAll st : FlatStep toNum st (Flat.clearAll st).

(** What the validation of [ByMonth] lets into an array. *)
Definition byMonthStored (e : ByMonth.Expense) : Prop :=
  0 < ByMonth.amount e ∧ ByMonth.what e ≠ "" ∧ ByMonth.date e ≠ "".

(** No month key holds an empty array, and every expense is valid and filed
    under the month of its own date. *)
Definition ByMonthInv (d : gmap string (list ByMonth.Expense)) : Prop :=
  ∀ m l, d !! m = Some l →
    l ≠ []
    ∧ Forall (λ e, byMonthStored e
                   ∧ ByMonth.monthKeyFromDate (ByMonth.date e) = m) l.

Inductive ByMonthStep (toNum : string → jsnum)
    : ByMonth.State → ByMonth.State → Prop :=
  | BS_setMonth m st : ByMonthStep toNum st (ByMonth.setMonth m st)
  | BS_setDate v st : ByMonthStep toNum st (ByMonth.setDate v st)
  | BS_setAmount v st : ByMonthStep toNum st (ByMonth.setAmount v st)
  | BS_setLocation v st : ByMonthStep toNum st (ByMonth.setLocation v st)
  | BS_setWhat v st : ByMonthStep toNum st (ByMonth.setWhat v st)
  | BS_setCategory v st : ByMonthStep toNum st (ByMonth.setCategory v st)
  | BS_addExpense uuid st :
      ByMonthStep toNum st (ByMonth.addExpense toNum uuid st)
  | BS_removeExpense i st : ByMonthStep toNum st (ByMonth.removeExpense i st)
  | BS_clearMonth ok st : ByMonthStep toNum st (ByMonth.clearMonth ok st)
  | BS_clearAll ok st : ByMonthStep toNum st (ByMonth.clearAll ok st).

(** What the validation of [Tracker] lets into the list. *)
Definition trackerStored (e : Tracker.Entry) : Prop :=
  0 < Tracker.amount e
  ∧ Tracker.what e ≠ ""
  ∧ trim (Tracker.what e) = Tracker.what e
  ∧ Tracker.date e ≠ ""
  ∧ trim (Tracker.category e) ≠ "".

Definition budgetsNonneg (b : gmap string Qc) : Prop :=
  ∀ k v, b !! k = Some v → 0 ≤ v.

(** The records of the month on screen hold what is in memory. *)
Definition synced (st : Tracker.State) : Prop :=
  Tracker.st_entries (Tracker.storage st) !! Tracker.monthKey st
  = Some (Tracker.entries st)
  ∧ Tracker.st_budgets (Tracker.storage st) !! Tracker.monthKey st
    = Some (Tracker.budgets st).

Definition storageValid (store : Tracker.Storage) : Prop :=
  (∀ m l, Tracker.st_entries store !! m = Some l → Forall trackerStored l)
  ∧ (∀ m b, Tracker.st_budgets store !! m = Some b → budgetsNonneg b).

Definition TrackerInv (st : Tracker.State) : Prop :=
  synced st ∧ storageValid (Tracker.storage st).

(** One user action on [Tracker].  The Edit button exists for the entries of
    the month on screen. *)
Inductive TrackerStep (toNum : string → jsnum)
    : Tracker.State → Tracker.State → Prop :=
  | TS_setMonthValue today v st :
      TrackerStep toNum st (Tracker.setMonthValue today v st)
  | TS_setNewCategory v st : TrackerStep toNum st (Tracker.setNewCategory v st)
  | TS_setFormDate v st : TrackerStep toNum st (Tracker.setFormDate v st)
  | TS_setFormAmount v st : TrackerStep toNum st (Tracker.setFormAmount v st)
  | TS_setFormCategory v st :
      TrackerStep toNum st (Tracker.setFormCategory v st)
  | TS_setFormWhat v st : TrackerStep toNum st (Tracker.setFormWhat v st)
  | TS_clearMonth ok st : TrackerStep toNum st (Tracker.clearMonth ok st)
  | TS_clearAll ok today thisMonth same st :
      TrackerStep toNum st (Tracker.clearAll ok today thisMonth same st)
  | TS_addOrUpdate okAdd uuid st :
      TrackerStep toNum st (Tracker.addOrUpdateExpense toNum okAdd uuid st)
  | TS_startEdit e amountText st :
      e ∈ Tracker.entries st →
      TrackerStep toNum st (Tracker.startEdit e amountText st)
  | TS_cancelEdit today st : TrackerStep toNum st (Tracker.cancelEdit today st)
  | TS_deleteEntry ok i st : TrackerStep toNum st (Tracker.deleteEntry ok i st)
  | TS_addCategory toLower st :
      TrackerStep toNum st (Tracker.addCategory toLower st)
  | TS_removeCategory ok name st :
      TrackerStep toNum st (Tracker.removeCategory ok name st)
  | TS_setBudget cat value st :
      TrackerStep toNum st (Tracker.setBudget toNum cat value st).

(** No two listed categories are equal once lower-cased. *)
Definition distinctIgnoringCase (cats : list string) : Prop :=
  NoDup (map toLowerCase cats).

(** ** Sample states *)

(** A form holding the text ["abc"] as amount, in the [Flat] variant, with
    one entry already stored. *)
Definition flat_lunch : Flat.Entry :=
  Flat.mkEntry "e1" "2026-01" "2026-01-15" (Q2Qc 30) Food "Cafe" "Lunch".

Definition flat_abc : Flat.State :=
  Flat.mkState [flat_lunch] "2026-01" "2026-01-20" "abc" Food "" "Dinner"
               None None.

(** January 2026 with two entries: Food 30 and Gas 30. *)
Definition flat_tie : Flat.State :=
  Flat.mkState
    [ Flat.mkEntry "e2" "2026-01" "2026-01-16" (Q2Qc 30) Gas "Station" "Fuel";
      Flat.mkEntry "e1" "2026-01" "2026-01-15" (Q2Qc 30) Food "Cafe" "Lunch" ]
    "2026-01" "2026-01-20" "" Fun "" "" None None.

(** The lunch of 15 January, opened for editing, its date changed to
    10 February, then saved. *)
Definition flat_redated : Flat.State :=
  Flat.changeDraftDate "2026-02-10" (Flat.startEdit flat_lunch flat_abc).

Definition flat_moved : Flat.State := Flat.saveEdit sampleToNumber flat_redated.

Definition tracker_lunch : Tracker.Entry :=
  Tracker.mkEntry "e1" "2026-01-15" (Q2Qc 30) "Food" "Lunch".

(** January 2026 on screen with one entry, and a budget for Food stored both
    for January and for December 2025. *)
Definition tracker_jan : Tracker.State :=
  Tracker.mkState "2026-01" Tracker.DEFAULT_CATEGORIES
    {[ "Food" := Q2Qc 100 ]} [tracker_lunch] "" "2026-01-20" "" "Fun" "" None
    (Tracker.mkStorage (Some Tracker.DEFAULT_CATEGORIES)
       {[ "2026-01" := [tracker_lunch] ]}
       (<[ "2025-12" := {[ "Food" := Q2Qc 80 ]} ]>
          {[ "2026-01" := {[ "Food" := Q2Qc 100 ]} ]})).

Definition tracker_editing : Tracker.State :=
  Tracker.startEdit tracker_lunch "30" tracker_jan.

Definition tracker_moved : Tracker.State :=
  Tracker.addOrUpdateExpense sampleToNumber false "u9"
    (Tracker.setFormDate "2026-02-10" tracker_editing).

(** Two entries of 15 January, stored in the order [a1], [b2]. *)
Definition flat_same_day : Flat.State :=
  Flat.mkState
    [ Flat.mkEntry "a1" "2026-01" "2026-01-15" (Q2Qc 12) Food "Cafe" "Lunch";
      Flat.mkEntry "b2" "2026-01" "2026-01-15" (Q2Qc 40) Gas "Station" "Fuel" ]
    "2026-01" "2026-01-20" "" Fun "" "" None None.

(** January 2026 on screen, with one entry of January and one of
    December 2025 in the list. *)
Definition flat_two_months : Flat.State :=
  Flat.mkState
    [ flat_lunch;
      Flat.mkEntry "e0" "2025-12" "2025-12-24" (Q2Qc 55) Fun "Market" "Gifts" ]
    "2026-01" "2026-01-20" "" Fun "" "" None None.

(** The form of [flat_abc] filled with a valid amount and description. *)
Definition flat_ready : Flat.State :=
  Flat.setWhat " Dinner " (Flat.setAmount "12.50" flat_abc).

(** The lunch opened for editing, its amount overwritten with text. *)
Definition flat_bad_draft : Flat.State :=
  Flat.changeDraftAmount "abc" (Flat.startEdit flat_lunch flat_abc).

(** [ByMonth] with January 2026 on screen and a form dated in February. *)
Definition bymonth_jan : ByMonth.State :=
  ByMonth.mkState "2026-01"
    {[ "2026-01" :=
         [ByMonth.mkExpense "e1" "2026-01-15" (Q2Qc 30) "Cafe" "Lunch" Food] ]}
    "2026-02-03" "12.50" "" "Tea" Food.

(** [ByMonth] with nothing stored. *)
Definition bymonth_empty : ByMonth.State :=
  ByMonth.mkState "2026-01" ∅ "2026-01-20" "" "" "" Fun.

(** The first render of [Tracker] over an empty storage. *)
Definition tracker_fresh : Tracker.State :=
  Tracker.init "2026-01-20" "2026-01" (Tracker.mkStorage None ∅ ∅).

(** The form of [tracker_jan] filled for a valid add. *)
Definition tracker_ready : Tracker.State :=
  Tracker.setFormCategory "Food"
    (Tracker.setFormWhat "Tea" (Tracker.setFormAmount "12.50" tracker_jan)).

(** The lunch opened for editing, then deleted. *)
Definition tracker_orphan_edit : Tracker.State :=
  Tracker.deleteEntry true "e1" tracker_editing.


(** Three entries of January 2026 whose amounts are the doubles written
    0.2, 0.7 and 0.1, shown in that order. *)
Definition flat_fractions : Flat.State :=
  Flat.mkState
    [ Flat.mkEntry "e3" "2026-01" "2026-01-03" (round53 (Q2Qc (1 # 5))) Food
        "Cafe" "Tea";
      Flat.mkEntry "e2" "2026-01" "2026-01-02" (round53 (Q2Qc (7 # 10))) Gas
        "Station" "Air";
      Flat.mkEntry "e1" "2026-01" "2026-01-01" (round53 (Q2Qc (1 # 10))) Food
        "Cafe" "Gum" ]
    "2026-01" "2026-01-20" "" Fun "" "" None None.

(** One entry of [Tracker] filed under the category ["__proto__"]. *)
Definition tracker_proto : Tracker.State :=
  Tracker.mkState "2026-01" ["__proto__"] ∅
    [Tracker.mkEntry "e1" "2026-01-15" (Q2Qc 30) "__proto__" "Lunch"]
    "" "2026-01-20" "" "__proto__" "" None (Tracker.mkStorage None ∅ ∅).

(** * Properties *)

(** ** Order on strings *)

Module StrOrd.
Import OrderedTypeEx.

Abbreviation le := str_le.

Lemma ltb_spec (a b : string) : str_lt a b = true ↔ String.compare a b = Lt.
  Proof.
    unfold str_lt, String.ltb. destruct (String.compare a b); split; congruence.
  Qed.

Lemma compare_flip (a b : string) :
    String.compare b a = CompOpp (String.compare a b).
  Proof. apply String.compare_antisym. Qed.

Lemma compare_refl (a : string) : String.compare a a = Eq.
Proof. by apply String_as_OT.cmp_eq. Qed.

Lemma le_refl (a : string) : le a a.
  Proof.
    unfold str_le. assert (String.compare a a = Eq) as ->
      by (by apply String_as_OT.cmp_eq).
    discriminate.
  Qed.

Lemma le_total (a b : string) : le a b ∨ le b a.
  Proof.
    unfold str_le. rewrite (compare_flip a b).
    destruct (String.compare a b); simpl; auto; left; discriminate.
  Qed.

Lemma lt_trans (a b c : string) :
    String.compare a b = Lt → String.compare b c = Lt → String.compare a c = Lt.
  Proof.
    intros H1 H2. apply String_as_OT.cmp_lt.
    eapply String_as_OT.lt_trans; apply String_as_OT.cmp_lt; eassumption.
  Qed.

Lemma le_cases (a b : string) : le a b ↔ String.compare a b = Lt ∨ a = b.
  Proof.
    unfold str_le. split.
    - destruct (String.compare a b) eqn:E; intros H.
      + right. by apply String_as_OT.cmp_eq.
      + by left.
      + congruence.
    - intros [-> | ->]; [discriminate | apply le_refl].
  Qed.

Lemma le_trans (a b c : string) : le a b → le b c → le a c.
  Proof.
    rewrite !le_cases. intros [H1 | ->] [H2 | ->]; auto.
    left. eapply lt_trans; eassumption.
  Qed.

Lemma not_lt_le (a b : string) : String.compare a b ≠ Lt ↔ le b a.
  Proof.
    unfold str_le. rewrite (compare_flip a b).
    destruct (String.compare a b); simpl; split; congruence.
  Qed.
End StrOrd.

(** ** The stable sort *)

Section SortFacts.
Context {A : Type} (cmp : A → A → Z).

Lemma insert_sorted_perm (x : A) (l : list A) :
    JS.insert_sorted cmp x l ≡ₚ x :: l.
  Proof.
    induction l as [|y r IH]; simpl; [done|].
    destruct (cmp x y <=? 0)%Z; [done|].
    rewrite IH. apply Permutation_swap.
  Qed.

Lemma sort_perm (l : list A) : JS.sort cmp l ≡ₚ l.
  Proof.
    induction l as [|x l IH]; simpl; [done|].
    rewrite insert_sorted_perm. by rewrite IH.
  Qed.

Lemma sort_elem_of (x : A) (l : list A) : x ∈ JS.sort cmp l ↔ x ∈ l.
  Proof. by rewrite sort_perm. Qed.

Hypothesis before_total : ∀ x y, before cmp x y ∨ before cmp y x.
Hypothesis before_trans : ∀ x y z, before cmp x y → before cmp y z → before cmp x z.

Lemma insert_sorted_sorted (x : A) (l : list A) :
    StronglySorted (before cmp) l → StronglySorted (before cmp) (JS.insert_sorted cmp x l).
  Proof.
    induction 1 as [|y r Hs IH Hall]; simpl.
    - repeat constructor.
    - destruct (cmp x y <=? 0)%Z eqn:E.
      + apply Z.leb_le in E. constructor; [by constructor|].
        constructor; [done|].
        revert Hall. apply List.Forall_impl. intros z Hz.
        by eapply before_trans.
      + apply Z.leb_gt in E. constructor; [done|].
        rewrite insert_sorted_perm. constructor; [|done].
        destruct (before_total x y) as [H|H]; [unfold before in H; lia | done].
  Qed.

Lemma sort_sorted (l : list A) : StronglySorted (before cmp) (JS.sort cmp l).
  Proof.
    induction l as [|x l IH]; simpl; [constructor|].
    by apply insert_sorted_sorted.
  Qed.
End SortFacts.

(** ** Validation at the boundary *)

Lemma guard_not_accepted (n : jsnum) :
  ¬ accepted n → (negb (isFinite n) || le0 n)%bool = true.
Proof.
  intros H. destruct n as [q| | |]; simpl; try done.
  apply bool_decide_eq_true. apply Qcle_ngt. intros Hq. apply H. by exists q.
Qed.

Lemma guard_accepted (q : Qc) :
  0 < q → (negb (isFinite (JFin q)) || le0 (JFin q))%bool = false.
Proof.
  intros H. simpl. apply bool_decide_eq_false. by apply Qclt_nge.
Qed.

Lemma falsy_true (s : string) : falsy s = true ↔ s = "".
Proof. destruct s; simpl; split; congruence. Qed.

Lemma falsy_false (s : string) : falsy s = false ↔ s ≠ "".
Proof. destruct s; simpl; split; congruence. Qed.

Lemma Flat_add_rejected toNum uuid (st : Flat.State) :
  ¬ accepted (toNum (Flat.f_amount st)) ∨ trim (Flat.f_what st) = "" →
  Flat.addExpense toNum uuid st = st.
Proof.
  intros H. unfold Flat.addExpense. simpl.
  destruct (negb (isFinite _) || le0 _)%bool eqn:G; [done|].
  destruct H as [H | H].
  - apply guard_not_accepted in H. congruence.
  - apply falsy_true in H. by rewrite H.
Qed.

Lemma ByMonth_add_rejected toNum uuid (st : ByMonth.State) :
  ¬ accepted (toNum (ByMonth.f_amount st)) ∨ trim (ByMonth.f_what st) = "" →
  ByMonth.addExpense toNum uuid st = st.
Proof.
  intros H. unfold ByMonth.addExpense. simpl.
  destruct (falsy (ByMonth.f_date st)); [done|].
  destruct (negb (isFinite _) || le0 _)%bool eqn:G; [done|].
  destruct H as [H | H].
  - apply guard_not_accepted in H. congruence.
  - apply falsy_true in H. by rewrite H.
Qed.

Lemma Tracker_add_rejected toNum okAdd uuid (st : Tracker.State) :
  ¬ accepted (toNum (Tracker.formAmount st)) ∨ trim (Tracker.formWhat st) = "" →
  Tracker.addOrUpdateExpense toNum okAdd uuid st = st.
Proof.
  intros H. unfold Tracker.addOrUpdateExpense. simpl.
  destruct (negb (isFinite _) || le0 _)%bool eqn:G; [done|].
  destruct H as [H | H].
  - apply guard_not_accepted in H. congruence.
  - apply falsy_true in H. by rewrite H.
Qed.

(** C1.  An add request whose amount does not parse to a finite number
    strictly greater than 0, or whose description is empty once trimmed, is
    rejected by each of the three add handlers: the handler returns the state
    it was given, so no entry is inserted and the entry store is unchanged;
    a second rejected call from the resulting state yields that same state
    again. *)
Theorem rejected_add_leaves_store_unchanged
    (toNum : string → jsnum) (amountText whatText : string) :
  ¬ accepted (toNum amountText) ∨ trim whatText = "" →
  (∀ uuid uuid' (st : Flat.State),
      Flat.f_amount st = amountText → Flat.f_what st = whatText →
      Flat.addExpense toNum uuid st = st
      ∧ Flat.allEntries (Flat.addExpense toNum uuid st) = Flat.allEntries st
      ∧ Flat.addExpense toNum uuid' (Flat.addExpense toNum uuid st) = st)
  ∧ (∀ uuid uuid' (st : ByMonth.State),
      ByMonth.f_amount st = amountText → ByMonth.f_what st = whatText →
      ByMonth.addExpense toNum uuid st = st
      ∧ ByMonth.data (ByMonth.addExpense toNum uuid st) = ByMonth.data st
      ∧ ByMonth.addExpense toNum uuid' (ByMonth.addExpense toNum uuid st) = st)
  ∧ (∀ okAdd uuid uuid' (st : Tracker.State),
      Tracker.formAmount st = amountText → Tracker.formWhat st = whatText →
      Tracker.addOrUpdateExpense toNum okAdd uuid st = st
      ∧ Tracker.entries (Tracker.addOrUpdateExpense toNum okAdd uuid st)
        = Tracker.entries st
      ∧ Tracker.addOrUpdateExpense toNum okAdd uuid'
          (Tracker.addOrUpdateExpense toNum okAdd uuid st) = st).
Proof.
  intros H. split; [|split].
  - intros uuid uuid' st <- <-.
    by rewrite !(Flat_add_rejected toNum _ st H).
  - intros uuid uuid' st <- <-.
    by rewrite !(ByMonth_add_rejected toNum _ st H).
  - intros okAdd uuid uuid' st <- <-.
    by rewrite !(Tracker_add_rejected toNum _ _ st H).
Qed.

Lemma rejected_add_leaves_store_unchanged_witness :
  (¬ accepted (sampleToNumber "abc") ∨ trim "Dinner" = "")
  ∧ Flat.addExpense sampleToNumber "u1" flat_abc = flat_abc.
Proof.
  assert (¬ accepted (sampleToNumber "abc") ∨ trim "Dinner" = "") as H.
  { left. intros [q [Hq _]]. discriminate Hq. }
  split; [exact H|].
  exact (proj1 (proj1 (rejected_add_leaves_store_unchanged
                         sampleToNumber "abc" "Dinner" H)
                  "u1" "u2" flat_abc eq_refl eq_refl)).
Defined.

(** ** Totals *)

Section Totals.
Context {E : Type} (cat : E → Category) (amt : E → Qc).

Lemma reduce_acc (acc : Qc) (l : list E) :
    foldl (λ sum e, sum + amt e) acc l
    = acc + foldl (λ sum e, sum + amt e) 0 l.
  Proof.
    revert acc. induction l as [|e l IH]; intros acc; simpl; [ring|].
    rewrite (IH (acc + amt e)), (IH (0 + amt e)). ring.
  Qed.

Lemma sumOver_addTo_notin cats totals c a :
    c ∉ cats → sumOver cats (addTo totals c a) = sumOver cats totals.
  Proof.
    unfold sumOver, addTo. induction cats as [|x cats IH]; intros Hc; [done|].
    apply not_elem_of_cons in Hc as [Hx Hc]. simpl.
    rewrite decide_False by done. f_equal. by apply IH.
  Qed.

Lemma sumOver_addTo cats totals c a :
    NoDup cats → c ∈ cats →
    sumOver cats (addTo totals c a) = sumOver cats totals + a.
  Proof.
    induction 1 as [|x cats Hx Hnd IH]; intros Hc; [by apply elem_of_nil in Hc|].
    apply elem_of_cons in Hc as [-> | Hc].
    - pose proof (sumOver_addTo_notin cats totals x a Hx) as Hrest.
      unfold sumOver in *. simpl. rewrite Hrest. unfold addTo at 1.
      rewrite decide_True by done. ring.
    - specialize (IH Hc). unfold sumOver in *. simpl. rewrite IH.
      unfold addTo at 1. rewrite decide_False by (intros ->; done). ring.
  Qed.

Lemma sumOver_loop cats totals (l : list E) :
    NoDup cats → (∀ c, c ∈ cats) →
    sumOver cats (foldl (λ map e, addTo map (cat e) (amt e)) totals l)
    = sumOver cats totals + foldl (λ sum e, sum + amt e) 0 l.
  Proof.
    intros Hnd Hall. revert totals.
    induction l as [|e l IH]; intros totals; simpl; [ring|].
    rewrite IH, sumOver_addTo by done. rewrite (reduce_acc (0 + amt e)). ring.
  Qed.
End Totals.

Lemma CATEGORIES_NoDup : NoDup CATEGORIES.
Proof. apply (bool_decide_unpack _). vm_compute. exact I. Qed.

Lemma CATEGORIES_all (c : Category) : c ∈ CATEGORIES.
Proof. destruct c; apply (bool_decide_unpack _); vm_compute; exact I. Qed.

Lemma sumOver_zero : sumOver CATEGORIES zeroTotals = 0.
Proof. apply Qc_is_canon. reflexivity. Qed.

Lemma sumQc_perm (l l' : list Qc) : l ≡ₚ l' → sumQc l = sumQc l'.
Proof.
  induction 1 as [|x l l' _ IH|x y l|l l' l'' _ IH1 _ IH2]; simpl.
  - done.
  - by rewrite IH.
  - ring.
  - by rewrite IH1.
Qed.

Lemma reduce_sum {E : Type} (amt : E → Qc) (l : list E) :
  foldl (λ sum e, sum + amt e) 0 l = sumQc (map amt l).
Proof.
  induction l as [|e l IH]; simpl; [done|].
  rewrite (reduce_acc amt (0 + amt e)), IH. ring.
Qed.

Lemma addTo_loop_total {E : Type} (cat : E → Category) (amt : E → Qc)
    (totals : Category → Qc) (l : list E) (c : Category) :
  foldl (λ map e, addTo map (cat e) (amt e)) totals l c
  = totals c + sumQc (map amt (filter (λ e, cat e = c) l)).
Proof.
  revert totals. induction l as [|e l IH]; intros totals; simpl; [ring|].
  rewrite IH, filter_cons. unfold addTo at 1.
  destruct (decide (c = cat e)) as [->|Hc].
  - rewrite decide_True by done. simpl. ring.
  - rewrite decide_False by done. done.
Qed.

Lemma sumQc_app (l k : list Qc) : sumQc (l ++ k) = sumQc l + sumQc k.
Proof. induction l as [|x l IH]; simpl; [ring|]. rewrite IH. ring. Qed.

Lemma sublists_spec {A : Type} (l k : list A) :
  sublist l k → l ∈ sublists k.
Proof.
  induction 1 as [|x l k _ IH|x l k _ IH]; simpl.
  - by left.
  - apply elem_of_app. right. apply list_elem_of_fmap. by exists l.
  - apply elem_of_app. by left.
Qed.

Lemma exactSums_check (rnd : Qc → Qc) (amounts : list Qc) :
  forallb (λ l, bool_decide (rnd (sumQc l) = sumQc l)) (sublists amounts) = true →
  exactSums rnd amounts.
Proof.
  intros Hall l Hl. apply sublists_spec in Hl.
  rewrite forallb_forall in Hall.
  pose proof (Hall l (proj1 (list_elem_of_In _ _) Hl)) as H. simpl in H.
  by apply bool_decide_eq_true_1 in H.
Qed.

Lemma exactSums_sublist (rnd : Qc → Qc) (l k : list Qc) :
  sublist l k → exactSums rnd k → exactSums rnd l.
Proof. intros Hlk Hk l' Hl'. apply Hk. by transitivity l. Qed.

Section RoundedSums.
Context {E : Type} (rnd : Qc → Qc) (cat : E → Category) (amt : E → Qc).

Lemma rounded_reduce (l : list E) :
  exactSums rnd (map amt l) →
  foldl (λ sum e, fadd rnd sum (amt e)) 0 l = foldl (λ sum e, sum + amt e) 0 l.
Proof.
  induction l as [|e l IH] using rev_ind; intros Hex; [done|].
  rewrite !foldl_snoc, IH.
  - unfold fadd. rewrite reduce_sum.
    assert (sumQc (map amt l) + amt e = sumQc (map amt (l ++ [e])%list)) as ->
      by (rewrite map_app, sumQc_app; simpl; ring).
    by apply Hex.
  - eapply exactSums_sublist; [|exact Hex].
    rewrite map_app. by apply sublist_inserts_r.
Qed.

Lemma rounded_totals (l : list E) (c : Category) :
  exactSums rnd (map amt l) →
  foldl (λ map e, Rounded.addTo rnd map (cat e) (amt e)) zeroTotals l c
  = foldl (λ map e, addTo map (cat e) (amt e)) zeroTotals l c.
Proof.
  revert c. induction l as [|e l IH] using rev_ind; intros c Hex; [done|].
  assert (exactSums rnd (map amt l)) as Hl.
  { eapply exactSums_sublist; [|exact Hex].
    rewrite map_app. by apply sublist_inserts_r. }
  rewrite !foldl_snoc. unfold Rounded.addTo at 1, addTo at 1.
  rewrite IH by done. case_decide as Hc; [|done].
  unfold fadd.
  assert (foldl (λ map e0, addTo map (cat e0) (amt e0)) zeroTotals l c + amt e
          = sumQc (map amt (filter (λ e0, cat e0 = c) (l ++ [e])%list))) as ->.
  { rewrite list.filter_app, map_app, sumQc_app.
    rewrite filter_cons, decide_True by done. simpl.
    rewrite (addTo_loop_total cat amt). unfold zeroTotals. ring. }
  apply Hex. apply fmap_sublist, sublist_filter.
Qed.
End RoundedSums.

Lemma Flat_monthEntries_perm (m : string) (l : list Flat.Entry) :
  Flat.monthEntriesOf m l ≡ₚ filter (λ e, Flat.month e = m) l.
Proof. apply sort_perm. Qed.

Lemma Flat_monthTotal_sum (st : Flat.State) :
  Flat.monthTotal st
  = sumQc (map Flat.amount
             (filter (λ e, Flat.month e = Flat.s_month st) (Flat.allEntries st))).
Proof.
  unfold Flat.monthTotal, Flat.monthEntries. rewrite reduce_sum.
  apply sumQc_perm. by rewrite Flat_monthEntries_perm.
Qed.

(** ** The totals object of [Tracker] *)

Section TrackerTotals.
Variable add : Qc → Qc → Qc.

Lemma Tracker_bump_keys k a T :
  map fst (Tracker.bump add k a T) = map fst T.
Proof.
  induction T as [|[k' v] r IH]; simpl; [done|].
  case_decide; simpl; [done|]. by rewrite IH.
Qed.

Lemma Tracker_accumulate_keys k a T k0 :
  k0 ∈ map fst (Tracker.accumulateWith add k a T)
  ↔ k0 ∈ map fst T ∨ (k0 = k ∧ k ≠ "__proto__").
Proof.
  unfold Tracker.accumulateWith.
  case_bool_decide as Hown.
  - rewrite Tracker_bump_keys. split; [auto|]. intros [H|[-> _]]; done.
  - case_decide as Hp.
    + split; [auto|]. intros [H|[_ H]]; done.
    + case_bool_decide as Hm; rewrite map_app, elem_of_app; simpl;
        rewrite list_elem_of_singleton; split;
        (intros [Hx|Hx]; [by left|right]); [done|tauto|done|tauto].
Qed.

Lemma Tracker_ownProp_None k T :
  Tracker.ownProp k T = None ↔ k ∉ map fst T.
Proof.
  induction T as [|[k' v] r IH]; simpl.
  - split; [intros _; apply not_elem_of_nil|done].
  - rewrite not_elem_of_cons. case_decide as Hk.
    + split; [done|]. intros [H _]. by subst.
    + rewrite IH. split; [intros H; split; [by intros ->|done]|tauto].
Qed.

Lemma Tracker_ownProp_elem k v T :
  Tracker.ownProp k T = Some v → (k, v) ∈ T.
Proof.
  induction T as [|[k' v'] r IH]; simpl; [done|].
  case_decide as Hk.
  - intros [= ->]. subst. by left.
  - intros H. right. by apply IH.
Qed.

Lemma Tracker_ownProp_bump k k' a T :
  Tracker.ownProp k (Tracker.bump add k' a T)
  = if decide (k' = k)
    then (λ v, Tracker.addNumber add v a) <$> Tracker.ownProp k T
    else Tracker.ownProp k T.
Proof.
  induction T as [|[k0 v] r IH]; simpl; [by case_decide|].
  destruct (decide (k0 = k')) as [->|H0]; simpl.
  - destruct (decide (k' = k)) as [->|Hk]; [done|done].
  - rewrite IH. destruct (decide (k0 = k)) as [->|H1].
    + by rewrite decide_False by (intros ->; done).
    + done.
Qed.

Lemma Tracker_ownProp_snoc k k' v T :
  Tracker.ownProp k (T ++ [(k', v)])
  = match Tracker.ownProp k T with
    | Some w => Some w
    | None => if decide (k' = k) then Some v else None
    end.
Proof.
  induction T as [|[k0 v0] r IH]; simpl; [done|].
  destruct (decide (k0 = k)); simpl; [done|exact IH].
Qed.

Lemma inherited_false k :
  inherited k = false → k ≠ "__proto__" ∧ k ∉ protoMembers.
Proof.
  unfold inherited. intros H. apply bool_decide_eq_false_1 in H. tauto.
Qed.

Lemma Tracker_totalOf_accumulate k k' a T :
  inherited k = false →
  Tracker.totalOf k (Tracker.accumulateWith add k' a T)
  = if decide (k' = k) then Tracker.addNumber add (Tracker.totalOf k T) a
    else Tracker.totalOf k T.
Proof.
  intros Hk. destruct (inherited_false k Hk) as [Hp Hm].
  unfold Tracker.totalOf, Tracker.accumulateWith. rewrite Hk.
  case_bool_decide as Hown.
  - rewrite Tracker_ownProp_bump.
    destruct (decide (k' = k)) as [->|Hne]; [|done].
    destruct (Tracker.ownProp k T) as [v|] eqn:E; [done|].
    by apply Tracker_ownProp_None in E.
  - apply Tracker_ownProp_None in Hown.
    destruct (decide (k' = k)) as [->|Hne].
    + rewrite decide_False by done. rewrite bool_decide_eq_false_2 by done.
      rewrite Tracker_ownProp_snoc, Hown. by rewrite decide_True.
    + case_decide; [done|].
      case_bool_decide; rewrite Tracker_ownProp_snoc;
        (destruct (Tracker.ownProp k T); [done|]); by rewrite decide_False.
Qed.

Lemma Tracker_totals_snoc l e :
  Tracker.categoryTotalsOfWith add (l ++ [e])
  = Tracker.accumulateWith add (Tracker.category e) (Tracker.amount e)
      (Tracker.categoryTotalsOfWith add l).
Proof. unfold Tracker.categoryTotalsOfWith. by rewrite foldl_snoc. Qed.

Lemma Tracker_totalOf_totals k l :
  inherited k = false →
  Tracker.totalOf k (Tracker.categoryTotalsOfWith add l)
  = PNum (Tracker.monthTotalOfWith add
            (filter (λ e, Tracker.category e = k) l)).
Proof.
  intros Hk. induction l as [|e l IH] using rev_ind.
  - unfold Tracker.totalOf. simpl. by rewrite Hk.
  - rewrite Tracker_totals_snoc, Tracker_totalOf_accumulate by done.
    rewrite list.filter_app, filter_cons, filter_nil, IH.
    case_decide as Hc.
    + simpl. unfold Tracker.monthTotalOfWith. by rewrite foldl_snoc.
    + by rewrite app_nil_r.
Qed.

Lemma Tracker_totals_keys l k :
  k ∈ map fst (Tracker.categoryTotalsOfWith add l)
  ↔ k ≠ "__proto__" ∧ ∃ e, e ∈ l ∧ Tracker.category e = k.
Proof.
  induction l as [|e l IH] using rev_ind.
  - simpl. split; [intros H; by apply elem_of_nil in H|].
    intros [_ (e & He & _)]. by apply elem_of_nil in He.
  - rewrite Tracker_totals_snoc, Tracker_accumulate_keys, IH. split.
    + intros [[Hp (e' & He' & Hc)] | [-> Hp]].
      * split; [done|]. exists e'. split; [|done]. apply elem_of_app. by left.
      * split; [done|]. exists e. split; [|done]. apply elem_of_app. right.
        by left.
    + intros [Hp (e' & He' & Hc)]. apply elem_of_app in He' as [He'|He'].
      * left. split; [done|]. by exists e'.
      * apply list_elem_of_singleton in He' as ->. right. by subst.
Qed.

Lemma Tracker_bump_sorted k a T :
  Forall wellSorted T → Forall wellSorted (Tracker.bump add k a T).
Proof.
  induction 1 as [|[k' v] r Hp Hr IH]; simpl; [done|].
  case_decide; constructor; try done.
  unfold wellSorted in *. simpl in *. destruct (inherited k').
  - by rewrite Hp.
  - destruct Hp as [q ->]. simpl. by eexists.
Qed.

Lemma Tracker_totals_sorted l :
  Forall wellSorted (Tracker.categoryTotalsOfWith add l).
Proof.
  induction l as [|e l IH] using rev_ind; [constructor|].
  rewrite Tracker_totals_snoc. unfold Tracker.accumulateWith.
  case_bool_decide; [by apply Tracker_bump_sorted|].
  case_decide as Hp; [done|].
  case_bool_decide as Hm; apply Forall_app; (split; [done|]);
    constructor; try done; unfold wellSorted, inherited; simpl.
  - rewrite bool_decide_eq_true_2 by (by right). done.
  - rewrite bool_decide_eq_false_2 by tauto. by eexists.
Qed.
End TrackerTotals.

Lemma sumOver_ext (cats : list Category) (f g : Category → Qc) :
  (∀ c, f c = g c) → sumOver cats f = sumOver cats g.
Proof.
  intros Hfg. unfold sumOver. f_equal. apply map_ext. auto.
Qed.

Lemma Tracker_bump_ext (add1 add2 : Qc → Qc → Qc) k a T :
  (∀ q, Tracker.ownProp k T = Some (PNum q) → add1 q a = add2 q a) →
  Tracker.bump add1 k a T = Tracker.bump add2 k a T.
Proof.
  induction T as [|[k' v] r IH]; simpl; [done|]. intros Hq.
  destruct (decide (k' = k)) as [->|Hne].
  - destruct v as [q|]; simpl; [|done]. by rewrite Hq.
  - by rewrite IH.
Qed.

Lemma Tracker_bump_sum k a T :
  Forall (wellSorted) T → inherited k = false → k ∈ map fst T →
  sumQc (map snd (numbers (Tracker.bump Qcplus k a T)))
  = sumQc (map snd (numbers T)) + a.
Proof.
  intros Hs Hk. induction Hs as [|[k' v] r Hp Hr IH]; simpl.
  - intros H. by apply elem_of_nil in H.
  - intros Hin. destruct (decide (k' = k)) as [->|Hne].
    + unfold wellSorted in Hp. simpl in Hp. rewrite Hk in Hp.
      destruct Hp as [q ->]. simpl. ring.
    + apply elem_of_cons in Hin as [Heq|Hin]; [by subst|].
      specialize (IH Hin). destruct v as [q|]; simpl; rewrite IH; ring.
Qed.

Lemma numbers_app (T U : list (string * jsprop)) :
  numbers (T ++ U) = (numbers T ++ numbers U)%list.
Proof.
  induction T as [|[k [q|]] r IH]; simpl; [done| |done]. by rewrite IH.
Qed.

Lemma Tracker_totals_sum (l : list Tracker.Entry) :
  (∀ e, e ∈ l → inherited (Tracker.category e) = false) →
  sumQc (map snd (numbers (Tracker.categoryTotalsOf l)))
  = Tracker.monthTotalOf l.
Proof.
  unfold Tracker.categoryTotalsOf, Tracker.monthTotalOf.
  induction l as [|e l IH] using rev_ind; intros Hl; [done|].
  rewrite Tracker_totals_snoc, foldl_snoc.
  assert (inherited (Tracker.category e) = false) as He
    by (apply Hl, elem_of_app; right; by left).
  destruct (inherited_false _ He) as [Hp Hm].
  rewrite <- IH by (intros e' He'; apply Hl, elem_of_app; by left).
  unfold Tracker.accumulateWith. case_bool_decide as Hown.
  - apply Tracker_bump_sum; [apply Tracker_totals_sorted|done|done].
  - rewrite decide_False by done. rewrite bool_decide_eq_false_2 by done.
    rewrite numbers_app, map_app, sumQc_app. simpl. ring.
Qed.

Lemma Tracker_rounded_totals (rnd : Qc → Qc) (l : list Tracker.Entry) :
  exactSums rnd (map Tracker.amount l) →
  (∀ e, e ∈ l → inherited (Tracker.category e) = false) →
  Tracker.categoryTotalsOfWith (fadd rnd) l = Tracker.categoryTotalsOf l.
Proof.
  unfold Tracker.categoryTotalsOf.
  induction l as [|e l IH] using rev_ind; intros Hex Hl; [done|].
  assert (inherited (Tracker.category e) = false) as He
    by (apply Hl, elem_of_app; right; by left).
  rewrite !Tracker_totals_snoc, IH.
  2: { eapply exactSums_sublist; [|exact Hex].
       rewrite map_app. by apply sublist_inserts_r. }
  2: { intros e' He'. apply Hl, elem_of_app. by left. }
  set (T := Tracker.categoryTotalsOfWith Qcplus l).
  set (k := Tracker.category e) in *. set (a := Tracker.amount e).
  assert (∀ q, Tracker.totalOf k T = PNum q → rnd (q + a) = q + a) as Hq.
  { intros q Hv. unfold T in Hv. rewrite Tracker_totalOf_totals in Hv by done.
    injection Hv as <-.
    change (Tracker.monthTotalOfWith Qcplus ?x)
      with (foldl (λ sum e, sum + Tracker.amount e) 0 x).
    rewrite reduce_sum.
    assert (sumQc (map Tracker.amount (filter (λ e0, Tracker.category e0 = k) l))
              + a
            = sumQc (map Tracker.amount
                       (filter (λ e0, Tracker.category e0 = k) (l ++ [e])%list)))
      as ->.
    { rewrite list.filter_app, map_app, sumQc_app, filter_cons.
      rewrite decide_True by done. simpl. unfold a. ring. }
    apply Hex. apply fmap_sublist, sublist_filter. }
  unfold Tracker.accumulateWith. case_bool_decide as Hown.
  - apply Tracker_bump_ext. intros q Hown'. apply Hq.
    unfold Tracker.totalOf. by rewrite Hown'.
  - apply Tracker_ownProp_None in Hown.
    case_decide; [done|]. case_bool_decide; [done|].
    unfold fadd. rewrite (Hq 0); [done|].
    unfold Tracker.totalOf. rewrite Hown. by rewrite He.
Qed.

(** C2.  When no sum of some of the month's amounts is rounded, the month
    total is the sum of the amounts of the month's entries, and the category
    totals, summed over all categories, equal it: over the ten declared
    categories for the totals record of [Flat] and [ByMonth], and over the
    keys of the totals object of [Tracker], which are the category names
    carried by the entries of the month, when none of these names is one that
    objects inherit from [Object.prototype]. *)
Theorem category_totals_sum_to_month_total (rnd : Qc → Qc) :
  (∀ st : Flat.State,
      exactSums rnd (map Flat.amount (Flat.monthEntries st)) →
      Rounded.flatMonthTotal rnd st
      = sumQc (map Flat.amount
                 (filter (λ e, Flat.month e = Flat.s_month st)
                         (Flat.allEntries st)))
      ∧ sumOver CATEGORIES (Rounded.flatCategoryTotals rnd st)
        = Rounded.flatMonthTotal rnd st)
  ∧ (∀ st : ByMonth.State,
      exactSums rnd (map ByMonth.amount (ByMonth.expensesThisMonth st)) →
      Rounded.byMonthTotal rnd st
      = sumQc (map ByMonth.amount (ByMonth.expensesThisMonth st))
      ∧ sumOver CATEGORIES (Rounded.byMonthTotals rnd st)
        = Rounded.byMonthTotal rnd st)
  ∧ (∀ st : Tracker.State,
      exactSums rnd (map Tracker.amount (Tracker.entries st)) →
      (∀ e, e ∈ Tracker.entries st → inherited (Tracker.category e) = false) →
      Rounded.trackerMonthTotal rnd st
      = sumQc (map Tracker.amount (Tracker.entries st))
      ∧ (∀ k v, (k, v) ∈ Rounded.trackerCategoryTotals rnd st → ∃ q, v = PNum q)
      ∧ sumQc (map snd (numbers (Rounded.trackerCategoryTotals rnd st)))
        = Rounded.trackerMonthTotal rnd st
      ∧ ∀ k, k ∈ map fst (Rounded.trackerCategoryTotals rnd st)
             ↔ ∃ e, e ∈ Tracker.entries st ∧ Tracker.category e = k).
Proof.
  split; [|split].
  - intros st Hex.
    assert (Rounded.flatMonthTotal rnd st = Flat.monthTotal st) as Ht
      by (by apply rounded_reduce).
    split; [by rewrite Ht, Flat_monthTotal_sum|].
    rewrite Ht.
    rewrite (sumOver_ext _ _ (Flat.categoryTotals st))
      by (intros c; by apply rounded_totals).
    unfold Flat.categoryTotals, Flat.categoryTotalsOf, Flat.monthTotal.
    rewrite (sumOver_loop Flat.category Flat.amount)
      by auto using CATEGORIES_NoDup, CATEGORIES_all.
    rewrite sumOver_zero. ring.
  - intros st Hex.
    assert (Rounded.byMonthTotal rnd st = ByMonth.monthTotal st) as Ht
      by (by apply rounded_reduce).
    split; [rewrite Ht; apply reduce_sum|].
    rewrite Ht.
    rewrite (sumOver_ext _ _ (ByMonth.totalsByCategory st))
      by (intros c; by apply rounded_totals).
    unfold ByMonth.totalsByCategory, ByMonth.totalsOf, ByMonth.monthTotal.
    rewrite (sumOver_loop ByMonth.category ByMonth.amount)
      by auto using CATEGORIES_NoDup, CATEGORIES_all.
    rewrite sumOver_zero. ring.
  - intros st Hex Hcat.
    assert (Rounded.trackerMonthTotal rnd st = Tracker.monthTotalOf (Tracker.entries st))
      as Ht by (by apply (rounded_reduce rnd Tracker.amount)).
    unfold Rounded.trackerCategoryTotals.
    split; [rewrite Ht; apply reduce_sum|]. split; [|split].
    + intros k v Hkv.
      pose proof (Tracker_totals_sorted (fadd rnd) (Tracker.entries st)) as Hs.
      rewrite list.Forall_forall in Hs. specialize (Hs _ Hkv).
      unfold wellSorted in Hs. simpl in Hs.
      assert (k ∈ map fst (Tracker.categoryTotalsOfWith (fadd rnd) (Tracker.entries st)))
        as Hk by (apply list_elem_of_fmap; by exists (k, v)).
      apply Tracker_totals_keys in Hk as [_ (e & He & <-)].
      by rewrite (Hcat e He) in Hs.
    + rewrite Tracker_rounded_totals, Ht by done. by apply Tracker_totals_sum.
    + intros k. rewrite Tracker_totals_keys. split; [tauto|].
      intros (e & He & <-). split; [|by exists e].
      intros Hp. specialize (Hcat e He). by rewrite Hp in Hcat.
Qed.

Lemma category_totals_sum_to_month_total_witness :
  exactSums round53 (map Flat.amount (Flat.monthEntries flat_tie))
  ∧ sumOver CATEGORIES (Rounded.flatCategoryTotals round53 flat_tie)
    = Rounded.flatMonthTotal round53 flat_tie.
Proof.
  assert (exactSums round53 (map Flat.amount (Flat.monthEntries flat_tie))) as H
    by (apply exactSums_check; vm_compute; reflexivity).
  split; [exact H|].
  exact (proj2 (proj1 (category_totals_sum_to_month_total round53) flat_tie H)).
Defined.

(** With the amounts 0.2 (Food), 0.7 (Gas) and 0.1 (Food), shown in that
    order, the month total is 0.9999999999999999 while the category totals
    add up to 1; and an entry of [Tracker] whose category is ["__proto__"]
    leaves the totals object empty. *)
Lemma category_totals_differ_from_month_total :
  sumOver CATEGORIES (Rounded.flatCategoryTotals round53 flat_fractions)
  ≠ Rounded.flatMonthTotal round53 flat_fractions
  ∧ Rounded.sum round53
      (map (Rounded.flatCategoryTotals round53 flat_fractions) CATEGORIES)
    = Q2Qc 1
  ∧ Rounded.flatMonthTotal round53 flat_fractions
    = Q2Qc (9007199254740991 # 9007199254740992)
  ∧ Tracker.categoryTotals tracker_proto = []
  ∧ Tracker.monthTotal tracker_proto = Q2Qc 30.
Proof.
  split; [|split; [|split; [|split]]].
  - apply (bool_decide_eq_false_1 _). vm_compute. reflexivity.
  - apply Qc_is_canon. vm_compute. reflexivity.
  - apply Qc_is_canon. vm_compute. reflexivity.
  - reflexivity.
  - apply Qc_is_canon. vm_compute. reflexivity.
Qed.

(** ** The biggest category *)

Section Argmax.
Context {A B : Type} (tag : A → B) (val : A → Qc).

  (** A scan either keeps its accumulator, every value being at most the
      starting bound, or ends on the first element that carries the maximum. *)
Lemma scan_first_max (l : list A) (b : B) (bv : Qc) :
    (foldl (pick tag val) (b, bv) l = (b, bv) ∧ ∀ x, x ∈ l → val x ≤ bv)
    ∨ ∃ l1 c l2,
        l = (l1 ++ c :: l2)%list
        ∧ foldl (pick tag val) (b, bv) l = (tag c, val c)
        ∧ bv < val c
        ∧ (∀ x, x ∈ l1 → val x < val c)
        ∧ (∀ x, x ∈ l2 → val x ≤ val c).
  Proof.
    revert b bv. induction l as [|x r IH]; intros b bv; simpl.
    - left. split; [done|]. intros x Hx. by apply elem_of_nil in Hx.
    - unfold pick at 2 4. simpl. case_bool_decide as Hlt.
      + right. destruct (IH (tag x) (val x))
          as [[Hr Hall] | (l1 & c & l2 & -> & Hr & Hc & H1 & H2)].
        * exists [], x, r. repeat split; try done.
          intros y Hy. by apply elem_of_nil in Hy.
        * exists (x :: l1), c, l2. repeat split; try done.
          -- by etrans.
          -- intros y Hy. apply elem_of_cons in Hy as [-> | Hy]; auto.
      + apply Qcle_ngt in Hlt.
        destruct (IH b bv)
          as [[Hr Hall] | (l1 & c & l2 & -> & Hr & Hc & H1 & H2)].
        * left. split; [done|]. intros y Hy.
          apply elem_of_cons in Hy as [-> | Hy]; auto.
        * right. exists (x :: l1), c, l2. repeat split; try done.
          intros y Hy. apply elem_of_cons in Hy as [-> | Hy]; auto.
          by eapply Qcle_lt_trans.
  Qed.
End Argmax.

Lemma Flat_biggest_scan (t : Category → Qc) (l : list Category) acc :
  foldl (Flat.biggest_step t) acc l = foldl (pick Some t) acc l.
Proof. reflexivity. Qed.

Lemma flat_tie_biggest : Flat.biggestCategory flat_tie = Some (Gas, Q2Qc 30).
Proof. vm_compute. do 2 f_equal. Qed.

Lemma flat_tie_food : Flat.categoryTotals flat_tie Food = Q2Qc 30.
Proof. vm_compute. f_equal. Qed.

Lemma Flat_biggest_cases (t : Category → Qc) :
  (Flat.biggestOf t = None ∧ ∀ c, t c ≤ 0)
  ∨ ∃ l1 c l2,
      CATEGORIES = (l1 ++ c :: l2)%list
      ∧ Flat.biggestOf t = Some (c, t c)
      ∧ 0 < t c
      ∧ (∀ x, x ∈ l1 → t x < t c)
      ∧ (∀ x, x ∈ l2 → t x ≤ t c).
Proof.
  unfold Flat.biggestOf. rewrite Flat_biggest_scan.
  destruct (scan_first_max Some t CATEGORIES None 0)
    as [[-> Hall] | (l1 & c & l2 & Hl & -> & Hc & H1 & H2)].
  - left. split; [done|]. intros c. apply Hall, CATEGORIES_all.
  - right. by exists l1, c, l2.
Qed.

Lemma Tracker_biggest_cases (totals : list (string * Qc)) :
  (Tracker.biggestOf totals = Tracker.NoWinner ∧ ∀ p, p ∈ totals → p.2 ≤ 0)
  ∨ ∃ l1 c l2,
      totals = (l1 ++ c :: l2)%list
      ∧ Tracker.biggestOf totals = Tracker.Winner c.1 c.2
      ∧ 0 < c.2
      ∧ (∀ p, p ∈ l1 → p.2 < c.2)
      ∧ (∀ p, p ∈ l2 → p.2 ≤ c.2).
Proof.
  unfold Tracker.biggestOf.
  change (foldl _ ("—", 0) totals) with (foldl (pick fst snd) ("—", 0) totals).
  destruct (scan_first_max fst snd totals "—" 0)
    as [[-> Hall] | (l1 & c & l2 & Hl & -> & Hc & H1 & H2)].
  - left. split; [|done]. by rewrite bool_decide_eq_true_2.
  - right. exists l1, c, l2. repeat split; try done.
    rewrite bool_decide_eq_false_2; [done|]. by apply Qclt_nge.
Qed.

(** C3, as amended.  [biggestCategory] returns a category carrying the maximum
    total, and that total is greater than 0; among categories tied for the
    maximum it returns the one met first by the loop, which runs over
    [CATEGORIES] in declaration order in [Flat] (every category declared
    earlier has a strictly smaller total) and over the keys of the totals
    object in [Tracker]; it returns the no-winner result exactly when no
    total is greater than 0.  With Food and Gas both at 30 the result is Gas,
    which is declared before Food. *)
Theorem biggest_category_first_maximum :
  (∀ t : Category → Qc,
      (Flat.biggestOf t = None ↔ ∀ c, t c ≤ 0)
      ∧ ∀ c v, Flat.biggestOf t = Some (c, v) →
          v = t c ∧ 0 < v ∧ (∀ c', t c' ≤ v)
          ∧ ∃ l1 l2, CATEGORIES = (l1 ++ c :: l2)%list
                     ∧ ∀ c', c' ∈ l1 → t c' < v)
  ∧ (∀ totals : list (string * Qc),
      (Tracker.biggestOf totals = Tracker.NoWinner
       ↔ ∀ p, p ∈ totals → p.2 ≤ 0)
      ∧ ∀ c v, Tracker.biggestOf totals = Tracker.Winner c v →
          0 < v ∧ (∀ p, p ∈ totals → p.2 ≤ v)
          ∧ ∃ l1 l2, totals = (l1 ++ (c, v) :: l2)%list
                     ∧ ∀ p, p ∈ l1 → p.2 < v)
  ∧ Flat.biggestCategory flat_tie = Some (Gas, Q2Qc 30).
Proof.
  split; [|split; [|exact flat_tie_biggest]].
  - intros t.
    destruct (Flat_biggest_cases t)
      as [[Hn Hall] | (l1 & c & l2 & Hl & Hr & Hc & H1 & H2)].
    + split; [by split|]. intros c v Hv. congruence.
    + split.
      * split; [congruence|]. intros Hall. specialize (Hall c).
        by apply Qcle_ngt in Hall.
      * intros c0 v Hv. rewrite Hr in Hv. injection Hv as <- <-.
        repeat split; try done.
        -- intros c'. pose proof (CATEGORIES_all c') as Hin. rewrite Hl in Hin.
           apply elem_of_app in Hin as [Hin | Hin].
           ++ by apply Qclt_le_weak, H1.
           ++ apply elem_of_cons in Hin as [-> | Hin]; [done | by apply H2].
        -- by exists l1, l2.
  - intros totals.
    destruct (Tracker_biggest_cases totals)
      as [[Hn Hall] | (l1 & c & l2 & Hl & Hr & Hc & H1 & H2)].
    + split; [by split|]. intros c v Hv. congruence.
    + split.
      * split; [congruence|]. intros Hall.
        assert (c.2 ≤ 0) as Hle.
        { apply Hall. rewrite Hl. apply elem_of_app. right. by left. }
        by apply Qcle_ngt in Hle.
      * intros c0 v Hv. rewrite Hr in Hv. injection Hv as <- <-.
        repeat split; try done.
        -- intros p Hin. rewrite Hl in Hin.
           apply elem_of_app in Hin as [Hin | Hin].
           ++ by apply Qclt_le_weak, H1.
           ++ apply elem_of_cons in Hin as [-> | Hin]; [done | by apply H2].
        -- exists l1, l2. split; [|done]. by destruct c.
Qed.

Lemma biggest_category_first_maximum_witness :
  Flat.biggestOf (Flat.categoryTotals flat_tie) = Some (Gas, Q2Qc 30)
  ∧ Q2Qc 30 = Flat.categoryTotals flat_tie Gas
  ∧ 0 < Q2Qc 30.
Proof.
  split; [exact flat_tie_biggest|].
  destruct (proj2 (proj1 biggest_category_first_maximum
                     (Flat.categoryTotals flat_tie))
              Gas (Q2Qc 30) flat_tie_biggest) as (H1 & H2 & _).
  by split.
Defined.

(** C3 as stated fails: with Food and Gas tied at 30 the result is Gas, not
    Food, although ["Food"] comes before ["Gas"]. *)
Lemma biggest_category_tie_not_lexicographic :
  ¬ lexTieBreak flat_tie
  ∧ Flat.biggestCategory flat_tie ≠ Some (Food, Q2Qc 30).
Proof.
  split.
  - intros H. specialize (H Gas (Q2Qc 30) flat_tie_biggest Food flat_tie_food).
    apply H. reflexivity.
  - rewrite flat_tie_biggest. discriminate.
Qed.

(** ** Editing an entry *)

Lemma Flat_monthEntriesOf_elem (m : string) (l : list Flat.Entry) x :
  x ∈ Flat.monthEntriesOf m l ↔ Flat.month x = m ∧ x ∈ l.
Proof.
  unfold Flat.monthEntriesOf. by rewrite sort_elem_of, list_elem_of_filter.
Qed.

Lemma Flat_saveEdit_ok toNum (st : Flat.State) d eid a :
  Flat.editDraft st = Some d → Flat.editingId st = Some eid → eid ≠ "" →
  Number toNum (Flat.d_amount d) = JFin a → 0 < a →
  trim (Flat.d_what d) ≠ "" →
  Flat.saveEdit toNum st
  = Flat.idle (Flat.set_entries
      (map (λ x, if decide (Flat.id x = eid) then Flat.updated st d a else x)
           (Flat.allEntries st)) st).
Proof.
  intros Hd He Hne Ha Hpos Hw. unfold Flat.saveEdit. rewrite Hd, He.
  apply falsy_false in Hne, Hw. rewrite Hne, Ha, Hw.
  by rewrite guard_accepted.
Qed.

Lemma Tracker_addOrUpdate_ok toNum okAdd uuid (st : Tracker.State) a :
  toNum (Tracker.formAmount st) = JFin a → 0 < a →
  trim (Tracker.formWhat st) ≠ "" → trim (Tracker.formCategory st) ≠ "" →
  Tracker.formDate st ≠ "" →
  Tracker.formCategory st ∈ Tracker.categories st ∨ okAdd = true →
  let st' := Tracker.addOrUpdateExpense toNum okAdd uuid st in
        ((∃ eid, Tracker.editingId st = Some eid ∧ eid ≠ ""
                 ∧ Tracker.entries st'
                   = map (λ e, if decide (Tracker.id e = eid)
                               then Tracker.mkEntry (Tracker.id e)
                                      (Tracker.formDate st) a
                                      (Tracker.formCategory st)
                                      (trim (Tracker.formWhat st))
                               else e) (Tracker.entries st)
                 ∧ Tracker.editingId st' = None)
         ∨ ((Tracker.editingId st = None ∨ Tracker.editingId st = Some "")
            ∧ Tracker.entries st'
              = JS.sort Tracker.byDateDesc
                  (Tracker.mkEntry uuid (Tracker.formDate st) a
                     (Tracker.formCategory st) (trim (Tracker.formWhat st))
                   :: Tracker.entries st)
            ∧ Tracker.editingId st' = Tracker.editingId st))
        ∧ ((Tracker.formCategory st ∈ Tracker.categories st
            ∧ Tracker.categories st' = Tracker.categories st
            ∧ Tracker.st_categories (Tracker.storage st')
              = Tracker.st_categories (Tracker.storage st))
           ∨ ((Tracker.formCategory st ∉ Tracker.categories st)
              ∧ okAdd = true
              ∧ Tracker.categories st'
                = JS.sort Tracker.defaultCompare
                    (Tracker.categories st ++ [Tracker.formCategory st])%list
              ∧ Tracker.st_categories (Tracker.storage st')
                = Some (Tracker.categories st')))
        ∧ Tracker.monthValue st' = Tracker.monthValue st
        ∧ Tracker.budgets st' = Tracker.budgets st
        ∧ Tracker.st_entries (Tracker.storage st')
          = <[Tracker.monthKey st := Tracker.entries st']>
              (Tracker.st_entries (Tracker.storage st))
        ∧ Tracker.st_budgets (Tracker.storage st')
          = Tracker.st_budgets (Tracker.storage st)
        ∧ Tracker.formAmount st' = "" ∧ Tracker.formWhat st' = ""
        ∧ Tracker.formDate st' = Tracker.formDate st
        ∧ Tracker.formCategory st' = Tracker.formCategory st
        ∧ Tracker.newCategory st' = Tracker.newCategory st.
Proof.
  intros Ha Hpos W C D Hcat.
  unfold Tracker.addOrUpdateExpense. cbv zeta.
  change (Number toNum (VStr (Tracker.formAmount st)))
    with (toNum (Tracker.formAmount st)).
  pose proof W as W'. pose proof C as C'. pose proof D as D'.
  apply falsy_false in W', C', D'.
  rewrite Ha, guard_accepted, W', C', D' by done.
  set (cats' := JS.sort Tracker.defaultCompare _).
  assert (Tracker.formCategory st ∈ cats') as Hnew.
  { apply sort_elem_of, elem_of_app. right. by left. }
  set (ents := match _ with Some eid => map _ _ | None => JS.sort _ _ end).
  set (eid' := match _ with Some _ => None | None => Tracker.editingId st end).
  assert ((∃ eid, Tracker.editingId st = Some eid ∧ eid ≠ ""
             ∧ ents = map (λ e, if decide (Tracker.id e = eid)
                               then Tracker.mkEntry (Tracker.id e)
                                      (Tracker.formDate st) a
                                      (Tracker.formCategory st)
                                      (trim (Tracker.formWhat st))
                               else e) (Tracker.entries st)
             ∧ eid' = None)
          ∨ ((Tracker.editingId st = None ∨ Tracker.editingId st = Some "")
             ∧ ents = JS.sort Tracker.byDateDesc
                  (Tracker.mkEntry uuid (Tracker.formDate st) a
                     (Tracker.formCategory st) (trim (Tracker.formWhat st))
                   :: Tracker.entries st)
             ∧ eid' = Tracker.editingId st)) as Hents.
  { subst ents eid'.
    destruct (Tracker.editingId st) as [eid|] eqn:He; [|right; by auto].
    destruct (falsy eid) eqn:Hf.
    + right. apply falsy_true in Hf. subst eid. by auto.
    + left. exists eid. by apply falsy_false in Hf. }
  clearbody ents eid' cats'.
  case_bool_decide as Hin; simpl.
  - repeat split; try done. by left.
  - destruct Hcat as [Hc | ->]; [done|]. simpl.
    rewrite (bool_decide_eq_true_2 _ Hnew).
    repeat split; try done. right. by auto.
Qed.

(** C4, as amended.  A successful edit replaces the stored entry by the
    draft, which carries the identifier it was opened with, and returns to
    idle; the entry stays in the
    month that is on screen whatever its new date is.  In [Flat] the saved
    entry takes the selected month as its [month] field, is listed in the view
    of that month and in the view of no other month.  In [Tracker], where the
    category of the form is listed or the prompt to add it is accepted, the
    edited list is written to the record of the selected month and the record
    of every other month is left as it was. *)
Theorem edit_keeps_entry_in_selected_month :
  (∀ toNum (st : Flat.State) d eid a,
      Flat.editDraft st = Some d → Flat.editingId st = Some eid → eid ≠ "" →
      Number toNum (Flat.d_amount d) = JFin a → 0 < a →
      trim (Flat.d_what d) ≠ "" →
      let u := Flat.updated st d a in
      let st' := Flat.saveEdit toNum st in
      Flat.allEntries st'
      = map (λ x, if decide (Flat.id x = eid) then u else x) (Flat.allEntries st)
      ∧ Flat.editingId st' = None ∧ Flat.editDraft st' = None
      ∧ Flat.s_month st' = Flat.s_month st
      ∧ Flat.id u = Flat.d_id d
      ∧ (Flat.d_id d = eid → Flat.id u = eid)
      ∧ Flat.category u = Flat.d_category d
      ∧ Flat.date u = slice0 10 (Flat.d_date d)
      ∧ Flat.month u = Flat.s_month st
      ∧ ((∃ x, x ∈ Flat.allEntries st ∧ Flat.id x = eid) →
           u ∈ Flat.monthEntries st')
      ∧ (∀ m, m ≠ Flat.s_month st →
           u ∉ Flat.monthEntriesOf m (Flat.allEntries st')))
  ∧ (∀ toNum okAdd uuid (st : Tracker.State) eid a,
      Tracker.editingId st = Some eid → eid ≠ "" →
      toNum (Tracker.formAmount st) = JFin a → 0 < a →
      trim (Tracker.formWhat st) ≠ "" → trim (Tracker.formCategory st) ≠ "" →
      Tracker.formDate st ≠ "" →
      Tracker.formCategory st ∈ Tracker.categories st ∨ okAdd = true →
      let st' := Tracker.addOrUpdateExpense toNum okAdd uuid st in
      Tracker.entries st'
      = map (λ e, if decide (Tracker.id e = eid)
                  then Tracker.mkEntry (Tracker.id e) (Tracker.formDate st) a
                         (Tracker.formCategory st) (trim (Tracker.formWhat st))
                  else e) (Tracker.entries st)
      ∧ Tracker.editingId st' = None
      ∧ Tracker.monthValue st' = Tracker.monthValue st
      ∧ Tracker.st_entries (Tracker.storage st') !! Tracker.monthKey st
        = Some (Tracker.entries st')
      ∧ ∀ m, m ≠ Tracker.monthKey st →
          Tracker.st_entries (Tracker.storage st') !! m
          = Tracker.st_entries (Tracker.storage st) !! m).
Proof.
  split.
  - intros toNum st d eid a Hd He Hne Ha Hpos Hw u st'. subst st'.
    rewrite (Flat_saveEdit_ok toNum st d eid a) by done.
    unfold Flat.monthEntries. simpl. repeat split; try done.
    + intros (x & Hx & Hid). apply Flat_monthEntriesOf_elem. split; [done|].
      apply list_elem_of_fmap. exists x. split; [|done].
      by rewrite decide_True.
    + intros m Hm Hin. apply Flat_monthEntriesOf_elem in Hin as [Hmu _].
      by apply Hm.
  - intros toNum okAdd uuid st eid a He Hne Ha Hpos Hw Hc Hd Hin st'.
    destruct (Tracker_addOrUpdate_ok toNum okAdd uuid st a Ha Hpos Hw Hc Hd Hin)
      as (Hents & _ & Hm & _ & Hst & _).
    fold st' in Hents, Hm, Hst.
    destruct Hents as [(eid' & He' & _ & Hl & Hid) | ([He'|He'] & _)];
      [|congruence|congruence].
    rewrite He in He'. injection He' as <-.
    split; [exact Hl|]. split; [exact Hid|]. split; [exact Hm|].
    rewrite Hst. split; [by rewrite lookup_insert_eq|].
    intros m Hne'. by rewrite lookup_insert_ne.
Qed.

Lemma edit_keeps_entry_in_selected_month_witness :
  Flat.editDraft flat_redated ≠ None
  ∧ Flat.allEntries flat_moved
    = [Flat.mkEntry "e1" "2026-01" "2026-02-10" (Q2Qc 30) Food "Cafe" "Lunch"]
  ∧ Flat.editingId flat_moved = None.
Proof.
  split; [discriminate|].
  destruct (proj1 edit_keeps_entry_in_selected_month sampleToNumber
              flat_redated
              (Flat.mkDraft "e1" "2026-01" "2026-02-10"
                 (VNum (JFin (Q2Qc 30))) Food "Cafe" "Lunch")
              "e1" (Q2Qc 30) eq_refl eq_refl ltac:(discriminate) eq_refl
              eq_refl ltac:(discriminate))
    as (H1 & H2 & _).
  split; [exact H1 | exact H2].
Defined.

(** C4 as stated fails: after the date of the January lunch is edited into
    February, the entry is still listed under January and the February view
    does not contain it; the same happens in [Tracker], where the February
    record stays empty. *)
Lemma edit_across_months_does_not_move_entry :
  ¬ monthFollowsDate flat_moved "e1"
  ∧ Flat.monthEntriesOf "2026-02" (Flat.allEntries flat_moved) = []
  ∧ Flat.monthEntriesOf "2026-01" (Flat.allEntries flat_moved)
    = [Flat.mkEntry "e1" "2026-01" "2026-02-10" (Q2Qc 30) Food "Cafe" "Lunch"]
  ∧ Tracker.entries tracker_moved
    = [Tracker.mkEntry "e1" "2026-02-10" (Q2Qc 30) "Food" "Lunch"]
  ∧ Tracker.entries (Tracker.setMonthValue "2026-01-20" "2026-02" tracker_moved)
    = [].
Proof.
  split; [|repeat split; vm_compute; reflexivity].
  intros H.
  specialize (H (Flat.mkEntry "e1" "2026-01" "2026-02-10" (Q2Qc 30) Food
                   "Cafe" "Lunch")).
  assert (Flat.mkEntry "e1" "2026-01" "2026-02-10" (Q2Qc 30) Food "Cafe" "Lunch"
          ∈ Flat.allEntries flat_moved) as Hin by (vm_compute; left).
  specialize (H Hin eq_refl).
  apply Flat_monthEntriesOf_elem in H as [Hm _]. discriminate Hm.
Qed.

(** ** Month switches and the editing state *)

Lemma Flat_setMonth_frame m (st : Flat.State) :
  Flat.editingId (Flat.setMonth m st) = Flat.editingId st
  ∧ Flat.editDraft (Flat.setMonth m st) = Flat.editDraft st
  ∧ Flat.allEntries (Flat.setMonth m st) = Flat.allEntries st
  ∧ Flat.f_amount (Flat.setMonth m st) = Flat.f_amount st
  ∧ Flat.f_what (Flat.setMonth m st) = Flat.f_what st.
Proof. unfold Flat.setMonth. by case_decide. Qed.

(** C5, as amended.  In [Flat] a change of the selected month leaves the
    editing state, the draft, the entries and the amount and description of
    the add form as they are.  In [Tracker] a change to a different month key
    ends the editing state and resets the form: today's date, blank amount
    and blank description; selecting the month that is already on screen
    changes nothing. *)
Theorem month_switch_and_editing :
  (∀ m (st : Flat.State),
      Flat.editingId (Flat.setMonth m st) = Flat.editingId st
      ∧ Flat.editDraft (Flat.setMonth m st) = Flat.editDraft st
      ∧ Flat.allEntries (Flat.setMonth m st) = Flat.allEntries st
      ∧ Flat.f_amount (Flat.setMonth m st) = Flat.f_amount st
      ∧ Flat.f_what (Flat.setMonth m st) = Flat.f_what st)
  ∧ (∀ today v (st : Tracker.State),
      v ≠ Tracker.monthValue st →
      let st' := Tracker.setMonthValue today v st in
      Tracker.editingId st' = None
      ∧ Tracker.formAmount st' = ""
      ∧ Tracker.formWhat st' = ""
      ∧ Tracker.formDate st' = today
      ∧ Tracker.monthValue st' = v)
  ∧ (∀ today (st : Tracker.State),
      Tracker.setMonthValue today (Tracker.monthValue st) st = st).
Proof.
  split; [exact Flat_setMonth_frame|]. split.
  - intros today v st Hv. unfold Tracker.setMonthValue.
    by rewrite decide_False.
  - intros today st. unfold Tracker.setMonthValue. by rewrite decide_True.
Qed.

Lemma month_switch_and_editing_witness :
  "2026-02" ≠ Tracker.monthValue tracker_editing
  ∧ Tracker.editingId tracker_editing = Some "e1"
  ∧ Tracker.editingId
      (Tracker.setMonthValue "2026-01-20" "2026-02" tracker_editing) = None.
Proof.
  assert ("2026-02" ≠ Tracker.monthValue tracker_editing) as H by discriminate.
  split; [exact H|]. split; [reflexivity|].
  exact (proj1 (proj1 (proj2 month_switch_and_editing)
                  "2026-01-20" "2026-02" tracker_editing H)).
Defined.

(** C5 as stated fails in [Tracker]: a month switch made while the lunch is
    being edited leaves the editing state empty. *)
Lemma month_switch_exits_editing :
  ¬ editingSurvivesMonthSwitch tracker_editing.
Proof.
  intros H. specialize (H "2026-01-20" "2026-02" "e1" eq_refl).
  vm_compute in H. discriminate H.
Qed.

(** ** Deleting the entry that is being edited *)

Lemma Flat_delete_exits_editing i (st : Flat.State) :
  Flat.editingId (Flat.deleteEntry i st) ≠ Some i
  ∧ (Flat.editingId st = Some i →
       Flat.editingId (Flat.deleteEntry i st) = None
       ∧ Flat.editDraft (Flat.deleteEntry i st) = None)
  ∧ ∀ e, e ∈ Flat.allEntries (Flat.deleteEntry i st) → Flat.id e ≠ i.
Proof.
  unfold Flat.deleteEntry. case_decide as He; simpl; repeat split; try done.
  all: intros e Hin; by apply list_elem_of_filter in Hin as [? _].
Qed.

(** C6, on the code.  [Tracker.deleteEntry] never touches the editing state:
    deleting the entry that is open in the form removes it from the list and
    leaves [editingId] pointing at it.  ([Flat.deleteEntry] does clear the
    editing state, see [Flat_delete_exits_editing].) *)
Theorem tracker_delete_keeps_editing_id :
  (∀ ok i (st : Tracker.State),
      Tracker.editingId (Tracker.deleteEntry ok i st) = Tracker.editingId st)
  ∧ Tracker.editingId tracker_editing = Some "e1"
  ∧ Tracker.editingId (Tracker.deleteEntry true "e1" tracker_editing)
    = Some "e1"
  ∧ Tracker.entries (Tracker.deleteEntry true "e1" tracker_editing) = [].
Proof.
  split; [|by vm_compute].
  intros ok i st. unfold Tracker.deleteEntry. by destruct ok.
Qed.

(** ** Removing a category *)

Lemma Tracker_totalOf_spent k (l : list Tracker.Entry) :
  inherited k = false →
  Tracker.totalOf k (Tracker.categoryTotalsOf l) = PNum (spentOn k l).
Proof. apply (Tracker_totalOf_totals Qcplus). Qed.

Lemma Tracker_totalOf_junk add k (l : list Tracker.Entry) :
  inherited k = true →
  Tracker.totalOf k (Tracker.categoryTotalsOfWith add l) = PJunk.
Proof.
  intros Hk. unfold Tracker.totalOf. rewrite Hk.
  destruct (Tracker.ownProp k _) as [v|] eqn:E; [|done].
  apply Tracker_ownProp_elem in E.
  pose proof (Tracker_totals_sorted add l) as Hs.
  rewrite list.Forall_forall in Hs. specialize (Hs _ E).
  unfold wellSorted in Hs. simpl in Hs. by rewrite Hk in Hs.
Qed.

(** C7, as amended.  A confirmed [removeCategory(name)] removes [name] from
    the category list and from the budget table of the month on screen, and
    writes that table to the record of that month; the budget records of all
    other months are left as they are.  Entries, in memory and stored, are
    untouched, so the category totals are unchanged and the total under
    [name] is still the sum of the amounts of the entries filed under it,
    added in the order of the list, whatever the rounding of the additions
    is; but under a name that objects inherit from [Object.prototype] the
    totals never hold a number.  A declined prompt changes nothing. *)
Theorem remove_category_effect :
  (∀ name (st : Tracker.State),
      let st' := Tracker.removeCategory true name st in
      Tracker.categories st' = filter (λ c, c ≠ name) (Tracker.categories st)
      ∧ (name ∉ Tracker.categories st')
      ∧ Tracker.budgets st' = delete name (Tracker.budgets st)
      ∧ Tracker.budgets st' !! name = None
      ∧ Tracker.st_budgets (Tracker.storage st') !! Tracker.monthKey st
        = Some (delete name (Tracker.budgets st))
      ∧ (∀ m, m ≠ Tracker.monthKey st →
           Tracker.st_budgets (Tracker.storage st') !! m
           = Tracker.st_budgets (Tracker.storage st) !! m)
      ∧ Tracker.entries st' = Tracker.entries st
      ∧ Tracker.st_entries (Tracker.storage st')
        = Tracker.st_entries (Tracker.storage st)
      ∧ Tracker.categoryTotals st' = Tracker.categoryTotals st
      ∧ (∀ rnd,
           Rounded.trackerCategoryTotals rnd st'
           = Rounded.trackerCategoryTotals rnd st)
      ∧ (∀ rnd,
           inherited name = false →
           Tracker.totalOf name (Rounded.trackerCategoryTotals rnd st')
           = PNum (Tracker.monthTotalOfWith (fadd rnd)
                     (filter (λ e, Tracker.category e = name)
                             (Tracker.entries st))))
      ∧ (∀ rnd,
           inherited name = true →
           Tracker.totalOf name (Rounded.trackerCategoryTotals rnd st')
           = PJunk))
  ∧ (∀ name (st : Tracker.State), Tracker.removeCategory false name st = st).
Proof.
  split; [|done].
  intros name st st'. subst st'. unfold Tracker.categoryTotals.
  simpl. unfold Tracker.monthKey. simpl. repeat split.
  - intros Hin. by apply list_elem_of_filter in Hin as [? _].
  - apply lookup_delete_eq.
  - apply lookup_insert_eq.
  - intros m Hm. by rewrite lookup_insert_ne.
  - intros rnd. apply (Tracker_totalOf_totals (fadd rnd)).
  - intros rnd. apply (Tracker_totalOf_junk (fadd rnd)).
Qed.

Lemma remove_category_effect_witness :
  "2025-12" ≠ Tracker.monthKey tracker_jan
  ∧ Tracker.st_budgets
      (Tracker.storage (Tracker.removeCategory true "Food" tracker_jan))
    !! "2025-12"
    = Tracker.st_budgets (Tracker.storage tracker_jan) !! "2025-12".
Proof.
  assert ("2025-12" ≠ Tracker.monthKey tracker_jan) as H by discriminate.
  split; [exact H|].
  destruct (proj1 remove_category_effect "Food" tracker_jan)
    as (_ & _ & _ & _ & _ & Hother & _).
  exact (Hother "2025-12" H).
Defined.

(** C7 as stated fails: after Food is removed while January 2026 is on
    screen, the stored budget table of December 2025 still holds the budget
    of 80 for Food. *)
Lemma remove_category_keeps_other_months_budget :
  ¬ budgetsPurged "Food" (Tracker.removeCategory true "Food" tracker_jan)
  ∧ (Tracker.st_budgets
       (Tracker.storage (Tracker.removeCategory true "Food" tracker_jan))
     !! "2025-12") ≫= (λ b, b !! "Food") = Some (Q2Qc 80).
Proof.
  assert ((Tracker.st_budgets
             (Tracker.storage (Tracker.removeCategory true "Food" tracker_jan))
           !! "2025-12") ≫= (λ b, b !! "Food") = Some (Q2Qc 80)) as Hk
    by (vm_compute; reflexivity).
  split; [|exact Hk]. intros H.
  destruct (Tracker.st_budgets _ !! "2025-12") as [b|] eqn:Hb; [|discriminate].
  simpl in Hk. rewrite (H _ _ Hb) in Hk. discriminate.
Qed.

(** ** Budget progress *)

Lemma clamp_range (n lo hi : Qc) : lo ≤ hi → lo ≤ Tracker.clamp n lo hi ≤ hi.
Proof.
  intros H. unfold Tracker.clamp, Math_max, Math_min.
  repeat case_bool_decide; split; try done.
  all: try (by apply Qclt_le_weak); try (by apply Qcle_ngt).
Qed.







(** ** Display order *)

Section SortStable.
Context {A : Type} (cmp : A → A → Z) (P : A → Prop) `{!∀ x, Decision (P x)}.

(** Elements selected by [P] are never passed by one another. *)
Hypothesis P_ties : ∀ x y, P x → P y → (cmp x y ≤ 0)%Z.

Lemma insert_sorted_filter (x : A) (l : list A) :
  filter P (JS.insert_sorted cmp x l)
  = if decide (P x) then x :: filter P l else filter P l.
Proof.
  induction l as [|y r IH]; simpl.
  - rewrite filter_cons, filter_nil. done.
  - destruct (cmp x y <=? 0)%Z eqn:E.
    + by rewrite filter_cons.
    + apply Z.leb_gt in E. rewrite !(filter_cons _ y), IH.
      destruct (decide (P x)) as [Hx|Hx]; [|done].
      destruct (decide (P y)) as [Hy|Hy]; [|done].
      specialize (P_ties x y Hx Hy). lia.
Qed.

Lemma sort_filter (l : list A) : filter P (JS.sort cmp l) = filter P l.
Proof.
  induction l as [|x l IH]; simpl; [done|].
  by rewrite insert_sorted_filter, filter_cons, IH.
Qed.
End SortStable.

Lemma StronglySorted_weaken {A : Type} (R S : A → A → Prop) (l : list A) :
  (∀ x y, R x y → S x y) → StronglySorted R l → StronglySorted S l.
Proof.
  intros HRS. induction 1 as [|x l Hs IH Hall]; constructor; [done|].
  revert Hall. apply List.Forall_impl. auto.
Qed.

Lemma localeCompare_le0 (a b : string) :
  (localeCompare a b ≤ 0)%Z ↔ str_le a b.
Proof.
  unfold localeCompare, str_le.
  destruct (String.compare a b); split; intros H; try done; try lia.
Qed.

Lemma Flat_before_dateDesc (a b : Flat.Entry) :
  before (λ a b, localeCompare (Flat.date b) (Flat.date a)) a b ↔ dateDesc a b.
Proof. apply localeCompare_le0. Qed.

Lemma newestFirst_before (a b : ByMonth.Expense) :
  before ByMonth.newestFirst a b ↔ newestOrder a b.
Proof.
  unfold before, ByMonth.newestFirst, newestOrder.
  destruct (decide (ByMonth.date a ≠ ByMonth.date b)) as [Hd|Hd].
  - destruct (str_lt _ _) eqn:E.
    + apply StrOrd.ltb_spec in E. split; [lia|]. intros [H|[H _]]; [|done].
      rewrite StrOrd.compare_flip, E in H. discriminate.
    + split; [intros _|lia]. left.
      assert (String.compare (ByMonth.date a) (ByMonth.date b) ≠ Lt) as Hn
        by (intros H; apply StrOrd.ltb_spec in H; congruence).
      apply StrOrd.not_lt_le, StrOrd.le_cases in Hn as [H| H]; [done|].
      by destruct Hd.
  - apply dec_stable in Hd.
    destruct (str_lt (ByMonth.id a) (ByMonth.id b)) eqn:E.
    + apply StrOrd.ltb_spec in E. split; [lia|]. intros [H|[_ H]].
      * rewrite Hd, StrOrd.compare_refl in H. discriminate.
      * apply StrOrd.not_lt_le in H. by destruct H.
    + split; [intros _|lia]. right. split; [done|].
      apply StrOrd.not_lt_le. intros H. apply StrOrd.ltb_spec in H. congruence.
Qed.

Lemma newestOrder_total (a b : ByMonth.Expense) :
  newestOrder a b ∨ newestOrder b a.
Proof.
  unfold newestOrder.
  destruct (String.compare (ByMonth.date b) (ByMonth.date a)) eqn:E.
  - apply OrderedTypeEx.String_as_OT.cmp_eq in E.
    destruct (StrOrd.le_total (ByMonth.id b) (ByMonth.id a)); auto.
  - auto.
  - right. left. rewrite StrOrd.compare_flip, E. done.
Qed.

Lemma newestOrder_trans (a b c : ByMonth.Expense) :
  newestOrder a b → newestOrder b c → newestOrder a c.
Proof.
  unfold newestOrder. intros [H1|[H1 H1']] [H2|[H2 H2']].
  - left. eapply StrOrd.lt_trans; eassumption.
  - left. by rewrite <- H2.
  - left. by rewrite H1.
  - right. split; [congruence|]. eapply StrOrd.le_trans; eassumption.
Qed.

Lemma byDateDesc_before (a b : Tracker.Entry) :
  before Tracker.byDateDesc a b ↔ rowDateDesc a b.
Proof.
  unfold before, Tracker.byDateDesc, rowDateDesc.
  destruct (str_lt _ _) eqn:E.
  - apply StrOrd.ltb_spec in E. split; [lia|]. intros H.
    apply StrOrd.not_lt_le in H. by destruct H.
  - split; [intros _|lia]. apply StrOrd.not_lt_le. intros H.
    apply StrOrd.ltb_spec in H. congruence.
Qed.

(** C9, as amended.  The month list of [Flat], of [ByMonth] and of [Tracker]
    is a rearrangement of the entries of the month, sorted by descending date
    (by code units).  [ByMonth] orders entries of one date by descending
    identifier; [Flat] keeps entries of one date in the order in which they
    are stored. *)
Theorem month_list_sorted_by_date_descending :
  (∀ m (l : list Flat.Entry),
      StronglySorted dateDesc (Flat.monthEntriesOf m l)
      ∧ Flat.monthEntriesOf m l ≡ₚ filter (λ e, Flat.month e = m) l
      ∧ ∀ d, filter (λ e, Flat.date e = d) (Flat.monthEntriesOf m l)
             = filter (λ e, Flat.date e = d)
                      (filter (λ e, Flat.month e = m) l))
  ∧ (∀ l : list ByMonth.Expense,
      StronglySorted newestOrder (ByMonth.sortedOf l)
      ∧ ByMonth.sortedOf l ≡ₚ l)
  ∧ (∀ st : Tracker.State,
      StronglySorted rowDateDesc (Tracker.tableRows st)
      ∧ Tracker.tableRows st ≡ₚ Tracker.entries st).
Proof.
  split; [|split].
  - intros m l. unfold Flat.monthEntriesOf. split; [|split].
    + eapply StronglySorted_weaken; [apply Flat_before_dateDesc|].
      apply sort_sorted.
      * intros x y. rewrite !Flat_before_dateDesc. apply StrOrd.le_total.
      * intros x y z. rewrite !Flat_before_dateDesc. unfold dateDesc.
        intros H1 H2. eapply StrOrd.le_trans; eassumption.
    + apply sort_perm.
    + intros d. apply sort_filter. intros x y Hx Hy.
      apply localeCompare_le0. rewrite Hx, Hy. apply StrOrd.le_refl.
  - intros l. unfold ByMonth.sortedOf. split; [|apply sort_perm].
    eapply StronglySorted_weaken; [apply newestFirst_before|].
    apply sort_sorted.
    + intros x y. rewrite !newestFirst_before. apply newestOrder_total.
    + intros x y z. rewrite !newestFirst_before. apply newestOrder_trans.
  - intros st. unfold Tracker.tableRows. split; [|apply sort_perm].
    eapply StronglySorted_weaken; [apply byDateDesc_before|].
    apply sort_sorted.
    + intros x y. rewrite !byDateDesc_before. apply StrOrd.le_total.
    + intros x y z. rewrite !byDateDesc_before. unfold rowDateDesc.
      intros H1 H2. eapply StrOrd.le_trans; eassumption.
Qed.

(** C9 as stated fails in [Flat]: two entries of the same day stored as
    [a1], [b2] are listed in that order, the smaller identifier first. *)
Lemma same_day_entries_not_ordered_by_id :
  Flat.id <$> Flat.monthEntries flat_same_day = ["a1"; "b2"]
  ∧ ¬ idTieBreak (Flat.monthEntries flat_same_day).
Proof.
  split; [by vm_compute|]. intros H.
  specialize (H 0%nat 1%nat
    (Flat.mkEntry "a1" "2026-01" "2026-01-15" (Q2Qc 12) Food "Cafe" "Lunch")
    (Flat.mkEntry "b2" "2026-01" "2026-01-15" (Q2Qc 40) Gas "Station" "Fuel")
    eq_refl eq_refl ltac:(lia) eq_refl).
  by apply H.
Qed.

(** ** Clearing a month *)

Lemma filter_filter_other {A : Type} (f : A → string) (m m' : string)
    (l : list A) :
  m' ≠ m →
  filter (λ e, f e = m') (filter (λ e, f e ≠ m) l) = filter (λ e, f e = m') l.
Proof.
  intros Hm. induction l as [|x l IH]; [done|].
  rewrite !(filter_cons _ x).
  destruct (decide (f x ≠ m)) as [Hx|Hx].
  - rewrite filter_cons. by rewrite IH.
  - apply dec_stable in Hx. rewrite decide_False by congruence. exact IH.
Qed.

(** C10.  Clearing the month on screen leaves everything of other months in
    place.  In [Flat] every entry whose month differs stays in the list, and
    the entries of any other month are the same, in the same order.  In
    [ByMonth] the array of every other month key is unchanged.  In [Tracker]
    the stored entries and budgets of every other month key, the category
    list and its stored copy are unchanged. *)
Theorem clear_month_preserves_other_months :
  (∀ (st : Flat.State),
      (∀ e, e ∈ Flat.allEntries st → Flat.month e ≠ Flat.s_month st →
            e ∈ Flat.allEntries (Flat.clearMonth st))
      ∧ (∀ m, m ≠ Flat.s_month st →
            filter (λ e, Flat.month e = m) (Flat.allEntries (Flat.clearMonth st))
            = filter (λ e, Flat.month e = m) (Flat.allEntries st)))
  ∧ (∀ ok (st : ByMonth.State) m,
      m ≠ ByMonth.s_month st →
      ByMonth.data (ByMonth.clearMonth ok st) !! m = ByMonth.data st !! m)
  ∧ (∀ ok (st : Tracker.State),
      Tracker.categories (Tracker.clearMonth ok st) = Tracker.categories st
      ∧ Tracker.st_categories (Tracker.storage (Tracker.clearMonth ok st))
        = Tracker.st_categories (Tracker.storage st)
      ∧ ∀ m, m ≠ Tracker.monthKey st →
          Tracker.st_entries (Tracker.storage (Tracker.clearMonth ok st)) !! m
          = Tracker.st_entries (Tracker.storage st) !! m
          ∧ Tracker.st_budgets (Tracker.storage (Tracker.clearMonth ok st)) !! m
            = Tracker.st_budgets (Tracker.storage st) !! m).
Proof.
  split; [|split].
  - intros st. unfold Flat.clearMonth. simpl. split.
    + intros e He Hm. by apply list_elem_of_filter.
    + intros m Hm. by apply filter_filter_other.
  - intros ok st m Hm. unfold ByMonth.clearMonth. destruct ok; [|done].
    simpl. by rewrite lookup_delete_ne.
  - intros ok st. unfold Tracker.clearMonth. destruct ok; [|done].
    simpl. unfold Tracker.monthKey. simpl. repeat split.
    + by rewrite lookup_insert_ne, lookup_delete_ne.
    + by rewrite lookup_insert_ne, lookup_delete_ne.
Qed.

Lemma clear_month_preserves_other_months_witness :
  "2025-12" ≠ Flat.s_month flat_two_months
  ∧ filter (λ e, Flat.month e = "2025-12")
      (Flat.allEntries (Flat.clearMonth flat_two_months))
    = filter (λ e, Flat.month e = "2025-12") (Flat.allEntries flat_two_months).
Proof.
  assert ("2025-12" ≠ Flat.s_month flat_two_months) as H by discriminate.
  split; [exact H|].
  exact (proj2 (proj1 clear_month_preserves_other_months flat_two_months)
           "2025-12" H).
Defined.

(** * Further properties of the handlers *)

(** ** Strings *)

Lemma append_cons (x : ascii) (a b : string) :
  String x a ++ b = String x (a ++ b).
Proof. reflexivity. Qed.

Lemma append_assoc (a b c : string) : (a ++ b) ++ c = a ++ (b ++ c).
Proof. induction a as [|x a IH]; [done|]. by rewrite !append_cons, IH. Qed.

Lemma append_length (a b : string) :
  String.length (a ++ b) = (String.length a + String.length b)%nat.
Proof.
  induction a as [|x a IH]; [done|]. rewrite append_cons. simpl.
  by rewrite IH.
Qed.

Lemma trimStart_unfold (s : string) :
  trimStart s = match dropSpace s with Some r => trimStart r | None => s end.
Proof.
  destruct s as [|c1 [|c2 [|c3 r3]]]; simpl; try done;
    repeat (case_match; try done).
Qed.

Lemma dropSpace_length (s r : string) :
  dropSpace s = Some r → (String.length r < String.length s)%nat.
Proof.
  destruct s as [|c1 [|c2 [|c3 r3]]]; simpl; try done;
    repeat (case_match; try done); intros [= <-]; simpl; lia.
Qed.

Lemma trimStart_clean (s : string) : dropSpace (trimStart s) = None.
Proof.
  remember (String.length s) as n eqn:Hn.
  revert s Hn. induction (lt_wf n) as [n _ IH]. intros s ->.
  rewrite trimStart_unfold. destruct (dropSpace s) as [r|] eqn:E; [|done].
  eapply IH; [|reflexivity]. by apply dropSpace_length.
Qed.

Lemma trimStart_fixed (s : string) : dropSpace s = None → trimStart s = s.
Proof. intros E. by rewrite trimStart_unfold, E. Qed.

Lemma dropSpace_app (p w r : string) :
  dropSpace p = Some r → dropSpace (p ++ w) = Some (r ++ w).
Proof.
  destruct p as [|c1 [|c2 [|c3 r3]]]; simpl; try done;
    rewrite ?append_cons;
    repeat (case_match; try done); try (intros [= <-]; done).
Qed.

Lemma trimEnd_idem (s : string) : trimEnd (trimEnd s) = trimEnd s.
Proof.
  induction s as [|c r IH]; [done|].
  cbn [trimEnd]. cbv zeta.
  destruct (whole_space (String c (trimEnd r))) eqn:E; [done|].
  cbn [trimEnd]. cbv zeta. by rewrite IH, E.
Qed.

Lemma trimEnd_prefix (s : string) : ∃ w, s = trimEnd s ++ w.
Proof.
  induction s as [|c r [w IH]]; [by exists ""|].
  cbn [trimEnd]. cbv zeta.
  destruct (whole_space (String c (trimEnd r))).
  - by exists (String c r).
  - exists w. rewrite append_cons. by rewrite <- IH.
Qed.

Lemma trim_idem (s : string) : trim (trim s) = trim s.
Proof.
  unfold trim. set (t := trimStart s).
  assert (dropSpace (trimEnd t) = None) as Hc.
  { destruct (dropSpace (trimEnd t)) as [r|] eqn:E; [|done].
    destruct (trimEnd_prefix t) as [w Hw].
    pose proof (dropSpace_app _ w _ E) as E'. rewrite <- Hw in E'.
    unfold t in E'. by rewrite trimStart_clean in E'. }
  rewrite (trimStart_fixed _ Hc). apply trimEnd_idem.
Qed.

Lemma slice0_app (m s : string) : slice0 (String.length m) (m ++ s) = m.
Proof.
  unfold slice0. induction m as [|c m IH]; simpl.
  - by destruct s.
  - by rewrite IH.
Qed.

(** ** Sums *)

Lemma sumQc_nonneg (l : list Qc) : Forall (λ x, 0 < x) l → 0 ≤ sumQc l.
Proof.
  induction 1 as [|x l Hx _ IH]; simpl; [done|].
  rewrite <- (Qcplus_0_l 0). apply Qcplus_le_compat; [by apply Qclt_le_weak|done].
Qed.

Lemma sumQc_pos (l : list Qc) :
  Forall (λ x, 0 < x) l → l ≠ [] → 0 < sumQc l.
Proof.
  intros Hall Hne. destruct Hall as [|x l Hx Hl]; [done|]. simpl.
  apply Qclt_le_trans with (x + 0); [by rewrite Qcplus_0_r|].
  apply Qcplus_le_compat; [done|]. by apply sumQc_nonneg.
Qed.

(** ** [Flat]: adding *)

Lemma guard_false_inv (n : jsnum) :
  (negb (isFinite n) || le0 n)%bool = false → ∃ a, n = JFin a ∧ 0 < a.
Proof.
  destruct n as [q| | |]; simpl; try done.
  intros H. apply bool_decide_eq_false in H. exists q. split; [done|].
  by apply Qclt_nge.
Qed.

Lemma Flat_addExpense_cases toNum uuid (st : Flat.State) :
  Flat.addExpense toNum uuid st = st
  ∨ ∃ a, toNum (Flat.f_amount st) = JFin a ∧ 0 < a
         ∧ trim (Flat.f_what st) ≠ ""
         ∧ Flat.addExpense toNum uuid st
           = Flat.mkState
               (Flat.mkEntry uuid (Flat.s_month st) (Flat.f_date st) a
                  (Flat.f_category st) (trim (Flat.f_location st))
                  (trim (Flat.f_what st)) :: Flat.allEntries st)
               (Flat.s_month st) (Flat.f_date st) "" Fun "" ""
               (Flat.editingId st) (Flat.editDraft st).
Proof.
  unfold Flat.addExpense. simpl.
  destruct (negb (isFinite _) || le0 _)%bool eqn:G; [by left|].
  destruct (falsy (trim (Flat.f_what st))) eqn:W; [by left|].
  apply guard_false_inv in G as (a & Ha & Hpos). apply falsy_false in W.
  right. exists a. by rewrite Ha.
Qed.

Lemma Flat_add_ok toNum uuid (st : Flat.State) a :
  toNum (Flat.f_amount st) = JFin a → 0 < a → trim (Flat.f_what st) ≠ "" →
  Flat.addExpense toNum uuid st
  = Flat.mkState
      (Flat.mkEntry uuid (Flat.s_month st) (Flat.f_date st) a
         (Flat.f_category st) (trim (Flat.f_location st))
         (trim (Flat.f_what st)) :: Flat.allEntries st)
      (Flat.s_month st) (Flat.f_date st) "" Fun "" ""
      (Flat.editingId st) (Flat.editDraft st).
Proof.
  intros Ha Hpos Hw. unfold Flat.addExpense. simpl.
  apply falsy_false in Hw. by rewrite Ha, guard_accepted, Hw.
Qed.

Lemma Flat_categoryTotals_sum (st : Flat.State) (c : Category) :
  Flat.categoryTotals st c
  = sumQc (map Flat.amount
             (filter (λ e, Flat.category e = c)
                (filter (λ e, Flat.month e = Flat.s_month st)
                        (Flat.allEntries st)))).
Proof.
  unfold Flat.categoryTotals, Flat.categoryTotalsOf, Flat.monthEntries.
  rewrite (addTo_loop_total Flat.category Flat.amount). unfold zeroTotals.
  rewrite Qcplus_0_l. apply sumQc_perm. by rewrite Flat_monthEntries_perm.
Qed.

(** X1.  A valid add in [Flat] puts one new entry at the head of the list: the
    drawn identifier, the month on screen (not the month of the date), the
    form date, the parsed amount, the form category, location and description
    trimmed.  The entry is listed in the view of the month on screen, which
    grows by one; amount, location and description of the form are blanked,
    the category goes back to Fun, the date and the editing state stay. *)
Theorem flat_valid_add_prepends_entry toNum uuid (st : Flat.State) a :
  toNum (Flat.f_amount st) = JFin a → 0 < a → trim (Flat.f_what st) ≠ "" →
  let st' := Flat.addExpense toNum uuid st in
  let entry :=
    Flat.mkEntry uuid (Flat.s_month st) (Flat.f_date st) a (Flat.f_category st)
                 (trim (Flat.f_location st)) (trim (Flat.f_what st)) in
  Flat.allEntries st' = entry :: Flat.allEntries st
  ∧ entry ∈ Flat.monthEntries st'
  ∧ length (Flat.monthEntries st') = S (length (Flat.monthEntries st))
  ∧ (Flat.f_amount st', Flat.f_category st', Flat.f_location st',
     Flat.f_what st') = ("", Fun, "", "")
  ∧ Flat.f_date st' = Flat.f_date st
  ∧ Flat.s_month st' = Flat.s_month st
  ∧ Flat.editingId st' = Flat.editingId st
  ∧ Flat.editDraft st' = Flat.editDraft st.
Proof.
  intros Ha Hpos Hw st' entry. subst st'.
  rewrite (Flat_add_ok toNum uuid st a) by done. simpl.
  split; [done|]. split; [|split; [|done]].
  - apply Flat_monthEntriesOf_elem. split; [done|]. by left.
  - unfold Flat.monthEntries. simpl.
    rewrite !Flat_monthEntries_perm, filter_cons, decide_True by done. done.
Qed.

Lemma flat_valid_add_prepends_entry_witness :
  Flat.allEntries (Flat.addExpense sampleToNumber "u7" flat_ready)
  = Flat.mkEntry "u7" "2026-01" "2026-01-20" (Q2Qc (25 # 2)) Food "" "Dinner"
    :: Flat.allEntries flat_ready.
Proof.
  apply (flat_valid_add_prepends_entry sampleToNumber "u7" flat_ready
           (Q2Qc (25 # 2))).
  - reflexivity.
  - reflexivity.
  - discriminate.
Defined.

Lemma insert_sorted_sublist {A : Type} (cmp : A → A → Z) (x : A) (l : list A) :
  sublist l (JS.insert_sorted cmp x l).
Proof.
  induction l as [|y r IH]; simpl; [apply sublist_nil_l|].
  destruct (cmp x y <=? 0)%Z; [by apply sublist_cons|by apply sublist_skip].
Qed.

Lemma insert_sorted_filter_out {A : Type} (cmp : A → A → Z) (P : A → Prop)
    `{!∀ x, Decision (P x)} (x : A) (l : list A) :
  ¬ P x → filter P (JS.insert_sorted cmp x l) = filter P l.
Proof.
  intros Hx. induction l as [|y r IH]; simpl.
  - by rewrite filter_cons, decide_False.
  - destruct (cmp x y <=? 0)%Z.
    + by rewrite filter_cons, decide_False.
    + by rewrite !(filter_cons _ y), IH.
Qed.

Lemma rounded_totals_filter {E : Type} (rnd : Qc → Qc) (cat : E → Category)
    (amt : E → Qc) (t : Category → Qc) (l : list E) (c : Category) :
  foldl (λ map e, Rounded.addTo rnd map (cat e) (amt e)) t l c
  = foldl (λ sum e, fadd rnd sum (amt e)) (t c) (filter (λ e, cat e = c) l).
Proof.
  revert t. induction l as [|e l IH]; intros t; simpl; [done|].
  rewrite IH, filter_cons. unfold Rounded.addTo at 1.
  destruct (decide (c = cat e)) as [->|Hc].
  - by rewrite decide_True.
  - by rewrite decide_False.
Qed.

Lemma Flat_add_view toNum uuid (st : Flat.State) a :
  toNum (Flat.f_amount st) = JFin a → 0 < a → trim (Flat.f_what st) ≠ "" →
  Flat.monthEntries (Flat.addExpense toNum uuid st)
  = JS.insert_sorted (λ a b, localeCompare (Flat.date b) (Flat.date a))
      (Flat.mkEntry uuid (Flat.s_month st) (Flat.f_date st) a
         (Flat.f_category st) (trim (Flat.f_location st))
         (trim (Flat.f_what st)))
      (Flat.monthEntries st).
Proof.
  intros Ha Hpos Hw. rewrite (Flat_add_ok toNum uuid st a) by done.
  unfold Flat.monthEntries, Flat.monthEntriesOf. simpl.
  by rewrite filter_cons, decide_True.
Qed.

(** X2.  A valid add in [Flat] leaves the total of every category other than
    that of the form as it was, whatever the rounding of the sums is; and
    when no sum of some of the amounts then on screen is rounded, it raises
    the month total by the amount and the total of the form category by the
    amount. *)
Theorem flat_add_raises_totals rnd toNum uuid (st : Flat.State) a :
  toNum (Flat.f_amount st) = JFin a → 0 < a → trim (Flat.f_what st) ≠ "" →
  let st' := Flat.addExpense toNum uuid st in
  (∀ c, c ≠ Flat.f_category st →
        Rounded.flatCategoryTotals rnd st' c
        = Rounded.flatCategoryTotals rnd st c)
  ∧ (exactSums rnd (map Flat.amount (Flat.monthEntries st')) →
     Rounded.flatMonthTotal rnd st' = Rounded.flatMonthTotal rnd st + a
     ∧ Rounded.flatCategoryTotals rnd st' (Flat.f_category st)
       = Rounded.flatCategoryTotals rnd st (Flat.f_category st) + a).
Proof.
  intros Ha Hpos Hw st'.
  pose proof (Flat_add_view toNum uuid st a Ha Hpos Hw) as Hview.
  fold st' in Hview. split.
  - intros c Hc. unfold Rounded.flatCategoryTotals.
    rewrite !rounded_totals_filter, Hview.
    by rewrite insert_sorted_filter_out by (simpl; congruence).
  - intros Hex.
    assert (exactSums rnd (map Flat.amount (Flat.monthEntries st))) as Hex0.
    { eapply exactSums_sublist; [|exact Hex]. rewrite Hview.
      apply fmap_sublist, insert_sorted_sublist. }
    unfold Rounded.flatMonthTotal, Rounded.flatCategoryTotals.
    rewrite !rounded_reduce, !rounded_totals by done.
    change (Flat.monthTotal st' = Flat.monthTotal st + a
            ∧ Flat.categoryTotals st' (Flat.f_category st)
              = Flat.categoryTotals st (Flat.f_category st) + a).
    rewrite !Flat_monthTotal_sum, !Flat_categoryTotals_sum.
    unfold st'. rewrite (Flat_add_ok toNum uuid st a) by done. simpl.
    rewrite !filter_cons, !decide_True by done. simpl.
    rewrite filter_cons, decide_True by done. simpl.
    split; ring.
Qed.

Lemma flat_add_raises_totals_witness :
  exactSums round53
    (map Flat.amount
       (Flat.monthEntries (Flat.addExpense sampleToNumber "u7" flat_ready)))
  ∧ Rounded.flatMonthTotal round53
      (Flat.addExpense sampleToNumber "u7" flat_ready)
    = Rounded.flatMonthTotal round53 flat_ready + Q2Qc (25 # 2).
Proof.
  assert (exactSums round53
            (map Flat.amount
               (Flat.monthEntries
                  (Flat.addExpense sampleToNumber "u7" flat_ready)))) as H
    by (apply exactSums_check; vm_compute; reflexivity).
  split; [exact H|].
  refine (proj1 (proj2 (flat_add_raises_totals round53 sampleToNumber "u7"
                          flat_ready (Q2Qc (25 # 2)) _ _ _) H)).
  - reflexivity.
  - reflexivity.
  - discriminate.
Defined.

(** ** [Flat]: editing, deleting, clearing *)

Lemma Flat_saveEdit_cases toNum (st : Flat.State) :
  Flat.saveEdit toNum st = st
  ∨ ∃ d eid a,
      Flat.editDraft st = Some d ∧ Flat.editingId st = Some eid ∧ eid ≠ ""
      ∧ Number toNum (Flat.d_amount d) = JFin a ∧ 0 < a
      ∧ trim (Flat.d_what d) ≠ ""
      ∧ Flat.saveEdit toNum st
        = Flat.idle (Flat.set_entries
            (map (λ x, if decide (Flat.id x = eid) then Flat.updated st d a
                       else x) (Flat.allEntries st)) st).
Proof.
  destruct (Flat.editDraft st) as [d|] eqn:Hd;
    [|left; unfold Flat.saveEdit; by rewrite Hd].
  destruct (Flat.editingId st) as [eid|] eqn:He;
    [|left; unfold Flat.saveEdit; by rewrite Hd, He].
  destruct (falsy eid) eqn:Hf;
    [left; unfold Flat.saveEdit; by rewrite Hd, He, Hf|].
  destruct (negb (isFinite (Number toNum (Flat.d_amount d)))
            || le0 (Number toNum (Flat.d_amount d)))%bool eqn:G;
    [left; unfold Flat.saveEdit; by rewrite Hd, He, Hf, G|].
  destruct (falsy (trim (Flat.d_what d))) eqn:W;
    [left; unfold Flat.saveEdit; by rewrite Hd, He, Hf, G, W|].
  apply guard_false_inv in G as (a & Ha & Hpos).
  apply falsy_false in Hf, W. right. exists d, eid, a.
  repeat split; try done. by apply Flat_saveEdit_ok.
Qed.

(** X3.  A save in [Flat] that fails the validation leaves the whole state as it
    is: the editing state and the draft stay, nothing is written.  So does a
    save without a draft or without an editing identifier. *)
Theorem flat_rejected_save_stays_editing toNum (st : Flat.State) d :
  Flat.editDraft st = Some d →
  ¬ accepted (Number toNum (Flat.d_amount d)) ∨ trim (Flat.d_what d) = "" →
  Flat.saveEdit toNum st = st
  ∧ Flat.editingId (Flat.saveEdit toNum st) = Flat.editingId st
  ∧ Flat.editDraft (Flat.saveEdit toNum st) = Some d.
Proof.
  intros Hd Hbad.
  assert (Flat.saveEdit toNum st = st) as ->; [|by rewrite Hd].
  destruct (Flat_saveEdit_cases toNum st)
    as [H | (d' & eid & a & Hd' & _ & _ & Ha & Hpos & Hw & _)]; [done|].
  rewrite Hd in Hd'. injection Hd' as <-. destruct Hbad as [Hn | Hn].
  - destruct Hn. by exists a.
  - done.
Qed.

Lemma flat_rejected_save_stays_editing_witness :
  Flat.saveEdit sampleToNumber flat_bad_draft = flat_bad_draft.
Proof.
  apply (flat_rejected_save_stays_editing sampleToNumber flat_bad_draft
           (Flat.mkDraft "e1" "2026-01" "2026-01-15" (VStr "abc") Food "Cafe"
                         "Lunch") eq_refl).
  left. intros [q [Hq _]]. discriminate Hq.
Defined.

Lemma map_replace_id {A : Type} (P : A → Prop) `{!∀ x, Decision (P x)}
    (e : A) (l : list A) :
  (∀ x, x ∈ l → P x → x = e) →
  map (λ x, if decide (P x) then e else x) l = l.
Proof.
  induction l as [|y l IH]; intros Hsame; simpl; [done|].
  rewrite IH by (intros x Hx; apply Hsame; by right). f_equal.
  case_decide as Hy; [|done]. symmetry. apply Hsame; [by left|done].
Qed.

(** X4.  Opening a stored entry of [Flat] and saving the draft untouched leaves
    the list as it was, provided the entry belongs to the month on screen,
    its date has at most ten characters, its identifier is not empty and no
    other entry shares it. *)
Theorem flat_save_of_untouched_draft toNum (st : Flat.State) (e : Flat.Entry) :
  flatStored e →
  Flat.month e = Flat.s_month st →
  slice0 10 (Flat.date e) = Flat.date e →
  Flat.id e ≠ "" →
  (∀ x, x ∈ Flat.allEntries st → Flat.id x = Flat.id e → x = e) →
  Flat.allEntries (Flat.saveEdit toNum (Flat.startEdit e st))
  = Flat.allEntries st
  ∧ Flat.editingId (Flat.saveEdit toNum (Flat.startEdit e st)) = None.
Proof.
  intros (Hpos & Hw & Hwt & Hlt) Hm Hd Hid Huniq.
  rewrite (Flat_saveEdit_ok toNum (Flat.startEdit e st) (Flat.draft_of e)
             (Flat.id e) (Flat.amount e)); try done.
  - simpl. split; [|done].
    assert (Flat.updated (Flat.startEdit e st) (Flat.draft_of e) (Flat.amount e)
            = e) as ->.
    { unfold Flat.updated. simpl. rewrite <- Hm, Hd, Hwt, Hlt. by destruct e. }
    by apply map_replace_id.
  - simpl. by rewrite Hwt.
Qed.

Lemma flat_save_of_untouched_draft_witness :
  Flat.allEntries (Flat.saveEdit sampleToNumber (Flat.startEdit flat_lunch flat_abc))
  = Flat.allEntries flat_abc.
Proof.
  refine (proj1 (flat_save_of_untouched_draft sampleToNumber flat_abc flat_lunch
                   _ eq_refl eq_refl _ _)).
  - repeat split; try reflexivity; discriminate.
  - discriminate.
  - intros x Hx _. apply list_elem_of_singleton in Hx. exact Hx.
Defined.



(** ** [Flat]: what every sequence of actions keeps *)

Lemma Forall_filter_keep {A : Type} (P Q : A → Prop) `{!∀ x, Decision (Q x)}
    (l : list A) :
  Forall P l → Forall P (filter Q l).
Proof.
  rewrite !list.Forall_forall. intros Hall x Hx.
  apply list_elem_of_filter in Hx as [_ Hx]. by apply Hall.
Qed.

Lemma FlatValid_step toNum (st st' : Flat.State) :
  FlatStep toNum st st' → FlatValid st → FlatValid st'.
Proof.
  unfold FlatValid. intros Hstep Hv. destruct Hstep; simpl; try done.
  - by rewrite (proj1 (proj2 (proj2 (Flat_setMonth_frame m st)))).
  - destruct (Flat_addExpense_cases toNum uuid st)
      as [-> | (a & Ha & Hpos & Hw & ->)]; [done|].
    simpl. constructor; [|done]. repeat split; simpl; auto using trim_idem.
  - unfold Flat.deleteEntry. case_decide; simpl; by apply Forall_filter_keep.
  - destruct (Flat_saveEdit_cases toNum st)
      as [-> | (d & eid & a & _ & _ & _ & _ & Hpos & Hw & ->)]; [done|].
    simpl. rewrite list.Forall_forall in Hv. apply list.Forall_forall. intros x Hx.
    apply list_elem_of_fmap in Hx as (y & -> & Hy). case_decide; [|by apply Hv].
    repeat split; simpl; auto using trim_idem.
  - by apply Forall_filter_keep.
Qed.

Lemma FlatEditConsistent_step toNum (st st' : Flat.State) :
  FlatStep toNum st st' → FlatEditConsistent st → FlatEditConsistent st'.
Proof.
  unfold FlatEditConsistent. intros Hstep Hc.
  destruct Hstep; simpl; try done.
  - destruct (Flat_setMonth_frame m st) as (-> & -> & _). done.
  - destruct (Flat_addExpense_cases toNum uuid st)
      as [-> | (a & _ & _ & _ & ->)]; done.
  - unfold Flat.deleteEntry. by case_decide.
  - by destruct (Flat.editingId st), (Flat.editDraft st).
  - by destruct (Flat.editingId st), (Flat.editDraft st).
  - by destruct (Flat.editingId st), (Flat.editDraft st).
  - by destruct (Flat.editingId st), (Flat.editDraft st).
  - by destruct (Flat.editingId st), (Flat.editDraft st).
  - destruct (Flat_saveEdit_cases toNum st)
      as [-> | (d & eid & a & _ & _ & _ & _ & _ & _ & ->)]; done.
Qed.

Lemma FlatEditTarget_step toNum (st st' : Flat.State) :
  FlatStep toNum st st' → FlatEditTarget st → FlatEditTarget st'.
Proof.
  unfold FlatEditTarget. intros Hstep Ht. destruct Hstep; simpl; try done.
  - destruct (Flat_setMonth_frame m st) as (-> & _ & -> & _). done.
  - destruct (Flat_addExpense_cases toNum uuid st)
      as [-> | (a & _ & _ & _ & ->)]; [done|].
    simpl. intros j Hj. destruct (Ht j Hj) as (e & He & Hid).
    exists e. split; [by right|done].
  - unfold Flat.deleteEntry. case_decide as Hi; simpl; [done|].
    intros j Hj. destruct (Ht j Hj) as (e & He & Hid). exists e.
    split; [|done]. apply list_elem_of_filter. split; [|done]. congruence.
  - intros j [= <-]. exists e. split; [|done].
    by apply Flat_monthEntriesOf_elem in H as [_ H].
  - destruct (Flat_saveEdit_cases toNum st)
      as [-> | (d & eid & a & _ & _ & _ & _ & _ & _ & ->)]; done.
Qed.

(** X6.  In [Flat], whatever the user does, every stored entry has a positive
    amount and a description that is trimmed and not empty, and its location
    is trimmed. *)
Theorem flat_actions_keep_entries_valid toNum (st st' : Flat.State) :
  FlatValid st → rtc (FlatStep toNum) st st' → FlatValid st'.
Proof.
  intros Hv Hsteps. induction Hsteps as [|st st1 st2 Hstep _ IH]; [done|].
  apply IH. by eapply FlatValid_step.
Qed.

Lemma flat_abc_valid : FlatValid flat_abc.
Proof.
  constructor; [|constructor]. repeat split; try reflexivity; discriminate.
Qed.

Lemma flat_actions_keep_entries_valid_witness :
  FlatValid (Flat.addExpense sampleToNumber "u7" flat_ready).
Proof.
  apply (flat_actions_keep_entries_valid sampleToNumber flat_abc _
           flat_abc_valid).
  eapply rtc_l; [apply (FS_setAmount sampleToNumber "12.50")|].
  eapply rtc_l; [apply (FS_setWhat sampleToNumber " Dinner ")|].
  apply rtc_once. apply FS_addExpense.
Defined.

(** X7.  In [Flat], whatever the user does, the editing identifier and the draft
    are set and cleared together, the draft carries the identifier being
    edited, and an entry with that identifier is in the list: no action leaves
    an edit open on an entry that is gone. *)
Theorem flat_actions_keep_edit_on_stored_entry toNum (st st' : Flat.State) :
  FlatEditConsistent st → FlatEditTarget st →
  rtc (FlatStep toNum) st st' →
  FlatEditConsistent st' ∧ FlatEditTarget st'.
Proof.
  intros Hc Ht Hsteps. induction Hsteps as [|st st1 st2 Hstep _ IH]; [done|].
  apply IH; [by eapply FlatEditConsistent_step | by eapply FlatEditTarget_step].
Qed.

Lemma flat_actions_keep_edit_on_stored_entry_witness :
  FlatEditConsistent flat_redated ∧ FlatEditTarget flat_redated.
Proof.
  apply (flat_actions_keep_edit_on_stored_entry sampleToNumber flat_abc).
  - exact I.
  - intros i Hi. discriminate Hi.
  - eapply rtc_l.
    + apply (FS_startEdit sampleToNumber flat_lunch).
      apply Flat_monthEntriesOf_elem. split; [reflexivity|left].
    + apply rtc_once. apply FS_draftDate.
Defined.

(** ** [Flat]: the month view *)

Lemma Flat_monthEntries_valid (st : Flat.State) :
  FlatValid st → Forall flatStored (Flat.monthEntries st).
Proof.
  unfold FlatValid. rewrite !list.Forall_forall. intros Hv e He.
  apply Flat_monthEntriesOf_elem in He as [_ He]. by apply Hv.
Qed.

Lemma Flat_categoryTotalsOf_sum (l : list Flat.Entry) (c : Category) :
  Flat.categoryTotalsOf l c
  = sumQc (map Flat.amount (filter (λ e, Flat.category e = c) l)).
Proof.
  unfold Flat.categoryTotalsOf.
  rewrite (addTo_loop_total Flat.category Flat.amount). unfold zeroTotals.
  by rewrite Qcplus_0_l.
Qed.

Lemma Flat_biggestCategory_eq (st : Flat.State) :
  Flat.biggestCategory st = Flat.biggestOf (Flat.categoryTotals st).
Proof. reflexivity. Qed.

Lemma Flat_biggest_empty : Flat.biggestOf (Flat.categoryTotalsOf []) = None.
Proof.
  destruct (Flat_biggest_cases (Flat.categoryTotalsOf []))
    as [[H _] | (l1 & c & l2 & _ & _ & Hc & _)]; [done|].
  exfalso. by apply (irreflexivity Qclt 0).
Qed.

Lemma sumQc_elem_le (l : list Qc) (x : Qc) :
  Forall (λ y, 0 < y) l → x ∈ l → x ≤ sumQc l.
Proof.
  induction 1 as [|y l Hy Hl IH]; intros Hx; [by apply elem_of_nil in Hx|].
  change (sumQc (y :: l)) with (y + sumQc l).
  apply elem_of_cons in Hx as [-> | Hx].
  - rewrite <- (Qcplus_0_r y) at 1. apply Qcplus_le_compat; [done|].
    by apply sumQc_nonneg.
  - rewrite <- (Qcplus_0_l x). apply Qcplus_le_compat; [|by apply IH].
    by apply Qclt_le_weak.
Qed.

Lemma Flat_category_total_pos (st : Flat.State) (e : Flat.Entry) :
  FlatValid st → e ∈ Flat.monthEntries st →
  0 < Flat.categoryTotals st (Flat.category e).
Proof.
  intros Hv He. pose proof (Flat_monthEntries_valid st Hv) as Hm.
  unfold Flat.categoryTotals. rewrite Flat_categoryTotalsOf_sum.
  apply Qclt_le_trans with (Flat.amount e).
  - rewrite list.Forall_forall in Hm. by apply Hm.
  - apply sumQc_elem_le.
    + apply Forall_fmap, Forall_filter_keep. revert Hm.
      apply List.Forall_impl. by intros x [Hx _].
    + apply list_elem_of_fmap. exists e. split; [done|].
      by apply list_elem_of_filter.
Qed.

Lemma nil_or_elem {A : Type} (l : list A) : l = [] ∨ ∃ x, x ∈ l.
Proof. destruct l as [|x l]; [by left|]. right. exists x. by left. Qed.

(** X8.  With valid stored entries, [biggestCategory] of [Flat] shows the dash
    exactly when the month on screen has no entry, and the month total is 0
    exactly then. *)
Theorem flat_no_winner_iff_month_empty (st : Flat.State) :
  FlatValid st →
  (Flat.biggestCategory st = None ↔ Flat.monthEntries st = [])
  ∧ (Flat.monthTotal st = 0 ↔ Flat.monthEntries st = []).
Proof.
  intros Hv. pose proof (Flat_monthEntries_valid st Hv) as Hm.
  assert (Forall (λ x, 0 < x) (map Flat.amount (Flat.monthEntries st))) as Hpos.
  { apply Forall_fmap. revert Hm. apply List.Forall_impl. by intros e [He _]. }
  split; split.
  - intros Hnone. rewrite Flat_biggestCategory_eq in Hnone.
    destruct (nil_or_elem (Flat.monthEntries st)) as [H|[e He]]; [done|].
    exfalso. pose proof (Flat_category_total_pos st e Hv He) as Hp.
    destruct (Flat_biggest_cases (Flat.categoryTotals st))
      as [[_ Hall] | (l1 & c & l2 & _ & Hr & _)].
    + specialize (Hall (Flat.category e)). by apply Qcle_ngt in Hall.
    + rewrite Hr in Hnone. discriminate.
  - intros El. rewrite Flat_biggestCategory_eq. unfold Flat.categoryTotals.
    rewrite El. apply Flat_biggest_empty.
  - intros Hz. destruct (nil_or_elem (Flat.monthEntries st)) as [H|[e He]];
      [done|].
    exfalso. unfold Flat.monthTotal in Hz. rewrite reduce_sum in Hz.
    assert (map Flat.amount (Flat.monthEntries st) ≠ []) as Hne.
    { clear -He. destruct (Flat.monthEntries st);
        [by apply elem_of_nil in He | done]. }
    pose proof (sumQc_pos _ Hpos Hne) as Hs.
    rewrite Hz in Hs. by apply (irreflexivity Qclt 0).
  - intros El. unfold Flat.monthTotal. by rewrite El.
Qed.

Lemma flat_no_winner_iff_month_empty_witness :
  FlatValid (Flat.setMonth "2026-03" flat_abc)
  ∧ Flat.biggestCategory (Flat.setMonth "2026-03" flat_abc) = None.
Proof.
  split; [exact flat_abc_valid|].
  apply (proj1 (flat_no_winner_iff_month_empty (Flat.setMonth "2026-03" flat_abc)
                  flat_abc_valid)).
  reflexivity.
Defined.

Lemma Flat_filter_cleared (m : string) (l : list Flat.Entry) :
  filter (λ e, Flat.month e = m) (filter (λ e, Flat.month e ≠ m) l) = [].
Proof.
  induction l as [|x l IH]; [done|]. rewrite (filter_cons _ x).
  destruct (decide (Flat.month x ≠ m)) as [Hx|Hx]; [|done].
  by rewrite filter_cons, decide_False.
Qed.

(** X9.  [clearMonth] and [clearAll] of [Flat] leave the view of the month on
    screen empty, with a total of 0 and no biggest category, and end any edit
    in progress; [clearAll] leaves no entry at all. *)
Theorem flat_clear_empties_view (st : Flat.State) :
  (Flat.monthEntries (Flat.clearMonth st) = []
   ∧ Flat.monthTotal (Flat.clearMonth st) = 0
   ∧ Flat.biggestCategory (Flat.clearMonth st) = None
   ∧ Flat.editingId (Flat.clearMonth st) = None
   ∧ Flat.editDraft (Flat.clearMonth st) = None)
  ∧ (Flat.allEntries (Flat.clearAll st) = []
     ∧ Flat.monthTotal (Flat.clearAll st) = 0
     ∧ Flat.editingId (Flat.clearAll st) = None
     ∧ Flat.editDraft (Flat.clearAll st) = None).
Proof.
  assert (Flat.monthEntries (Flat.clearMonth st) = []) as Hm.
  { unfold Flat.monthEntries, Flat.monthEntriesOf, Flat.clearMonth. simpl.
    by rewrite Flat_filter_cleared. }
  split; [|done].
  rewrite Flat_biggestCategory_eq. unfold Flat.monthTotal, Flat.categoryTotals.
  rewrite Hm. split; [done|]. split; [done|]. split; [|done].
  apply Flat_biggest_empty.
Qed.

(** ** The form date after a change of month *)

(** X10.  In [Flat] and in [ByMonth], after the month on screen is changed to a
    seven-character key [YYYY-MM], the form date lies in that month: it is
    kept when it already did, and is the first day of the month otherwise.
    The stored entries are not touched. *)
Theorem set_month_moves_form_date_into_month (m : string) :
  String.length m = 7%nat →
  (∀ st : Flat.State,
      m ≠ Flat.s_month st →
      monthFromDate (Flat.f_date (Flat.setMonth m st)) = m
      ∧ Flat.s_month (Flat.setMonth m st) = m
      ∧ (monthFromDate (Flat.f_date st) = m →
           Flat.f_date (Flat.setMonth m st) = Flat.f_date st)
      ∧ (monthFromDate (Flat.f_date st) ≠ m →
           Flat.f_date (Flat.setMonth m st) = m ++ "-01")
      ∧ Flat.allEntries (Flat.setMonth m st) = Flat.allEntries st)
  ∧ (∀ st : ByMonth.State,
      m ≠ ByMonth.s_month st →
      ByMonth.monthKeyFromDate (ByMonth.f_date (ByMonth.setMonth m st)) = m
      ∧ ByMonth.s_month (ByMonth.setMonth m st) = m
      ∧ (ByMonth.monthKeyFromDate (ByMonth.f_date st) = m →
           ByMonth.f_date (ByMonth.setMonth m st) = ByMonth.f_date st)
      ∧ (ByMonth.monthKeyFromDate (ByMonth.f_date st) ≠ m →
           ByMonth.f_date (ByMonth.setMonth m st) = m ++ "-01")
      ∧ ByMonth.data (ByMonth.setMonth m st) = ByMonth.data st).
Proof.
  intros Hlen.
  assert (slice0 7 (m ++ "-01") = m) as Hfirst
    by (rewrite <- Hlen at 1; apply slice0_app).
  split.
  - intros st Hm. unfold Flat.setMonth. rewrite decide_False by done.
    unfold monthFromDate in *. simpl. case_decide; repeat split; try done.
  - intros st Hm. unfold ByMonth.setMonth. rewrite decide_False by done.
    unfold ByMonth.monthKeyFromDate. simpl.
    assert (falsy m = false) as -> by (destruct m; [done|done]).
    simpl. case_bool_decide as Hd; repeat split; try done.
Qed.

Lemma set_month_moves_form_date_into_month_witness :
  monthFromDate (Flat.f_date (Flat.setMonth "2026-03" flat_abc)) = "2026-03".
Proof.
  refine (proj1 (proj1 (set_month_moves_form_date_into_month "2026-03" eq_refl)
                   flat_abc _)).
  discriminate.
Defined.

(** ** [ByMonth] *)

Lemma ByMonth_addExpense_cases toNum uuid (st : ByMonth.State) :
  ByMonth.addExpense toNum uuid st = st
  ∨ ∃ a, ByMonth.f_date st ≠ "" ∧ toNum (ByMonth.f_amount st) = JFin a
         ∧ 0 < a ∧ trim (ByMonth.f_what st) ≠ ""
         ∧ ByMonth.addExpense toNum uuid st
           = ByMonth.mkState (ByMonth.s_month st)
               (<[ByMonth.monthKeyFromDate (ByMonth.f_date st) :=
                    (ByMonth.expensesOf
                       (ByMonth.monthKeyFromDate (ByMonth.f_date st))
                       (ByMonth.data st)
                     ++ [ByMonth.mkExpense uuid (ByMonth.f_date st) a
                           (trim (ByMonth.f_location st))
                           (trim (ByMonth.f_what st))
                           (ByMonth.f_category st)])%list]>
                  (ByMonth.data st))
               (ByMonth.f_date st) "" "" "" Fun.
Proof.
  unfold ByMonth.addExpense. simpl.
  destruct (falsy (ByMonth.f_date st)) eqn:D; [by left|].
  destruct (negb (isFinite _) || le0 _)%bool eqn:G; [by left|].
  destruct (falsy (trim (ByMonth.f_what st))) eqn:W; [by left|].
  apply guard_false_inv in G as (a & Ha & Hpos). apply falsy_false in D, W.
  right. exists a. by rewrite Ha.
Qed.

Lemma ByMonth_add_ok toNum uuid (st : ByMonth.State) a :
  ByMonth.f_date st ≠ "" → toNum (ByMonth.f_amount st) = JFin a → 0 < a →
  trim (ByMonth.f_what st) ≠ "" →
  ByMonth.addExpense toNum uuid st
  = ByMonth.mkState (ByMonth.s_month st)
      (<[ByMonth.monthKeyFromDate (ByMonth.f_date st) :=
           (ByMonth.expensesOf (ByMonth.monthKeyFromDate (ByMonth.f_date st))
                               (ByMonth.data st)
            ++ [ByMonth.mkExpense uuid (ByMonth.f_date st) a
                  (trim (ByMonth.f_location st)) (trim (ByMonth.f_what st))
                  (ByMonth.f_category st)])%list]>
         (ByMonth.data st))
      (ByMonth.f_date st) "" "" "" Fun.
Proof.
  intros Hd Ha Hpos Hw. unfold ByMonth.addExpense. simpl.
  apply falsy_false in Hd, Hw. by rewrite Hd, Ha, guard_accepted, Hw.
Qed.

(** X11.  A valid add in [ByMonth] files the expense under the month of the form
    date, at the end of that month's array, and touches no other month.  The
    expense shows in the list on screen only when the form date lies in the
    month on screen. *)
Theorem bymonth_valid_add_files_under_date_month toNum uuid
    (st : ByMonth.State) a :
  ByMonth.f_date st ≠ "" → toNum (ByMonth.f_amount st) = JFin a → 0 < a →
  trim (ByMonth.f_what st) ≠ "" →
  let st' := ByMonth.addExpense toNum uuid st in
  let key := ByMonth.monthKeyFromDate (ByMonth.f_date st) in
  let expense :=
    ByMonth.mkExpense uuid (ByMonth.f_date st) a (trim (ByMonth.f_location st))
                      (trim (ByMonth.f_what st)) (ByMonth.f_category st) in
  ByMonth.data st' !! key
  = Some (ByMonth.expensesOf key (ByMonth.data st) ++ [expense])%list
  ∧ (∀ m, m ≠ key → ByMonth.data st' !! m = ByMonth.data st !! m)
  ∧ (key = ByMonth.s_month st →
       ByMonth.expensesThisMonth st'
       = (ByMonth.expensesThisMonth st ++ [expense])%list)
  ∧ (key ≠ ByMonth.s_month st →
       ByMonth.expensesThisMonth st' = ByMonth.expensesThisMonth st)
  ∧ ByMonth.s_month st' = ByMonth.s_month st
  ∧ ByMonth.f_date st' = ByMonth.f_date st.
Proof.
  intros Hd Ha Hpos Hw st' key expense. subst st'.
  rewrite (ByMonth_add_ok toNum uuid st a) by done.
  unfold ByMonth.expensesThisMonth, ByMonth.expensesOf. simpl.
  fold key. repeat split.
  - by rewrite lookup_insert_eq.
  - intros m Hm. by rewrite lookup_insert_ne.
  - intros <-. by rewrite lookup_insert_eq.
  - intros Hk. by rewrite lookup_insert_ne.
Qed.

Lemma bymonth_valid_add_files_under_date_month_witness :
  ByMonth.expensesThisMonth (ByMonth.addExpense sampleToNumber "u7" bymonth_jan)
  = ByMonth.expensesThisMonth bymonth_jan.
Proof.
  refine (proj1 (proj2 (proj2 (proj2
            (bymonth_valid_add_files_under_date_month sampleToNumber "u7"
               bymonth_jan (Q2Qc (25 # 2)) _ eq_refl eq_refl _)))) _);
    discriminate.
Defined.

Lemma filter_all_out {A : Type} (P : A → Prop) `{!∀ x, Decision (P x)}
    (l : list A) :
  (∀ x, x ∈ l → ¬ P x) → filter P l = [].
Proof.
  induction l as [|x l IH]; intros Hout; [done|].
  rewrite filter_cons, decide_False by (apply Hout; by left).
  apply IH. intros y Hy. apply Hout. by right.
Qed.

Lemma ByMonth_removeExpense_data (i : string) (st : ByMonth.State) :
  ByMonth.expensesThisMonth (ByMonth.removeExpense i st)
  = filter (λ e, ByMonth.id e ≠ i) (ByMonth.expensesThisMonth st)
  ∧ ∀ m, m ≠ ByMonth.s_month st →
      ByMonth.data (ByMonth.removeExpense i st) !! m = ByMonth.data st !! m.
Proof.
  unfold ByMonth.removeExpense.
  destruct (filter _ (ByMonth.expensesThisMonth st)) as [|x k] eqn:E; simpl.
  - unfold ByMonth.expensesThisMonth, ByMonth.expensesOf. simpl.
    rewrite lookup_delete_eq. split; [done|].
    intros m Hm. by rewrite lookup_delete_ne.
  - unfold ByMonth.expensesThisMonth, ByMonth.expensesOf. simpl.
    rewrite lookup_insert_eq. split; [done|].
    intros m Hm. by rewrite lookup_insert_ne.
Qed.

(** X12.  [removeExpense] of [ByMonth] works on the month on screen only: the list
    of that month loses exactly the expenses with the given identifier, and
    the array of every other month, even one holding that identifier, is left
    as it is; when the month becomes empty its key is removed from the
    record. *)
Theorem bymonth_remove_touches_selected_month_only (i : string)
    (st : ByMonth.State) :
  let st' := ByMonth.removeExpense i st in
  ByMonth.expensesThisMonth st'
  = filter (λ e, ByMonth.id e ≠ i) (ByMonth.expensesThisMonth st)
  ∧ (∀ e, e ∈ ByMonth.expensesThisMonth st'
          ↔ e ∈ ByMonth.expensesThisMonth st ∧ ByMonth.id e ≠ i)
  ∧ (∀ m, m ≠ ByMonth.s_month st →
          ByMonth.data st' !! m = ByMonth.data st !! m)
  ∧ ((∀ e, e ∈ ByMonth.expensesThisMonth st → ByMonth.id e = i) →
       ByMonth.data st' !! ByMonth.s_month st = None)
  ∧ ByMonth.s_month st' = ByMonth.s_month st.
Proof.
  intros st'. subst st'.
  destruct (ByMonth_removeExpense_data i st) as [Hthis Hother].
  split; [done|]. split; [|split; [done|split]].
  - intros e. rewrite Hthis, list_elem_of_filter. tauto.
  - intros Hall. unfold ByMonth.removeExpense.
    assert (filter (λ e, ByMonth.id e ≠ i) (ByMonth.expensesThisMonth st) = [])
      as ->.
    { apply filter_all_out. intros e He Hne. by apply Hne, Hall. }
    simpl. by rewrite lookup_delete_eq.
  - unfold ByMonth.removeExpense. by destruct (filter _ _).
Qed.

Lemma bymonth_remove_touches_selected_month_only_witness :
  ByMonth.data (ByMonth.removeExpense "e1" bymonth_jan) !! "2026-01" = None.
Proof.
  refine (proj1 (proj2 (proj2 (proj2
            (bymonth_remove_touches_selected_month_only "e1" bymonth_jan)))) _).
  intros e He. apply list_elem_of_singleton in He. by subst e.
Defined.

Lemma ByMonthInv_expensesOf (d : gmap string (list ByMonth.Expense)) m :
  ByMonthInv d →
  Forall (λ e, byMonthStored e
               ∧ ByMonth.monthKeyFromDate (ByMonth.date e) = m)
         (ByMonth.expensesOf m d).
Proof.
  intros Hinv. unfold ByMonth.expensesOf.
  destruct (d !! m) as [l|] eqn:E; simpl; [|constructor].
  by destruct (Hinv m l E).
Qed.

Lemma ByMonthInv_insert (d : gmap string (list ByMonth.Expense)) m l :
  ByMonthInv d → l ≠ [] →
  Forall (λ e, byMonthStored e
               ∧ ByMonth.monthKeyFromDate (ByMonth.date e) = m) l →
  ByMonthInv (<[m := l]> d).
Proof.
  intros Hinv Hne Hl m' l'. rewrite lookup_insert.
  case_decide as Hm; [|apply Hinv]. intros [= <-]. by subst.
Qed.

Lemma ByMonthInv_delete (d : gmap string (list ByMonth.Expense)) m :
  ByMonthInv d → ByMonthInv (delete m d).
Proof.
  intros Hinv m' l'. rewrite lookup_delete.
  case_decide; [done|apply Hinv].
Qed.

Lemma ByMonthInv_step toNum (st st' : ByMonth.State) :
  ByMonthStep toNum st st' →
  ByMonthInv (ByMonth.data st) → ByMonthInv (ByMonth.data st').
Proof.
  intros Hstep Hinv. destruct Hstep; simpl; try done.
  - unfold ByMonth.setMonth. by case_decide.
  - destruct (ByMonth_addExpense_cases toNum uuid st)
      as [-> | (a & Hd & Ha & Hpos & Hw & ->)]; [done|].
    simpl. apply ByMonthInv_insert; [done| |].
    + by destruct (ByMonth.expensesOf _ _).
    + apply Forall_app. split; [by apply ByMonthInv_expensesOf|].
      constructor; [|constructor]. by repeat split.
  - unfold ByMonth.removeExpense.
    destruct (filter _ (ByMonth.expensesThisMonth st)) as [|x k] eqn:E; simpl.
    + by apply ByMonthInv_delete.
    + apply ByMonthInv_insert; [done|done|]. rewrite <- E.
      apply Forall_filter_keep. by apply ByMonthInv_expensesOf.
  - unfold ByMonth.clearMonth. destruct ok; [|done].
    simpl. by apply ByMonthInv_delete.
  - unfold ByMonth.clearAll. destruct ok; [|done]. simpl.
    intros m l Hl. by rewrite lookup_empty in Hl.
Qed.

(** X13.  In [ByMonth], whatever the user does, no month key holds an empty array,
    and every stored expense has a positive amount, a description and a date
    that are not empty, and is filed under the month of its own date. *)
Theorem bymonth_actions_keep_record_tidy toNum (st st' : ByMonth.State) :
  ByMonthInv (ByMonth.data st) → rtc (ByMonthStep toNum) st st' →
  ByMonthInv (ByMonth.data st').
Proof.
  intros Hinv Hsteps. induction Hsteps as [|st st1 st2 Hstep _ IH]; [done|].
  apply IH. by eapply ByMonthInv_step.
Qed.

Lemma bymonth_actions_keep_record_tidy_witness :
  ByMonthInv
    (ByMonth.data
       (ByMonth.removeExpense "u7"
          (ByMonth.addExpense sampleToNumber "u7"
             (ByMonth.setWhat "Tea" (ByMonth.setAmount "12.50" bymonth_empty))))).
Proof.
  apply (bymonth_actions_keep_record_tidy sampleToNumber bymonth_empty).
  - intros m l Hl.
    change ((∅ : gmap string (list ByMonth.Expense)) !! m = Some l) in Hl.
    rewrite lookup_empty in Hl. discriminate Hl.
  - eapply rtc_l; [apply (BS_setAmount sampleToNumber "12.50")|].
    eapply rtc_l; [apply (BS_setWhat sampleToNumber "Tea")|].
    eapply rtc_l; [apply (BS_addExpense sampleToNumber "u7")|].
    apply rtc_once. apply BS_removeExpense.
Defined.

(** ** [Tracker]: adding and updating *)

Lemma Tracker_addOrUpdate_cases toNum okAdd uuid (st : Tracker.State) :
  Tracker.addOrUpdateExpense toNum okAdd uuid st = st
  ∨ ∃ a,
      toNum (Tracker.formAmount st) = JFin a ∧ 0 < a
      ∧ trim (Tracker.formWhat st) ≠ ""
      ∧ trim (Tracker.formCategory st) ≠ ""
      ∧ Tracker.formDate st ≠ ""
      ∧ let st' := Tracker.addOrUpdateExpense toNum okAdd uuid st in
        ((∃ eid, Tracker.editingId st = Some eid ∧ eid ≠ ""
                 ∧ Tracker.entries st'
                   = map (λ e, if decide (Tracker.id e = eid)
                               then Tracker.mkEntry (Tracker.id e)
                                      (Tracker.formDate st) a
                                      (Tracker.formCategory st)
                                      (trim (Tracker.formWhat st))
                               else e) (Tracker.entries st)
                 ∧ Tracker.editingId st' = None)
         ∨ ((Tracker.editingId st = None ∨ Tracker.editingId st = Some "")
            ∧ Tracker.entries st'
              = JS.sort Tracker.byDateDesc
                  (Tracker.mkEntry uuid (Tracker.formDate st) a
                     (Tracker.formCategory st) (trim (Tracker.formWhat st))
                   :: Tracker.entries st)
            ∧ Tracker.editingId st' = Tracker.editingId st))
        ∧ ((Tracker.formCategory st ∈ Tracker.categories st
            ∧ Tracker.categories st' = Tracker.categories st
            ∧ Tracker.st_categories (Tracker.storage st')
              = Tracker.st_categories (Tracker.storage st))
           ∨ ((Tracker.formCategory st ∉ Tracker.categories st)
              ∧ okAdd = true
              ∧ Tracker.categories st'
                = JS.sort Tracker.defaultCompare
                    (Tracker.categories st ++ [Tracker.formCategory st])%list
              ∧ Tracker.st_categories (Tracker.storage st')
                = Some (Tracker.categories st')))
        ∧ Tracker.monthValue st' = Tracker.monthValue st
        ∧ Tracker.budgets st' = Tracker.budgets st
        ∧ Tracker.st_entries (Tracker.storage st')
          = <[Tracker.monthKey st := Tracker.entries st']>
              (Tracker.st_entries (Tracker.storage st))
        ∧ Tracker.st_budgets (Tracker.storage st')
          = Tracker.st_budgets (Tracker.storage st)
        ∧ Tracker.formAmount st' = "" ∧ Tracker.formWhat st' = ""
        ∧ Tracker.formDate st' = Tracker.formDate st
        ∧ Tracker.formCategory st' = Tracker.formCategory st
        ∧ Tracker.newCategory st' = Tracker.newCategory st.
Proof.
  unfold Tracker.addOrUpdateExpense. cbv zeta.
  change (Number toNum (VStr (Tracker.formAmount st)))
    with (toNum (Tracker.formAmount st)).
  destruct (negb (isFinite _) || le0 _)%bool eqn:G; [by left|].
  destruct (falsy (trim (Tracker.formWhat st))) eqn:W; [by left|].
  destruct (falsy (trim (Tracker.formCategory st))) eqn:C; [by left|].
  destruct (falsy (Tracker.formDate st)) eqn:D; [by left|].
  apply guard_false_inv in G as (a & Ha & Hpos).
  apply falsy_false in W, C, D. rewrite Ha.
  set (cats' := JS.sort Tracker.defaultCompare _).
  assert (Tracker.formCategory st ∈ cats') as Hnew.
  { apply sort_elem_of, elem_of_app. right. by left. }
  set (ents := match _ with Some eid => map _ _ | None => JS.sort _ _ end).
  set (eid' := match _ with Some _ => None | None => Tracker.editingId st end).
  assert ((∃ eid, Tracker.editingId st = Some eid ∧ eid ≠ ""
             ∧ ents = map (λ e, if decide (Tracker.id e = eid)
                               then Tracker.mkEntry (Tracker.id e)
                                      (Tracker.formDate st) a
                                      (Tracker.formCategory st)
                                      (trim (Tracker.formWhat st))
                               else e) (Tracker.entries st)
             ∧ eid' = None)
          ∨ ((Tracker.editingId st = None ∨ Tracker.editingId st = Some "")
             ∧ ents = JS.sort Tracker.byDateDesc
                  (Tracker.mkEntry uuid (Tracker.formDate st) a
                     (Tracker.formCategory st) (trim (Tracker.formWhat st))
                   :: Tracker.entries st)
             ∧ eid' = Tracker.editingId st)) as Hents.
  { subst ents eid'.
    destruct (Tracker.editingId st) as [eid|] eqn:He; [|right; by auto].
    destruct (falsy eid) eqn:Hf.
    + right. apply falsy_true in Hf. subst eid. by auto.
    + left. exists eid. by apply falsy_false in Hf. }
  clearbody ents eid' cats'.
  case_bool_decide as Hin; simpl.
  - right. exists a. repeat split; try done. by left.
  - destruct okAdd; simpl; [|by left].
    right. exists a. rewrite (bool_decide_eq_true_2 _ Hnew).
    repeat split; try done. right. by auto.
Qed.

(** ** [Tracker]: memory and storage *)

Lemma entriesValid_insert (E : gmap string (list Tracker.Entry)) m l :
  (∀ m' l', E !! m' = Some l' → Forall trackerStored l') →
  Forall trackerStored l →
  ∀ m' l', <[m := l]> E !! m' = Some l' → Forall trackerStored l'.
Proof.
  intros HE Hl m' l'. rewrite lookup_insert.
  case_decide; [by intros [= <-] | apply HE].
Qed.

Lemma budgetsValid_insert (B : gmap string (gmap string Qc)) m b :
  (∀ m' b', B !! m' = Some b' → budgetsNonneg b') →
  budgetsNonneg b →
  ∀ m' b', <[m := b]> B !! m' = Some b' → budgetsNonneg b'.
Proof.
  intros HB Hb m' b'. rewrite lookup_insert.
  case_decide; [by intros [= <-] | apply HB].
Qed.

Lemma budgetsNonneg_empty : budgetsNonneg ∅.
Proof. intros k v Hk. by rewrite lookup_empty in Hk. Qed.

Lemma budgetsNonneg_delete b name : budgetsNonneg b → budgetsNonneg (delete name b).
Proof.
  intros Hb k v. rewrite lookup_delete. case_decide; [done|apply Hb].
Qed.

Lemma budgetsNonneg_insert b k v :
  budgetsNonneg b → 0 ≤ v → budgetsNonneg (<[k := v]> b).
Proof.
  intros Hb Hv k' v'. rewrite lookup_insert.
  case_decide; [by intros [= <-] | apply Hb].
Qed.

Lemma TrackerInv_memory (st : Tracker.State) :
  TrackerInv st →
  Forall trackerStored (Tracker.entries st)
  ∧ budgetsNonneg (Tracker.budgets st).
Proof.
  intros [[He Hb] [HE HB]]. split; [by eapply HE | by eapply HB].
Qed.

Lemma TrackerInv_intro (st : Tracker.State) E B c :
  Tracker.storage st
  = Tracker.mkStorage c (<[Tracker.monthKey st := Tracker.entries st]> E)
                        (<[Tracker.monthKey st := Tracker.budgets st]> B) →
  (∀ m l, E !! m = Some l → Forall trackerStored l) →
  (∀ m b, B !! m = Some b → budgetsNonneg b) →
  Forall trackerStored (Tracker.entries st) →
  budgetsNonneg (Tracker.budgets st) →
  TrackerInv st.
Proof.
  intros Hs HE HB He Hb. unfold TrackerInv, synced, storageValid.
  rewrite Hs. simpl. rewrite !lookup_insert_eq. repeat split.
  - by apply entriesValid_insert.
  - by apply budgetsValid_insert.
Qed.

Lemma insert_same_lookup {V : Type} (M : gmap string V) k v :
  M !! k = Some v → <[k := v]> M = M.
Proof. apply insert_id. Qed.

Lemma TrackerInv_step toNum (st st' : Tracker.State) :
  TrackerStep toNum st st' → TrackerInv st → TrackerInv st'.
Proof.
  intros Hstep Hinv. pose proof (TrackerInv_memory st Hinv) as [Hmem Hbud].
  destruct Hinv as [[Hse Hsb] [HE HB]].
  destruct Hstep; try done.
  - (* setMonthValue *)
    unfold Tracker.setMonthValue. case_decide as Hv; [done|].
    apply (TrackerInv_intro _ (Tracker.st_entries (Tracker.storage st))
             (Tracker.st_budgets (Tracker.storage st))
             (Tracker.st_categories (Tracker.storage st)));
      simpl; unfold Tracker.monthKey; simpl.
    + by rewrite !insert_insert_eq.
    + done.
    + done.
    + destruct (Tracker.st_entries (Tracker.storage st) !! v) eqn:E; simpl;
        [by eapply HE | constructor].
    + apply budgetsNonneg_delete.
      destruct (Tracker.st_budgets (Tracker.storage st) !! v) eqn:E; simpl;
        [by eapply HB | apply budgetsNonneg_empty].
  - (* clearMonth *)
    unfold Tracker.clearMonth. destruct ok; [|done].
    apply (TrackerInv_intro _
             (delete (Tracker.monthKey st) (Tracker.st_entries (Tracker.storage st)))
             (delete (Tracker.monthKey st) (Tracker.st_budgets (Tracker.storage st)))
             (Tracker.st_categories (Tracker.storage st)));
      simpl; unfold Tracker.monthKey; simpl.
    + done.
    + intros m l. rewrite lookup_delete. case_decide; [done|apply HE].
    + intros m b. rewrite lookup_delete. case_decide; [done|apply HB].
    + constructor.
    + apply budgetsNonneg_empty.
  - (* clearAll *)
    unfold Tracker.clearAll. destruct ok; [|done].
    destruct same;
      [apply (TrackerInv_intro _ ∅ ∅ None)
      |apply (TrackerInv_intro _ ∅ ∅ (Some Tracker.DEFAULT_CATEGORIES))];
      simpl; unfold Tracker.monthKey; simpl; try done;
      try apply budgetsNonneg_empty;
      by (intros m x Hx; rewrite lookup_empty in Hx).
  - (* addOrUpdateExpense *)
    destruct (Tracker_addOrUpdate_cases toNum okAdd uuid st)
      as [-> | (a & Ha & Hpos & Hw & Hc & Hd & Hents & _ & Hmv & Hb & Hste
                & Hstb & _)]; [done|].
    assert (Forall trackerStored
              (Tracker.entries (Tracker.addOrUpdateExpense toNum okAdd uuid st)))
      as Hnew.
    { destruct Hents as [(eid & _ & _ & -> & _) | (_ & -> & _)].
      - apply Forall_fmap. revert Hmem. apply List.Forall_impl.
        intros e He. simpl. case_decide; [|done].
        repeat split; simpl; auto using trim_idem.
      - rewrite sort_perm. constructor; [|done].
        repeat split; simpl; auto using trim_idem. }
    unfold TrackerInv, synced, storageValid, Tracker.monthKey.
    rewrite Hmv, Hb, Hste, Hstb. unfold Tracker.monthKey.
    rewrite lookup_insert_eq. repeat split; try done.
    by apply entriesValid_insert.
  - (* deleteEntry *)
    unfold Tracker.deleteEntry. destruct ok; [|done].
    unfold TrackerInv, synced, storageValid, Tracker.monthKey. simpl.
    unfold Tracker.monthKey. rewrite lookup_insert_eq. repeat split; try done.
    apply entriesValid_insert; [done|]. by apply Forall_filter_keep.
  - (* addCategory *)
    unfold Tracker.addCategory.
    destruct (falsy _); [done|]. destruct (existsb _ _); done.
  - (* removeCategory *)
    unfold Tracker.removeCategory. destruct ok; [|done].
    unfold TrackerInv, synced, storageValid, Tracker.monthKey. simpl.
    unfold Tracker.monthKey. rewrite lookup_insert_eq. repeat split; try done.
    apply budgetsValid_insert; [done|]. by apply budgetsNonneg_delete.
  - (* setBudget *)
    unfold Tracker.setBudget.
    unfold TrackerInv, synced, storageValid, Tracker.monthKey. simpl.
    unfold Tracker.monthKey. rewrite lookup_insert_eq. repeat split; try done.
    apply budgetsValid_insert; [done|]. apply budgetsNonneg_insert; [done|].
    destruct (toNum value) as [q| | |]; try done.
    case_bool_decide; done.
Qed.

Lemma TrackerInv_init today thisMonth (store : Tracker.Storage) :
  storageValid store → TrackerInv (Tracker.init today thisMonth store).
Proof.
  intros [HE HB]. unfold Tracker.init.
  apply (TrackerInv_intro _ (Tracker.st_entries store)
           (Tracker.st_budgets store)
           (Some (Tracker.loadCategories (Tracker.st_categories store))));
    simpl; unfold Tracker.monthKey; simpl.
  - by rewrite !insert_insert_eq.
  - done.
  - done.
  - destruct (Tracker.st_entries store !! thisMonth) eqn:E; simpl;
      [by eapply HE | constructor].
  - apply budgetsNonneg_delete.
    destruct (Tracker.st_budgets store !! thisMonth) eqn:E; simpl;
      [by eapply HB | apply budgetsNonneg_empty].
Qed.

(** X14.  In [Tracker], from the first render on and whatever the user does, the
    stored records of the month on screen hold exactly the entries and the
    budgets that are in memory, every stored entry of every month has a
    positive amount, a trimmed description, and a description, date and
    category that are not empty, and no stored budget is negative; this
    assumes that the storage found at start-up is of that kind, the empty
    storage for one. *)
Theorem tracker_actions_keep_storage_in_sync :
  (∀ today thisMonth store,
      storageValid store → TrackerInv (Tracker.init today thisMonth store))
  ∧ (∀ toNum (st st' : Tracker.State),
      TrackerInv st → rtc (TrackerStep toNum) st st' →
      TrackerInv st'
      ∧ Forall trackerStored (Tracker.entries st')
      ∧ budgetsNonneg (Tracker.budgets st')).
Proof.
  split; [exact TrackerInv_init|].
  intros toNum st st' Hinv Hsteps.
  assert (TrackerInv st') as Hinv'.
  { induction Hsteps as [|st st1 st2 Hstep _ IH]; [done|].
    apply IH. by eapply TrackerInv_step. }
  split; [done|]. by apply TrackerInv_memory.
Qed.

Lemma storageValid_empty : storageValid (Tracker.mkStorage None ∅ ∅).
Proof.
  split; intros m x Hx; simpl in Hx; by rewrite lookup_empty in Hx.
Qed.

Lemma tracker_actions_keep_storage_in_sync_witness :
  TrackerInv
    (Tracker.setBudget sampleToNumber "Food" "-5"
       (Tracker.addOrUpdateExpense sampleToNumber false "u7"
          (Tracker.setFormWhat "Tea"
             (Tracker.setFormAmount "12.50" tracker_fresh)))).
Proof.
  destruct tracker_actions_keep_storage_in_sync as [Hinit Hsteps].
  refine (proj1 (Hsteps sampleToNumber tracker_fresh _
                   (Hinit _ _ _ storageValid_empty) _)).
  eapply rtc_l; [apply (TS_setFormAmount sampleToNumber "12.50")|].
  eapply rtc_l; [apply (TS_setFormWhat sampleToNumber "Tea")|].
  eapply rtc_l; [apply (TS_addOrUpdate sampleToNumber false "u7")|].
  apply rtc_once. apply TS_setBudget.
Defined.

Lemma Tracker_switch today v (st : Tracker.State) :
  v ≠ Tracker.monthValue st →
  let st' := Tracker.setMonthValue today v st in
  Tracker.monthValue st' = v
  ∧ Tracker.entries st'
    = default [] (Tracker.st_entries (Tracker.storage st) !! v)
  ∧ Tracker.budgets st'
    = Tracker.cleanBudgets
        (default ∅ (Tracker.st_budgets (Tracker.storage st) !! v))
  ∧ Tracker.categories st' = Tracker.categories st
  ∧ Tracker.st_entries (Tracker.storage st')
    = <[v := Tracker.entries st']> (Tracker.st_entries (Tracker.storage st))
  ∧ Tracker.st_budgets (Tracker.storage st')
    = <[v := Tracker.budgets st']> (Tracker.st_budgets (Tracker.storage st))
  ∧ Tracker.st_categories (Tracker.storage st')
    = Tracker.st_categories (Tracker.storage st)
  ∧ Tracker.editingId st' = None.
Proof.
  intros Hv st'. subst st'. unfold Tracker.setMonthValue.
  rewrite decide_False by done. simpl. unfold Tracker.monthKey. simpl.
  by rewrite !insert_insert_eq.
Qed.

(** X15.  In [Tracker], when the records of the month on screen hold what is in
    memory, switching to another month and back shows the same entries and
    the same budgets again, but for a budget kept under the name
    ["__proto__"], which is lost; the edit in progress, if any, is gone. *)
Theorem tracker_month_round_trip (today1 today2 v : string)
    (st : Tracker.State) :
  synced st → v ≠ Tracker.monthValue st →
  let st2 :=
    Tracker.setMonthValue today2 (Tracker.monthValue st)
      (Tracker.setMonthValue today1 v st) in
  Tracker.entries st2 = Tracker.entries st
  ∧ Tracker.budgets st2 = delete "__proto__" (Tracker.budgets st)
  ∧ (∀ k, k ≠ "__proto__" →
       Tracker.budgets st2 !! k = Tracker.budgets st !! k)
  ∧ (Tracker.budgets st !! "__proto__" = None →
       Tracker.budgets st2 = Tracker.budgets st)
  ∧ Tracker.monthValue st2 = Tracker.monthValue st
  ∧ Tracker.categories st2 = Tracker.categories st
  ∧ synced st2
  ∧ Tracker.editingId st2 = None.
Proof.
  intros [Hse Hsb] Hv st2. subst st2. unfold Tracker.monthKey in *.
  unfold Tracker.monthKeyFromMonthInput in *.
  destruct (Tracker_switch today1 v st Hv)
    as (Hm1 & He1 & Hb1 & Hc1 & Hse1 & Hsb1 & _).
  set (st1 := Tracker.setMonthValue today1 v st) in *.
  assert (Tracker.monthValue st ≠ Tracker.monthValue st1) as Hback
    by (rewrite Hm1; congruence).
  destruct (Tracker_switch today2 (Tracker.monthValue st) st1 Hback)
    as (Hm2 & He2 & Hb2 & Hc2 & Hse2 & Hsb2 & _ & Hed2).
  set (st2 := Tracker.setMonthValue today2 (Tracker.monthValue st) st1) in *.
  assert (Tracker.entries st2 = Tracker.entries st) as He.
  { by rewrite He2, Hse1, lookup_insert_ne, Hse. }
  assert (Tracker.budgets st2 = delete "__proto__" (Tracker.budgets st)) as Hb.
  { by rewrite Hb2, Hsb1, lookup_insert_ne, Hsb. }
  split; [done|]. split; [done|].
  split; [intros k Hk; by rewrite Hb, lookup_delete_ne|].
  split; [intros Hp; rewrite Hb; by apply delete_id|].
  split; [done|]. split; [congruence|]. split; [|done]. split.
  - unfold Tracker.monthKey, Tracker.monthKeyFromMonthInput.
    by rewrite Hm2, Hse2, lookup_insert_eq.
  - unfold Tracker.monthKey, Tracker.monthKeyFromMonthInput.
    by rewrite Hm2, Hsb2, lookup_insert_eq.
Qed.

Lemma tracker_jan_synced : synced tracker_jan.
Proof. split; reflexivity. Qed.

Lemma tracker_month_round_trip_witness :
  Tracker.entries
    (Tracker.setMonthValue "2026-01-21" "2026-01"
       (Tracker.setMonthValue "2026-01-20" "2025-12" tracker_jan))
  = Tracker.entries tracker_jan.
Proof.
  refine (proj1 (tracker_month_round_trip "2026-01-20" "2026-01-21" "2025-12"
                   tracker_jan tracker_jan_synced _)).
  discriminate.
Defined.

(** ** [Tracker]: entries *)

Lemma Tracker_monthTotal_sum (l : list Tracker.Entry) :
  Tracker.monthTotalOf l = sumQc (map Tracker.amount l).
Proof. apply reduce_sum. Qed.

(** X16.  A valid add in [Tracker] (no edit in progress; the category of the
    form is listed, or the prompt to add it is accepted) puts one new entry
    into the list of the month on screen, whatever its date, and writes the
    list to the record of that month only; the budgets are kept, and so are
    the categories when the category is listed; amount and description of
    the form are blanked, date and category are kept. *)
Theorem tracker_valid_add_inserts_entry toNum okAdd uuid
    (st : Tracker.State) a :
  Tracker.editingId st = None ∨ Tracker.editingId st = Some "" →
  toNum (Tracker.formAmount st) = JFin a → 0 < a →
  trim (Tracker.formWhat st) ≠ "" → trim (Tracker.formCategory st) ≠ "" →
  Tracker.formDate st ≠ "" →
  Tracker.formCategory st ∈ Tracker.categories st ∨ okAdd = true →
  let st' := Tracker.addOrUpdateExpense toNum okAdd uuid st in
  let new := Tracker.mkEntry uuid (Tracker.formDate st) a
               (Tracker.formCategory st) (trim (Tracker.formWhat st)) in
  Tracker.entries st' ≡ₚ new :: Tracker.entries st
  ∧ Tracker.st_entries (Tracker.storage st') !! Tracker.monthKey st
    = Some (Tracker.entries st')
  ∧ (∀ m, m ≠ Tracker.monthKey st →
       Tracker.st_entries (Tracker.storage st') !! m
       = Tracker.st_entries (Tracker.storage st) !! m)
  ∧ (Tracker.formCategory st ∈ Tracker.categories st →
       Tracker.categories st' = Tracker.categories st)
  ∧ Tracker.budgets st' = Tracker.budgets st
  ∧ Tracker.editingId st' = Tracker.editingId st
  ∧ (Tracker.formAmount st', Tracker.formWhat st') = ("", "")
  ∧ Tracker.formDate st' = Tracker.formDate st
  ∧ Tracker.formCategory st' = Tracker.formCategory st.
Proof.
  intros Hed Ha Hpos Hw Hc Hd Hin st' new.
  destruct (Tracker_addOrUpdate_ok toNum okAdd uuid st a Ha Hpos Hw Hc Hd Hin)
    as (Hents & Hcats & Hmv & Hb & Hse & Hsb & Hfa & Hfw & Hfd & Hfc & _).
  fold st' in Hents, Hcats, Hmv, Hb, Hse, Hsb, Hfa, Hfw, Hfd, Hfc.
  assert (Tracker.entries st' ≡ₚ new :: Tracker.entries st
          ∧ Tracker.editingId st' = Tracker.editingId st) as [Hperm Hsame].
  { destruct Hents as [(eid & He & Hne & _) | (_ & -> & Hid)];
      [|split; [apply sort_perm|done]].
    destruct Hed as [Hed | Hed]; rewrite Hed in He; congruence. }
  split; [done|]. split; [by rewrite Hse, lookup_insert_eq|].
  split; [intros m Hm; by rewrite Hse, lookup_insert_ne|].
  split.
  { intros Hl. destruct Hcats as [(_ & H & _) | (Hn & _)]; [done|by destruct Hn]. }
  split; [done|]. split; [done|]. split; [by rewrite Hfa, Hfw|]. done.
Qed.

Lemma tracker_valid_add_inserts_entry_witness :
  Tracker.entries (Tracker.addOrUpdateExpense sampleToNumber false "u7"
                     tracker_ready)
  ≡ₚ Tracker.mkEntry "u7" "2026-01-20" (Q2Qc (25 # 2)) "Food" "Tea"
     :: Tracker.entries tracker_ready.
Proof.
  refine (proj1 (tracker_valid_add_inserts_entry sampleToNumber false "u7"
                   tracker_ready (Q2Qc (25 # 2)) (or_introl eq_refl) eq_refl
                   eq_refl _ _ _ _)); try discriminate.
  left. apply (bool_decide_unpack _). vm_compute. exact I.
Defined.

Lemma map_no_match {A : Type} (P : A → Prop) `{!∀ x, Decision (P x)}
    (f : A → A) (l : list A) :
  (∀ x, x ∈ l → ¬ P x) → map (λ x, if decide (P x) then f x else x) l = l.
Proof.
  induction l as [|y l IH]; intros Hno; simpl; [done|].
  rewrite decide_False by (apply Hno; by left). f_equal.
  apply IH. intros x Hx. apply Hno. by right.
Qed.

(** X17.  In [Tracker], a save that passes the checks while the entry being
    edited is no longer in the list (it was deleted, or the month was
    cleared) stores nothing: the list is unchanged, the typed amount and
    description are dropped and the form leaves the editing state. *)
Theorem tracker_save_without_target_drops_input toNum okAdd uuid
    (st : Tracker.State) eid a :
  Tracker.editingId st = Some eid → eid ≠ "" →
  (∀ e, e ∈ Tracker.entries st → Tracker.id e ≠ eid) →
  toNum (Tracker.formAmount st) = JFin a → 0 < a →
  trim (Tracker.formWhat st) ≠ "" → trim (Tracker.formCategory st) ≠ "" →
  Tracker.formDate st ≠ "" →
  Tracker.formCategory st ∈ Tracker.categories st ∨ okAdd = true →
  let st' := Tracker.addOrUpdateExpense toNum okAdd uuid st in
  Tracker.entries st' = Tracker.entries st
  ∧ Tracker.editingId st' = None
  ∧ (Tracker.formAmount st', Tracker.formWhat st') = ("", "").
Proof.
  intros He Hne Hgone Ha Hpos Hw Hc Hd Hin st'.
  destruct (Tracker_addOrUpdate_ok toNum okAdd uuid st a Ha Hpos Hw Hc Hd Hin)
    as (Hents & _ & _ & _ & _ & _ & Hfa & Hfw & _).
  fold st' in Hents, Hfa, Hfw.
  destruct Hents as [(eid' & He' & _ & Hmap & Hnone) | ([Hn | Hn] & _)];
    [|congruence|rewrite He in Hn; by injection Hn as ->].
  rewrite He in He'. injection He' as <-.
  split; [|split; [done|by rewrite Hfa, Hfw]].
  rewrite Hmap. by apply map_no_match.
Qed.

Lemma tracker_save_without_target_drops_input_witness :
  Tracker.entries (Tracker.addOrUpdateExpense sampleToNumber false "u7"
                     tracker_orphan_edit)
  = Tracker.entries tracker_orphan_edit.
Proof.
  refine (proj1 (tracker_save_without_target_drops_input sampleToNumber false
                   "u7" tracker_orphan_edit "e1" (Q2Qc 30) eq_refl _ _ eq_refl
                   eq_refl _ _ _ _)); try discriminate.
  - intros e He. by apply elem_of_nil in He.
  - left. apply (bool_decide_unpack _). vm_compute. exact I.
Defined.



(** ** [Tracker]: categories *)


Lemma NoDup_map_filter {A B : Type} (f : A → B) (P : A → Prop)
    `{!∀ x, Decision (P x)} (l : list A) :
  NoDup (map f l) → NoDup (map f (filter P l)).
Proof.
  induction l as [|x l IH]; simpl; [done|].
  rewrite list.NoDup_cons. intros [Hx Hl]. rewrite filter_cons.
  case_decide; [|by apply IH]. simpl. apply list.NoDup_cons. split; [|by apply IH].
  intros Hin. apply Hx. apply list_elem_of_fmap in Hin as (y & -> & Hy).
  apply list_elem_of_fmap. exists y. split; [done|].
  by apply list_elem_of_filter in Hy as [_ Hy].
Qed.

Lemma effCategories_form (st : Tracker.State) :
  let st' := Tracker.effCategories st in
  Tracker.formCategory st' ∈ Tracker.categories st'
  ∨ (Tracker.categories st' = [] ∧ Tracker.formCategory st' = "Other").
Proof.
  unfold Tracker.effCategories. simpl. case_bool_decide as Hin; [by left|].
  destruct (Tracker.categories st) as [|c l]; simpl; [by right|].
  left. by left.
Qed.



(** X20.  [removeCategory] of [Tracker], once confirmed, leaves the form category
    on a listed category, or on ["Other"] when the list has become empty: a
    form category that was the removed name moves to the first category that
    is left; one that is still listed is kept.  Category names that were
    distinct ignoring case stay so. *)
Theorem tracker_remove_category_form_fallback (name : string)
    (st : Tracker.State) :
  let st' := Tracker.removeCategory true name st in
  (Tracker.formCategory st' ∈ Tracker.categories st'
   ∨ (Tracker.categories st' = [] ∧ Tracker.formCategory st' = "Other"))
  ∧ (Tracker.formCategory st ≠ name →
     Tracker.formCategory st ∈ Tracker.categories st →
       Tracker.formCategory st' = Tracker.formCategory st)
  ∧ (Tracker.formCategory st = name →
       Tracker.formCategory st'
       = default "Other"
           (head (filter (λ c, c ≠ name) (Tracker.categories st))))
  ∧ (distinctIgnoringCase (Tracker.categories st) →
       distinctIgnoringCase (Tracker.categories st')).
Proof.
  intros st'. subst st'. unfold Tracker.removeCategory.
  split; [|split; [|split]].
  - set (st0 := Tracker.mkState _ _ _ _ _ _ _ _ _ _ _).
    exact (effCategories_form st0).
  - intros Hne Hin. simpl. rewrite decide_False by done.
    rewrite bool_decide_eq_true_2; [done|]. by apply list_elem_of_filter.
  - intros Heq. simpl. rewrite decide_True by done.
    case_bool_decide as Hin; [done|].
    by destruct (filter _ (Tracker.categories st)).
  - simpl. apply NoDup_map_filter.
Qed.

Lemma tracker_remove_category_form_fallback_witness :
  Tracker.formCategory (Tracker.removeCategory true "Fun" tracker_jan) = "Bills".
Proof.
  exact (proj1 (proj2 (proj2 (tracker_remove_category_form_fallback "Fun"
                                tracker_jan))) eq_refl).
Defined.



(** X22.  The category list that [Tracker] starts with is never empty and holds no
    empty name; every name is trimmed.  It is the default list when nothing is
    stored or when every stored name is blank, and the stored names, trimmed
    and without the blank ones, otherwise. *)
Theorem tracker_loaded_categories_never_empty (saved : option (list string)) :
  let cats := Tracker.loadCategories saved in
  cats ≠ []
  ∧ (∀ c, c ∈ cats → c ≠ "" ∧ trim c = c)
  ∧ ((∀ c, c ∈ default [] saved → trim c = "") →
       cats = Tracker.DEFAULT_CATEGORIES)
  ∧ ((∃ c, c ∈ default [] saved ∧ trim c ≠ "") →
       cats = filter (λ s, s ≠ "") (map trim (default [] saved))).
Proof.
  intros cats. subst cats. unfold Tracker.loadCategories. cbv zeta.
  set (normalized := filter (λ s, s ≠ "") (map trim (default [] saved))).
  assert (∀ c, c ∈ normalized → c ≠ "" ∧ trim c = c) as Hnorm.
  { intros c Hc. apply list_elem_of_filter in Hc as [Hne Hc]. split; [done|].
    apply list_elem_of_fmap in Hc as (s & -> & _). apply trim_idem. }
  assert (∀ c, c ∈ Tracker.DEFAULT_CATEGORIES → c ≠ "" ∧ trim c = c) as Hdef.
  { intros c Hc. unfold Tracker.DEFAULT_CATEGORIES in Hc.
    repeat (apply elem_of_cons in Hc as [-> | Hc]; [by split|]).
    by apply elem_of_nil in Hc. }
  split; [|split; [|split]].
  - by destruct normalized.
  - by destruct normalized.
  - intros Hblank.
    assert (normalized = []) as ->; [|done].
    apply filter_all_out. intros c Hc Hne.
    apply list_elem_of_fmap in Hc as (s & -> & Hs). by apply Hne, Hblank.
  - intros (c & Hc & Hne).
    assert (trim c ∈ normalized) as Hin.
    { apply list_elem_of_filter. split; [done|].
      apply list_elem_of_fmap. by exists c. }
    destruct normalized; [by apply elem_of_nil in Hin | done].
Qed.

Lemma tracker_loaded_categories_never_empty_witness :
  Tracker.loadCategories (Some ["  "; ""]) = Tracker.DEFAULT_CATEGORIES.
Proof.
  refine (proj1 (proj2 (proj2 (tracker_loaded_categories_never_empty
                                 (Some ["  "; ""])))) _).
  intros c Hc. simpl in Hc.
  apply elem_of_cons in Hc as [-> | Hc]; [reflexivity|].
  apply list_elem_of_singleton in Hc. subst c. reflexivity.
Defined.

(** ** [Tracker]: budgets *)

(** X23.  [setBudget] of [Tracker] never rejects and never stores a negative or
    non-finite value: a text that parses to a finite number at least 0 is
    stored as that number, anything else as 0.  The budgets of the other
    categories and the records of the other months are untouched, and the
    table of the month on screen is written to its record. *)
Theorem tracker_set_budget_normalizes toNum (cat value : string)
    (st : Tracker.State) :
  let st' := Tracker.setBudget toNum cat value st in
  (∀ q, toNum value = JFin q → 0 ≤ q → Tracker.budgets st' !! cat = Some q)
  ∧ ((∀ q, toNum value = JFin q → q < 0) →
       Tracker.budgets st' !! cat = Some 0)
  ∧ (∃ v, Tracker.budgets st' !! cat = Some v ∧ 0 ≤ v)
  ∧ (∀ c, c ≠ cat → Tracker.budgets st' !! c = Tracker.budgets st !! c)
  ∧ Tracker.st_budgets (Tracker.storage st') !! Tracker.monthKey st
    = Some (Tracker.budgets st')
  ∧ (∀ m, m ≠ Tracker.monthKey st →
       Tracker.st_budgets (Tracker.storage st') !! m
       = Tracker.st_budgets (Tracker.storage st) !! m)
  ∧ Tracker.entries st' = Tracker.entries st.
Proof.
  intros st'. subst st'. unfold Tracker.setBudget. simpl.
  unfold Tracker.monthKey. simpl.
  split; [|split; [|split; [|split; [|split; [|split; [|done]]]]]].
  - intros q -> Hq. rewrite lookup_insert_eq.
    by rewrite bool_decide_eq_true_2.
  - intros Hneg. rewrite lookup_insert_eq. f_equal.
    destruct (toNum value) as [q| | |] eqn:E; try done.
    rewrite bool_decide_eq_false_2; [done|]. apply Qclt_nge. by apply Hneg.
  - rewrite lookup_insert_eq. eexists. split; [done|].
    destruct (toNum value) as [q| | |]; try done. by case_bool_decide.
  - intros c Hc. by rewrite lookup_insert_ne.
  - by rewrite lookup_insert_eq.
  - intros m Hm. by rewrite lookup_insert_ne.
Qed.

Lemma tracker_set_budget_normalizes_witness :
  Tracker.budgets (Tracker.setBudget sampleToNumber "Food" "-5" tracker_jan)
  !! "Food" = Some 0.
Proof.
  refine (proj1 (proj2 (tracker_set_budget_normalizes sampleToNumber "Food"
                          "-5" tracker_jan)) _).
  intros q Hq. injection Hq as <-. reflexivity.
Defined.

(** X24.  For a category with a positive budget the percentage shown on its card
    is a whole number between 0 and 999, whatever was spent; a value inside
    the bounds is left as it is by [clamp]. *)
Theorem tracker_percent_label_bounded :
  (∀ s b : Qc,
      0 < b →
      ∃ n, Tracker.p_label (Tracker.progress s b) = Tracker.Percent n
           ∧ (0 ≤ n ≤ 999)%Z)
  ∧ (∀ n lo hi : Qc, lo ≤ n → n ≤ hi → Tracker.clamp n lo hi = n).
Proof.
  split.
  - intros s b Hb. unfold Tracker.progress. simpl.
    rewrite !bool_decide_eq_true_2 by done. eexists. split; [done|].
    set (x := Tracker.clamp _ 0 (Q2Qc 999)).
    assert (0 ≤ x ≤ Q2Qc 999) as [Hlo Hhi] by (by apply clamp_range).
    unfold Tracker.Math_round. split.
    + change 0%Z with (Qfloor (this (Q2Qc 0) + this (Q2Qc 0))).
      apply Qfloor_resp_le. apply Qplus_le_compat; [exact Hlo|discriminate].
    + change 999%Z
        with (Qfloor (this (Q2Qc 999) + this (Q2Qc (1 # 2)))).
      apply Qfloor_resp_le. apply Qplus_le_compat; [exact Hhi|apply Qle_refl].
  - intros n lo hi Hlo Hhi. unfold Tracker.clamp, Math_max, Math_min.
    case_bool_decide as H1; case_bool_decide as H2; try done.
    + apply Qcle_antisym; [by apply Qcnot_lt_le|done].
    + apply Qcle_antisym; [done|]. by apply Qcnot_lt_le.
    + apply Qcle_antisym; [done|].
      apply Qcle_trans with hi; [done|]. by apply Qcnot_lt_le.
Qed.

Lemma tracker_percent_label_bounded_witness :
  ∃ n, Tracker.p_label (Tracker.progress (Q2Qc 120000) (Q2Qc 100))
       = Tracker.Percent n ∧ (0 ≤ n ≤ 999)%Z.
Proof.
  apply (proj1 tracker_percent_label_bounded (Q2Qc 120000) (Q2Qc 100)).
  reflexivity.
Defined.

(** ** [Tracker]: the summary cards and clearing *)

Lemma Tracker_biggestCategory_eq (st : Tracker.State) :
  Tracker.biggestCategory st
  = Tracker.biggestOf
      (numbers (Object_entries (Tracker.categoryTotalsOf (Tracker.entries st)))).
Proof. reflexivity. Qed.

Lemma Object_entries_elem {V : Type} (o : list (string * V)) (p : string * V) :
  p ∈ Object_entries o ↔ p ∈ o.
Proof.
  unfold Object_entries.
  rewrite elem_of_app, sort_elem_of, !list_elem_of_filter. split.
  - by intros [[_ H]|[_ H]].
  - intros Hp. destruct (arrayIndex p.1) as [n|] eqn:E; [left|by right].
    split; [|done]. congruence.
Qed.

Lemma numbers_elem (o : list (string * jsprop)) (k : string) (q : Qc) :
  (k, q) ∈ numbers o ↔ (k, PNum q) ∈ o.
Proof.
  induction o as [|[k' [q'|]] r IH]; simpl.
  - split; intros H; by apply elem_of_nil in H.
  - rewrite !elem_of_cons, IH. split; (intros [[= -> ->]|H]; [by left|by right]).
  - rewrite elem_of_cons, IH. split; [by right|]. by intros [[=]|H].
Qed.

Lemma Tracker_spent_pos (l : list Tracker.Entry) (e : Tracker.Entry) :
  Forall trackerStored l → e ∈ l → 0 < spentOn (Tracker.category e) l.
Proof.
  intros Hl He. unfold spentOn. rewrite Tracker_monthTotal_sum.
  apply Qclt_le_trans with (Tracker.amount e).
  - rewrite list.Forall_forall in Hl. by apply Hl.
  - apply sumQc_elem_le.
    + apply Forall_fmap, Forall_filter_keep. revert Hl.
      apply List.Forall_impl. by intros x [Hx _].
    + apply list_elem_of_fmap. exists e. split; [done|].
      by apply list_elem_of_filter.
Qed.

Lemma Tracker_total_listed (l : list Tracker.Entry) (e : Tracker.Entry) :
  e ∈ l → inherited (Tracker.category e) = false →
  (Tracker.category e, spentOn (Tracker.category e) l)
  ∈ numbers (Object_entries (Tracker.categoryTotalsOf l)).
Proof.
  intros He Hk. rewrite numbers_elem, Object_entries_elem.
  assert (Tracker.category e ∈ map fst (Tracker.categoryTotalsOf l)) as Hin.
  { apply Tracker_totals_keys. split; [by apply inherited_false|by exists e]. }
  pose proof (Tracker_totalOf_spent (Tracker.category e) l Hk) as Ht.
  unfold Tracker.totalOf in Ht.
  destruct (Tracker.ownProp _ _) as [v|] eqn:E.
  - subst v. by apply Tracker_ownProp_elem.
  - by apply Tracker_ownProp_None in E.
Qed.

Lemma Tracker_no_numbers (l : list Tracker.Entry) :
  (∀ e, e ∈ l → inherited (Tracker.category e) = true) →
  numbers (Object_entries (Tracker.categoryTotalsOf l)) = [].
Proof.
  intros Hall.
  destruct (nil_or_elem (numbers (Object_entries (Tracker.categoryTotalsOf l))))
    as [H|[[k q] Hkq]]; [done|]. exfalso.
  rewrite numbers_elem, Object_entries_elem in Hkq.
  assert (k ∈ map fst (Tracker.categoryTotalsOf l)) as Hk
    by (apply list_elem_of_fmap; by exists (k, PNum q)).
  apply Tracker_totals_keys in Hk as [_ (e & He & <-)].
  pose proof (Tracker_totals_sorted Qcplus l) as Hs.
  rewrite list.Forall_forall in Hs. specialize (Hs _ Hkq).
  unfold wellSorted in Hs. simpl in Hs. by rewrite (Hall e He) in Hs.
Qed.

Lemma Tracker_biggest_nil : Tracker.biggestOf [] = Tracker.NoWinner.
Proof.
  destruct (Tracker_biggest_cases []) as [[H _] | (l1 & c & l2 & Hl & _)];
    [done|]. by destruct l1.
Qed.

(** X25.  With valid entries, [biggestCategory] of [Tracker] shows the dash exactly
    when every entry of the month on screen is filed under a name that
    objects inherit from [Object.prototype]; so, when no entry is filed under
    such a name, exactly when the month has no entry.  The month total is 0
    exactly when the month has no entry. *)
Theorem tracker_no_winner_iff_month_empty (st : Tracker.State) :
  Forall trackerStored (Tracker.entries st) →
  (Tracker.biggestCategory st = Tracker.NoWinner
   ↔ ∀ e, e ∈ Tracker.entries st → inherited (Tracker.category e) = true)
  ∧ ((∀ e, e ∈ Tracker.entries st → inherited (Tracker.category e) = false) →
     (Tracker.biggestCategory st = Tracker.NoWinner
      ↔ Tracker.entries st = []))
  ∧ (Tracker.monthTotal st = 0 ↔ Tracker.entries st = []).
Proof.
  intros Hv.
  assert (Tracker.biggestCategory st = Tracker.NoWinner
          ↔ ∀ e, e ∈ Tracker.entries st → inherited (Tracker.category e) = true)
    as Hdash.
  { rewrite Tracker_biggestCategory_eq. split.
    - intros Hnone e He.
      destruct (inherited (Tracker.category e)) eqn:Hk; [done|]. exfalso.
      destruct (Tracker_biggest_cases
                  (numbers (Object_entries
                     (Tracker.categoryTotalsOf (Tracker.entries st)))))
        as [[_ Hall] | (l1 & c & l2 & _ & Hr & _)];
        [|rewrite Hr in Hnone; discriminate].
      pose proof (Hall _ (Tracker_total_listed _ e He Hk)) as Hle.
      simpl in Hle. apply Qcle_ngt in Hle. apply Hle.
      by apply Tracker_spent_pos.
    - intros Hall. rewrite Tracker_no_numbers by done.
      apply Tracker_biggest_nil. }
  split; [exact Hdash|]. split.
  - intros Hplain. rewrite Hdash. split.
    + intros Hall. destruct (nil_or_elem (Tracker.entries st)) as [H|[e He]];
        [done|].
      specialize (Hall e He). by rewrite (Hplain e He) in Hall.
    + intros -> e He. by apply elem_of_nil in He.
  - split.
    + intros Hz. destruct (nil_or_elem (Tracker.entries st)) as [H|[e He]];
        [done|].
      exfalso. unfold Tracker.monthTotal in Hz.
      rewrite Tracker_monthTotal_sum in Hz.
      assert (0 < sumQc (map Tracker.amount (Tracker.entries st))) as Hs.
      { apply sumQc_pos.
        - apply Forall_fmap. revert Hv. apply List.Forall_impl.
          by intros x [Hx _].
        - clear -He. destruct (Tracker.entries st);
            [by apply elem_of_nil in He | done]. }
      rewrite Hz in Hs. by apply (irreflexivity Qclt 0).
    + intros El. unfold Tracker.monthTotal. by rewrite El.
Qed.

Lemma tracker_no_winner_iff_month_empty_witness :
  Tracker.biggestCategory tracker_proto = Tracker.NoWinner.
Proof.
  refine (proj2 (proj1 (tracker_no_winner_iff_month_empty tracker_proto _)) _).
  - constructor; [|constructor]. repeat split; try done.
  - intros e He. apply list_elem_of_singleton in He as ->. reflexivity.
Defined.

(** X26.  A confirmed [clearAll] of [Tracker] leaves no entry and no budget for any
    month, in memory or in storage, puts the default categories back, selects
    the current month and ends any edit; the summary then shows a total of 0
    and no biggest category.  A declined prompt changes nothing. *)
Theorem tracker_clear_all_wipes_every_month (today thisMonth : string)
    (sameArray : bool) (st : Tracker.State) :
  let st' := Tracker.clearAll true today thisMonth sameArray st in
  Tracker.entries st' = []
  ∧ Tracker.budgets st' = ∅
  ∧ Tracker.categories st' = Tracker.DEFAULT_CATEGORIES
  ∧ Tracker.monthValue st' = thisMonth
  ∧ Tracker.editingId st' = None
  ∧ (∀ m, default [] (Tracker.st_entries (Tracker.storage st') !! m) = [])
  ∧ (∀ m, default ∅ (Tracker.st_budgets (Tracker.storage st') !! m) = ∅)
  ∧ Tracker.monthTotal st' = 0
  ∧ Tracker.biggestCategory st' = Tracker.NoWinner
  ∧ synced st'
  ∧ Tracker.clearAll false today thisMonth sameArray st = st.
Proof.
  intros st'. subst st'.
  assert (Tracker.entries
            (Tracker.clearAll true today thisMonth sameArray st) = []) as He
    by (by destruct sameArray).
  split; [done|]. split; [by destruct sameArray|].
  split; [by destruct sameArray|]. split; [by destruct sameArray|].
  split; [by destruct sameArray|]. split; [|split; [|split; [|split]]].
  - intros m. destruct sameArray; simpl; unfold Tracker.monthKey; simpl;
      rewrite lookup_insert; case_decide; by rewrite ?lookup_empty.
  - intros m. destruct sameArray; simpl; unfold Tracker.monthKey; simpl;
      rewrite lookup_insert; case_decide; by rewrite ?lookup_empty.
  - unfold Tracker.monthTotal. by rewrite He.
  - rewrite Tracker_biggestCategory_eq, He. apply Tracker_biggest_nil.
  - split; [|done].
    destruct sameArray; unfold synced; simpl; unfold Tracker.monthKey; simpl;
      by rewrite !lookup_insert_eq.
Qed.

(** ** The clock *)

Lemma N_range_forall (f : N → bool) (lo len : nat) :
  forallb f (map N.of_nat (seq lo len)) = true →
  ∀ n, (lo ≤ N.to_nat n < lo + len)%nat → f n = true.
Proof.
  intros Hall n Hn. rewrite List.forallb_forall in Hall. apply Hall.
  apply in_map_iff. exists (N.to_nat n). split; [apply N2Nat.id|].
  apply in_seq. lia.
Qed.

Lemma year_four_digits (y : N) :
  (1000 ≤ y ≤ 9999)%N → String.length (pretty y) = 4%nat.
Proof.
  intros Hy. apply Nat.eqb_eq.
  apply (N_range_forall (λ y, Nat.eqb (String.length (pretty y)) 4)
           (N.to_nat 1000) (N.to_nat 9000)); [by vm_compute|lia].
Qed.

Lemma month_two_digits (m : N) :
  (m ≤ 11)%N → String.length (pad2 (pretty (m + 1)%N)) = 2%nat.
Proof.
  intros Hm. apply Nat.eqb_eq.
  apply (N_range_forall
           (λ m, Nat.eqb (String.length (pad2 (pretty (m + 1)%N))) 2) 0 12);
    [by vm_compute|lia].
Qed.

Lemma day_two_digits (d : N) :
  (1 ≤ d ≤ 31)%N → String.length (pad2 (pretty d)) = 2%nat.
Proof.
  intros Hd. apply Nat.eqb_eq.
  apply (N_range_forall (λ d, Nat.eqb (String.length (pad2 (pretty d))) 2)
           1 31); [by vm_compute|lia].
Qed.

(** X27.  For a four-digit year, the month of [todayISO()] is [thisMonthISO()]:
    the date the form starts with lies in the month the page starts with;
    with a day of the month it is a ten-character [YYYY-MM-DD] string. *)
Theorem today_lies_in_this_month (fullYear month0 day : N) :
  (1000 ≤ fullYear ≤ 9999)%N → (month0 ≤ 11)%N →
  monthFromDate (todayISO fullYear month0 day) = thisMonthISO fullYear month0
  ∧ ((1 ≤ day ≤ 31)%N →
       String.length (todayISO fullYear month0 day) = 10%nat).
Proof.
  intros Hy Hm.
  pose proof (year_four_digits fullYear Hy) as Hy4.
  pose proof (month_two_digits month0 Hm) as Hm2.
  assert (String.length (thisMonthISO fullYear month0) = 7%nat) as H7.
  { unfold thisMonthISO. rewrite !append_length, Hy4, Hm2. reflexivity. }
  assert (todayISO fullYear month0 day
          = thisMonthISO fullYear month0 ++ ("-" ++ pad2 (pretty day))) as ->.
  { unfold todayISO, thisMonthISO. by rewrite !append_assoc. }
  split.
  - unfold monthFromDate. rewrite <- H7 at 1. apply slice0_app.
  - intros Hd. rewrite !append_length, H7, (day_two_digits day Hd).
    reflexivity.
Qed.

Lemma today_lies_in_this_month_witness :
  monthFromDate (todayISO 2026 0 5) = thisMonthISO 2026 0.
Proof.
  apply (today_lies_in_this_month 2026 0 5); lia.
Defined.
